(** * Verification of the detectors of [processamento.py]

    The two detection functions of the program, [detectar_desmatamento]
    and [detectar_focos_incendio], are embedded as Rocq functions over an
    explicit store of image buffers.  Python ndarrays that are passed
    around by reference and drawn on in place ([imagem],
    [imagem_resultado]) live in the store; the temporaries of a call
    (HSV buffer, masks, contours) are never mutated or aliased and are
    plain values.

    The program is a composition of OpenCV calls.  The per-pixel colour
    arithmetic, the smoothing arithmetic, the border following of
    [cv2.findContours] and the rasterisation of lines and glyphs are
    variables of the development: nothing proved below depends on what
    they compute.  The range test, the bitwise combinators, the
    morphological passes, the contour measurements and the pixel writes
    are modelled after the behaviour of the library: the border values
    of the morphological passes, and the conversion of the vertices to
    [float] and the [double] accumulation of [cv2.contourArea], are those
    of its implementation.

    The pipeline of the specification is written down a second time,
    from its words and with functions of its own (neighbourhood tests,
    enclosed pixels, polygon area, bounding box, painting), and compared
    with what the program computes. *)

From Stdlib Require Import ZArith Lia.
From stdpp Require Import base option list gmap strings pretty.

Local Open Scope Z_scope.

(** ** Data model *)

(** A pixel is the list of its channel values (8-bit, kept as [Z]); an
    array is a list of rows.  A two-dimensional (grey) ndarray is an
    array whose pixels have one channel. *)
Abbreviation pixel := (list Z) (only parsing).
Abbreviation ndarray := (list (list pixel)) (only parsing).

Abbreviation hsv_pixel := ((Z * Z * Z)%type) (only parsing).
Abbreviation hsv_image := (list (list hsv_pixel)) (only parsing).

(** Single-channel 8-bit image: 0 is background, 255 foreground. *)
Abbreviation mask := (list (list Z)) (only parsing).

(** Points are (x, y): column first, as in OpenCV. *)
Abbreviation point := ((Z * Z)%type) (only parsing).
Abbreviation contour := (list point) (only parsing).

(** Height, widths and channel counts of an array. *)
Definition shape (a : ndarray) : list (list nat) := map (map length) a.

Definition Mat_empty (a : ndarray) : bool :=
  match a with
  | [] => true
  | [] :: _ => true
  | _ => false
  end.

Definition channels (a : ndarray) : nat :=
  match a with
  | (p :: _) :: _ => length p
  | _ => 0%nat
  end.

(** Pixel of an array at row [y], column [x]. *)
Definition pixel_at (a : ndarray) (y x : nat) : option pixel :=
  a !! y ≫= λ row, row !! x.

(** ** Python values, exceptions and the store *)

Abbreviation loc := (nat) (only parsing).

Inductive PyVal :=
  | PyNone
  | PyArr (l : loc).

(** An exception is known by its class and, for the library's errors, the
    function that raised it. *)
Record PyExc := { exc_class : string; exc_func : string }.

Definition cv2_error (f : string) : PyExc :=
  {| exc_class := "cv2.error"; exc_func := f |}.
Definition AttributeError (f : string) : PyExc :=
  {| exc_class := "AttributeError"; exc_func := f |}.

Inductive result (A : Type) :=
  | Ok (a : A)
  | Raise (e : PyExc).
Arguments Ok {A} a.
Arguments Raise {A} e.

Abbreviation heap := (gmap loc ndarray) (only parsing).

(** Computations that read and write the store and may raise.  The store
    survives an exception. *)
Definition Py (A : Type) : Type := heap → result A * heap.

Global Instance Py_ret : MRet Py := λ A a h, (Ok a, h).
Global Instance Py_bind : MBind Py := λ A B f m h,
  match m h with
  | (Ok a, h') => f a h'
  | (Raise e, h') => (Raise e, h')
  end.

Definition raise {A} (e : PyExc) : Py A := λ h, (Raise e, h).

Definition lift {A} (r : result A) : Py A := λ h, (r, h).

(** Conversion of a Python argument to a [cv::Mat]: [None] becomes the
    empty matrix. *)
Definition to_Mat (v : PyVal) : Py ndarray := λ h,
  match v with
  | PyNone => (Ok [], h)
  | PyArr l =>
      match h !! l with
      | Some a => (Ok a, h)
      | None => (Raise {| exc_class := "SystemError"; exc_func := "to_Mat" |}, h)
      end
  end.

(** [imagem.copy()]: a new buffer with the same contents. *)
Definition ndarray_copy (v : PyVal) : Py PyVal := λ h,
  match v with
  | PyNone => (Raise (AttributeError "copy"), h)
  | PyArr l =>
      match h !! l with
      | Some a => let l' := fresh (dom h) in (Ok (PyArr l'), <[l' := a]> h)
      | None => (Raise {| exc_class := "SystemError"; exc_func := "copy" |}, h)
      end
  end.

(** In-place update of the buffer behind a reference. *)
Definition modify (v : PyVal) (fn : string) (f : ndarray → ndarray) : Py unit := λ h,
  match v with
  | PyNone => (Raise (cv2_error fn), h)
  | PyArr l =>
      match h !! l with
      | Some a => (Ok (), <[l := f a]> h)
      | None => (Raise {| exc_class := "SystemError"; exc_func := fn |}, h)
      end
  end.

(** [for x in xs: body], threading the loop-carried variables. *)
Fixpoint for_each {A S} (xs : list A) (body : A → S → Py S) (s : S) : Py S :=
  match xs with
  | [] => mret s
  | x :: xs' => s' ← body x s; for_each xs' body s'
  end.

(** ** OpenCV operations on values *)

(** *** Range test and bitwise combinators *)

Definition in_bounds (lo up : hsv_pixel) (p : hsv_pixel) : bool :=
  let '(h, s, v) := p in
  let '(lh, ls, lv) := lo in
  let '(uh, us, uv) := up in
  (lh <=? h) && (h <=? uh) && (ls <=? s) && (s <=? us) && (lv <=? v) && (v <=? uv).

(** [cv2.inRange(src, lowerb, upperb)]: 255 where every channel lies
    between the bounds, both ends included, 0 elsewhere. *)
Definition inRange (src : hsv_image) (lowerb upperb : hsv_pixel) : mask :=
  map (map (λ p, if in_bounds lowerb upperb p then 255 else 0)) src.

Definition same_size (a b : mask) : bool :=
  bool_decide (map length a = map length b).

(** [cv2.bitwise_or] and [cv2.bitwise_and] refuse operands of different
    sizes. *)
Definition bitwise_or (a b : mask) : result mask :=
  if same_size a b then Ok (zip_with (zip_with Z.lor) a b)
  else Raise (cv2_error "bitwise_or").

Definition bitwise_and (a b : mask) : result mask :=
  if same_size a b then Ok (zip_with (zip_with Z.land) a b)
  else Raise (cv2_error "bitwise_and").

(** *** Morphology *)

Inductive MorphTypes := MORPH_ERODE | MORPH_DILATE | MORPH_OPEN | MORPH_CLOSE.

(** [np.ones((r, c), np.uint8)] *)
Definition np_ones (r c : nat) : list (list Z) := replicate r (replicate c 1).

(** Offsets (dy, dx) of the non-zero entries of a structuring element
    from its anchor, the centre of the element. *)
Definition kernel_offsets (k : list (list Z)) : list (Z * Z) :=
  let ay := Z.of_nat (length k) / 2 in
  let ax := Z.of_nat (length (default [] (head k))) / 2 in
  mjoin (imap (λ i row,
    mjoin (imap (λ j e,
      if e =? 0 then [] else [(Z.of_nat i - ay, Z.of_nat j - ax)]) row)) k).

(** Pixel of the mask at (y, x), if the position is inside of it. *)
Definition mask_px (m : mask) (y x : Z) : option Z :=
  if (0 <=? y) && (0 <=? x) then m !! Z.to_nat y ≫= λ row, row !! Z.to_nat x
  else None.

(** Value of the mask at (y, x), or the border value outside of it
    ([BORDER_CONSTANT]). *)
Definition mask_at (m : mask) (border : Z) (y x : Z) : Z :=
  default border (mask_px m y x).

Definition window (m : mask) (border : Z) (k : list (list Z)) (y x : nat) : list Z :=
  map (λ '(dy, dx), mask_at m border (Z.of_nat y + dy) (Z.of_nat x + dx))
      (kernel_offsets k).

(** Minimum and maximum filters with a constant border. *)
Definition erode_border (border : Z) (src : mask) (k : list (list Z)) : mask :=
  imap (λ y row, imap (λ x _, foldr Z.min 255 (window src border k y x)) row) src.

Definition dilate_border (border : Z) (src : mask) (k : list (list Z)) : mask :=
  imap (λ y row, imap (λ x _, foldr Z.max 0 (window src border k y x)) row) src.

(** The program passes no border arguments, so the passes run with
    [BORDER_CONSTANT] and [morphologyDefaultBorderValue()]: erosion reads
    that value as the largest pixel value, dilation as the smallest. *)
Definition erode (src : mask) (k : list (list Z)) : mask := erode_border 255 src k.
Definition dilate (src : mask) (k : list (list Z)) : mask := dilate_border 0 src k.

Definition morphologyEx (src : mask) (op : MorphTypes) (k : list (list Z)) : mask :=
  match op with
  | MORPH_ERODE => erode src k
  | MORPH_DILATE => dilate src k
  | MORPH_OPEN => dilate (erode src k) k
  | MORPH_CLOSE => erode (dilate src k) k
  end.

(** *** Floating-point values

    [cv2.contourArea] converts the vertices of an integer contour to
    [float] and accumulates Green's formula in [double]; the total of the
    soil detector is a Python [float].  Every value that occurs is an
    integer or, for an area, an integer number of halves, so a
    floating-point value is kept as the integer it is worth. *)

(** The integer of at most [prec] significant bits nearest to [z], the
    even one of two that are as near: the value of [z] in a binary format
    of precision [prec] under the default rounding. *)
Definition round_to (prec z : Z) : Z :=
  let a := Z.abs z in
  let e := Z.log2 a + 1 - prec in
  if e <=? 0 then z
  else
    let q := a / 2 ^ e in
    let r := a mod 2 ^ e in
    let q' := if 2 * r <? 2 ^ e then q
              else if 2 ^ e <? 2 * r then q + 1
              else if Z.even q then q else q + 1 in
    Z.sgn z * (q' * 2 ^ e).

Definition float32 (z : Z) : Z := round_to 24 z.
Definition float64 (z : Z) : Z := round_to 53 z.

(** *** Contour measurements *)

(** Areas are multiples of one half and are kept in units of half a
    pixel: the Python value is [a / 2].  Halving and doubling are exact
    in binary floating point, so the sum of two areas rounds as the sum
    of their doubles. *)
Abbreviation half := (Z) (only parsing).
Definition half_of_int (n : Z) : half := 2 * n.
Definition float_add (a b : half) : half := float64 (a + b).

(** [Point2f((float)pt.x, (float)pt.y)] *)
Definition Point2f (p : point) : point := (float32 (fst p), float32 (snd p)).

(** The loop of [cv2.contourArea]:
    [a00 += (double)prev.x * p.y - (double)prev.y * p.x; prev = p]. *)
Fixpoint green_sum (prev : point) (pts : list point) (a00 : Z) : Z :=
  match pts with
  | [] => a00
  | p :: rest =>
      green_sum p rest
        (float64 (a00 + float64 (float64 (fst prev * snd p) - float64 (snd prev * fst p))))
  end.

(** [cv2.contourArea(contour)]: Green's formula over the vertices
    converted to [float], starting from the last one; the result is halved
    and its sign dropped. *)
Definition contourArea (c : contour) : half :=
  let pts := map Point2f c in
  match pts with
  | [] => 0
  | p0 :: _ => Z.abs (green_sum (List.last pts p0) pts 0)
  end.

(** [cv2.boundingRect(contour)]: (x, y, w, h) of the smallest upright
    rectangle holding every vertex. *)
Definition boundingRect (c : contour) : Z * Z * Z * Z :=
  match c with
  | [] => (0, 0, 0, 0)
  | (x0, y0) :: rest =>
      let xmin := foldr Z.min x0 (map fst rest) in
      let xmax := foldr Z.max x0 (map fst rest) in
      let ymin := foldr Z.min y0 (map snd rest) in
      let ymax := foldr Z.max y0 (map snd rest) in
      (xmin, ymin, xmax - xmin + 1, ymax - ymin + 1)
  end.

(** *** Pixel writes *)

(** A colour tuple is a [Scalar] of four components; a pixel receives as
    many of them as it has channels. *)
Definition Scalar (b g r : Z) : list Z := [b; g; r; 0].

Definition write_pixel (color : list Z) (px : pixel) : pixel :=
  take (length px) color ++ drop (length color) px.

(** Writes outside the image are clipped. *)
Definition set_pixel (color : list Z) (a : ndarray) (p : point) : ndarray :=
  let '(x, y) := p in
  if (0 <=? x) && (0 <=? y) then
    alter (alter (write_pixel color) (Z.to_nat x)) (Z.to_nat y) a
  else a.

Definition draw_points (pts : list point) (color : list Z) (a : ndarray) : ndarray :=
  foldl (set_pixel color) a pts.

(** ** The detectors *)

Inductive ColorConversionCodes := COLOR_BGR2HSV.
Inductive RetrievalModes := RETR_EXTERNAL | RETR_LIST | RETR_CCOMP | RETR_TREE.
Inductive ContourApproximationModes := CHAIN_APPROX_NONE | CHAIN_APPROX_SIMPLE.
Inductive HersheyFonts := FONT_HERSHEY_SIMPLEX | FONT_HERSHEY_PLAIN.

Section Detectors.

(** Colour arithmetic of one pixel under [COLOR_BGR2HSV]. *)
Variable bgr2hsv : pixel → hsv_pixel.
(** Smoothed value, for a kernel size and a sigma, of channel [c] at row
    [y], column [x]. *)
Variable blur_val : nat * nat → Z → ndarray → nat → nat → nat → Z.
(** Border following. *)
Variable findContours : mask → RetrievalModes → ContourApproximationModes → list contour.
(** Pixels covered by a rectangle outline between two corners with a
    given thickness, and by a text drawn from its bottom-left origin
    with a font, a scale (numerator, denominator) and a thickness. *)
Variable rectangle_raster : point → point → Z → list point.
Variable putText_raster : string → point → HersheyFonts → Z * Z → Z → list point.

(** [cv2.cvtColor(src, cv2.COLOR_BGR2HSV)]: the source must not be
    empty and must have three or four channels; the result has three. *)
Definition cvtColor (src : ndarray) (code : ColorConversionCodes) : result hsv_image :=
  if Mat_empty src then Raise (cv2_error "cvtColor")
  else if bool_decide (channels src = 3%nat ∨ channels src = 4%nat)
    then Ok (map (map bgr2hsv) src)
    else Raise (cv2_error "cvtColor").

(** [cv2.GaussianBlur(src, ksize, sigmaX)]: the source must not be empty;
    the result has the size and type of the source. *)
Definition GaussianBlur (src : ndarray) (ksize : nat * nat) (sigmaX : Z) : result ndarray :=
  if Mat_empty src then Raise (cv2_error "GaussianBlur")
  else Ok (imap (λ y row,
             imap (λ x px, imap (λ c _, blur_val ksize sigmaX src y x c) px) row) src).

(** [cv2.rectangle] and [cv2.putText] draw on the buffer they are
    given. *)
Definition rectangle (img : PyVal) (pt1 pt2 : point) (color : list Z)
    (thickness : Z) : Py unit :=
  modify img "rectangle" (draw_points (rectangle_raster pt1 pt2 thickness) color).

Definition putText (img : PyVal) (text : string) (org : point) (font : HersheyFonts)
    (fontScale : Z * Z) (color : list Z) (thickness : Z) : Py unit :=
  modify img "putText" (draw_points (putText_raster text org font fontScale thickness) color).

Definition detectar_desmatamento (imagem : PyVal) : Py (PyVal * half) :=
  src ← to_Mat imagem;
  hsv ← lift (cvtColor src COLOR_BGR2HSV);
  let lower_solo := (10, 40, 40) in
  let upper_solo := (30, 255, 255) in
  let mascara_solo := inRange hsv lower_solo upper_solo in
  let kernel := np_ones 5 5 in
  let mascara_solo := morphologyEx mascara_solo MORPH_OPEN kernel in
  let mascara_solo := morphologyEx mascara_solo MORPH_CLOSE kernel in
  let contornos := findContours mascara_solo RETR_EXTERNAL CHAIN_APPROX_SIMPLE in
  imagem_resultado ← ndarray_copy imagem;
  area_total_desmatada ←
    for_each contornos (λ contorno area_total_desmatada,
      let area := contourArea contorno in
      if half_of_int 500 <? area then
        let '(x, y, w, h) := boundingRect contorno in
        rectangle imagem_resultado (x, y) (x + w, y + h) (Scalar 0 255 255) 2;;
        putText imagem_resultado "Desmatamento" (x, y - 10) FONT_HERSHEY_SIMPLEX
                (7, 10) (Scalar 0 255 255) 2;;
        mret (float_add area_total_desmatada area)
      else mret area_total_desmatada) 0;
  mret (imagem_resultado, area_total_desmatada).

(** Steps 1 to 3 of the fire detector: the hue mask [mask_hue], and its
    conjunction with the brightness mask, the first value of
    [mascara_final]. *)
Definition mask_hue (hsv : hsv_image) : result mask :=
  let lower_hue1 := (0, 0, 0) in
  let upper_hue1 := (20, 255, 255) in
  let mask_hue1 := inRange hsv lower_hue1 upper_hue1 in
  let lower_hue2 := (170, 0, 0) in
  let upper_hue2 := (180, 255, 255) in
  let mask_hue2 := inRange hsv lower_hue2 upper_hue2 in
  bitwise_or mask_hue1 mask_hue2.

Definition mascara_combinada (hsv : hsv_image) : result mask :=
  match mask_hue hsv with
  | Raise e => Raise e
  | Ok mask_hue =>
      let MIN_BRIGHTNESS := 215 in
      let lower_val := (0, 0, MIN_BRIGHTNESS) in
      let upper_val := (180, 255, 255) in
      let mask_val := inRange hsv lower_val upper_val in
      bitwise_and mask_hue mask_val
  end.

Definition detectar_focos_incendio (imagem : PyVal) : Py (PyVal * Z) :=
  src ← to_Mat imagem;
  blurred ← lift (GaussianBlur src (5%nat, 5%nat) 0);
  hsv ← lift (cvtColor blurred COLOR_BGR2HSV);
  mascara_final ← lift (mascara_combinada hsv);
  let kernel := np_ones 5 5 in
  let mascara_final := morphologyEx mascara_final MORPH_OPEN kernel in
  let mascara_final := morphologyEx mascara_final MORPH_DILATE kernel in
  let contornos := findContours mascara_final RETR_EXTERNAL CHAIN_APPROX_SIMPLE in
  imagem_resultado ← ndarray_copy imagem;
  let focos_encontrados := 0 in
  let MIN_AREA := 30 in
  focos_encontrados ←
    for_each contornos (λ contorno focos_encontrados,
      if half_of_int MIN_AREA <? contourArea contorno then
        let focos_encontrados := focos_encontrados + 1 in
        let '(x, y, w, h) := boundingRect contorno in
        rectangle imagem_resultado (x, y) (x + w, y + h) (Scalar 0 0 255) 2;;
        putText imagem_resultado "Foco de Incendio" (x, y - 10) FONT_HERSHEY_SIMPLEX
                (7, 10) (Scalar 0 0 255) 2;;
        mret focos_encontrados
      else mret focos_encontrados) focos_encontrados;
  mret (imagem_resultado, focos_encontrados).

(** ** Masks and images the claims speak of *)

(** Masks whose pixels are 0 or 255, and HSV buffers of bytes. *)
Definition binary_mask (m : mask) : bool :=
  forallb (forallb (λ v, (v =? 0) || (v =? 255))) m.

Definition byte_hsv (hsv : hsv_image) : bool :=
  forallb (forallb (λ '(h, s, v),
    (0 <=? h) && (h <=? 255) && (0 <=? s) && (s <=? 255) && (0 <=? v) && (v <=? 255))) hsv.

(** A decoded, non-empty image of three byte channels. *)
Definition valid_image (a : ndarray) : bool :=
  negb (Mat_empty a) &&
  forallb (λ row, (length row =? length (default [] (head a)))%nat &&
                   forallb (λ px, (length px =? 3)%nat &&
                                  forallb (λ c, (0 <=? c) && (c <=? 255)) px) row) a.

(** rangeMask: foreground iff all three channels fall within the
    inclusive bound. *)
Definition rangeMask (hsv : hsv_image) (hmin hmax smin smax vmin vmax : Z) : mask :=
  map (map (λ '(h, s, v),
    if bool_decide (hmin ≤ h ≤ hmax ∧ smin ≤ s ≤ smax ∧ vmin ≤ v ≤ vmax)
    then 255 else 0)) hsv.

(** ** The result of a call as a function of the image

    The definitions that follow are read off the bodies of the two
    detectors: they name the masks, the regions kept by the loops, the
    annotation and the summary of a call, so that what a call returns and
    stores can be written down. *)

(** [MORPH_OPEN] and [MORPH_CLOSE] with the kernel of the program. *)
Definition open5 (m : mask) : mask := dilate (erode m (np_ones 5 5)) (np_ones 5 5).
Definition close5 (m : mask) : mask := erode (dilate m (np_ones 5 5)) (np_ones 5 5).

Definition findRegions (m : mask) : list contour :=
  findContours m RETR_EXTERNAL CHAIN_APPROX_SIMPLE.

Definition keep_regions (min_area : Z) (cs : list contour) : list contour :=
  filter (λ c, half_of_int min_area < contourArea c) cs.

(** Pixels of the annotation of one region: the rectangle between the
    box corner (x, y) and (x + w, y + h), and the label whose origin is
    ten rows above the corner. *)
Definition annotation_points (label : string) (c : contour) : list point :=
  let '(x, y, w, h) := boundingRect c in
  rectangle_raster (x, y) (x + w, y + h) 2 ++
  putText_raster label (x, y - 10) FONT_HERSHEY_SIMPLEX (7, 10) 2.

Definition drawRegions (a : ndarray) (regions : list contour) (color : list Z)
    (label : string) : ndarray :=
  foldl (λ a c, draw_points (annotation_points label c) color a) a regions.

Definition total_area (cs : list contour) : half :=
  foldl (λ s c, float_add s (contourArea c)) 0 cs.

Definition soil_regions (img : ndarray) : list contour :=
  let hsv := map (map bgr2hsv) img in
  keep_regions 500 (findRegions (close5 (open5 (rangeMask hsv 10 30 40 255 40 255)))).

Definition soil_result (img : ndarray) : ndarray * half :=
  (drawRegions img (soil_regions img) (Scalar 0 255 255) "Desmatamento",
   total_area (soil_regions img)).

Definition blur_of (img : ndarray) : ndarray :=
  imap (λ y row,
    imap (λ x px, imap (λ c _, blur_val (5%nat, 5%nat) 0 img y x c) px) row) img.

Definition hue_mask (hsv : hsv_image) : mask :=
  map (map (λ '(h, s, v),
    if bool_decide (0 ≤ h ≤ 20 ∨ 170 ≤ h ≤ 180) then 255 else 0)) hsv.

Definition fire_mask (hsv : hsv_image) : mask :=
  map (map (λ '(h, s, v),
    if bool_decide ((0 ≤ h ≤ 20 ∨ 170 ≤ h ≤ 180) ∧ 215 ≤ v) then 255 else 0)) hsv.

Definition fire_regions (img : ndarray) : list contour :=
  match mascara_combinada (map (map bgr2hsv) (blur_of img)) with
  | Ok m => keep_regions 30 (findRegions (dilate (open5 m) (np_ones 5 5)))
  | Raise _ => []
  end.

Definition fire_result (img : ndarray) : ndarray * Z :=
  (drawRegions img (fire_regions img) (Scalar 0 0 255) "Foco de Incendio",
   Z.of_nat (length (fire_regions img))).

End Detectors.

(** ** Area of a region, as the specification words it *)

Definition edges (c : contour) : list (point * point) :=
  match c with
  | [] => []
  | p0 :: rest => zip c (rest ++ [p0])
  end.

(** Positive when [p] lies to the left of the line from [a] to [b]. *)
Definition is_left (a b p : point) : Z :=
  (fst b - fst a) * (snd p - snd a) - (fst p - fst a) * (snd b - snd a).

Definition on_edge (p : point) (e : point * point) : bool :=
  let '(a, b) := e in
  (is_left a b p =? 0) &&
  (Z.min (fst a) (fst b) <=? fst p) && (fst p <=? Z.max (fst a) (fst b)) &&
  (Z.min (snd a) (snd b) <=? snd p) && (snd p <=? Z.max (snd a) (snd b)).

(** The edge crosses the horizontal ray that leaves [p] to the right. *)
Definition crosses (p : point) (e : point * point) : bool :=
  let '(a, b) := e in
  if snd a <=? snd p
  then (snd p <? snd b) && (0 <? is_left a b p)
  else (snd b <=? snd p) && (is_left a b p <? 0).

(** A pixel is enclosed when it lies on the boundary or inside of it. *)
Definition encloses (c : contour) (p : point) : bool :=
  existsb (on_edge p) (edges c) ||
  Nat.odd (length (List.filter (crosses p) (edges c))).

(** Number of pixels enclosed by a contour. *)
Definition enclosed_pixels (c : contour) : Z :=
  let '(x, y, w, h) := boundingRect c in
  Z.of_nat (length (List.filter (encloses c)
    (flat_map (λ j, map (λ i, (x + Z.of_nat i, y + Z.of_nat j)) (seq 0 (Z.to_nat w)))
              (seq 0 (Z.to_nat h))))).

(** Contour of a solid upright block of [w] by [h] pixels whose top-left
    pixel is (x, y): its four corner pixels. *)
Definition block_contour (x y w h : Z) : contour :=
  [(x, y); (x, y + h - 1); (x + w - 1, y + h - 1); (x + w - 1, y)].

(** Twice the area of the polygon through the vertices of a contour:
    the shoelace formula over its edges. *)
Definition polygon_area (c : contour) : half :=
  Z.abs (foldr Z.add 0 (map (λ e, fst (fst e) * snd (snd e) - fst (snd e) * snd (fst e))
                            (edges c))).

(** Length of the boundary trace: the number of pixel steps along the
    closed contour. *)
Definition perimeter (c : contour) : Z :=
  foldr Z.add 0 (map (λ e, Z.max (Z.abs (fst (snd e) - fst (fst e)))
                                 (Z.abs (snd (snd e) - snd (fst e))))
                     (edges c)).

(** The contours lie inside an image of [rows] by [cols] pixels, and
    image and contours are in the range in which the floating-point
    arithmetic of the areas is exact: no more than 2^24 rows and columns,
    and [rows * cols] times the number of vertices below 2^53. *)
Definition exact_range (rows cols : Z) (cs : list contour) : bool :=
  (0 <=? rows) && (rows <=? 2 ^ 24) && (0 <=? cols) && (cols <=? 2 ^ 24) &&
  forallb (forallb (λ p, (0 <=? fst p) && (fst p <? cols) &&
                         (0 <=? snd p) && (snd p <? rows))) cs &&
  (rows * cols * Z.of_nat (length (mjoin cs)) <? 2 ^ 53).

(** ** The soil pipeline, as the specification words it *)

(** The neighbourhood of a pixel under the 5x5 all-foreground
    structuring element: offsets (dy, dx). *)
Definition neighbourhood : list (Z * Z) :=
  flat_map (λ dy, map (λ dx, (dy, dx)) [-2; -1; 0; 1; 2]) [-2; -1; 0; 1; 2].

(** Whether the position (y, x) counts as foreground in a neighbourhood
    test; [outside] is the answer for the positions outside the image. *)
Definition foreground (outside : bool) (m : mask) (y x : Z) : bool :=
  if (y <? 0) || (x <? 0) then outside
  else match m !! Z.to_nat y with
       | None => outside
       | Some row =>
           match row !! Z.to_nat x with
           | None => outside
           | Some v => negb (v =? 0)
           end
       end.

(** Erosion keeps a pixel foreground only if its whole neighbourhood is
    foreground; dilation sets a pixel foreground if any position of its
    neighbourhood is foreground. *)
Definition erosion (outside : bool) (m : mask) : mask :=
  imap (λ y row, imap (λ x _,
    if forallb (λ d, foreground outside m (Z.of_nat y + fst d) (Z.of_nat x + snd d))
               neighbourhood
    then 255 else 0) row) m.

Definition dilation (outside : bool) (m : mask) : mask :=
  imap (λ y row, imap (λ x _,
    if existsb (λ d, foreground outside m (Z.of_nat y + fst d) (Z.of_nat x + snd d))
               neighbourhood
    then 255 else 0) row) m.

(** Least and greatest element of a list, and the axis-aligned bounding
    box (x, y, width, height) of a contour; the box of no points is
    empty. *)
Definition least (l : list Z) : Z :=
  match l with
  | [] => 0
  | v :: l' => foldl Z.min v l'
  end.

Definition greatest (l : list Z) : Z :=
  match l with
  | [] => 0
  | v :: l' => foldl Z.max v l'
  end.

Definition boundingBox (c : contour) : Z * Z * Z * Z :=
  match c with
  | [] => (0, 0, 0, 0)
  | _ =>
      let xs := map fst c in
      let ys := map snd c in
      (least xs, least ys, greatest xs - least xs + 1, greatest ys - least ys + 1)
  end.

(** The image with the pixels at the positions [marks] set to the
    colour (b, g, r). *)
Definition paint (marks : list point) (b g r : Z) (img : ndarray) : ndarray :=
  imap (λ y row, imap (λ x px,
    if bool_decide ((Z.of_nat x, Z.of_nat y) ∈ marks) then [b; g; r] else px) row) img.

Section Specification.

Variable bgr2hsv : pixel → hsv_pixel.
Variable blur_val : nat * nat → Z → ndarray → nat → nat → nat → Z.
Variable findContours : mask → RetrievalModes → ContourApproximationModes → list contour.
Variable rectangle_raster : point → point → Z → list point.
Variable putText_raster : string → point → HersheyFonts → Z * Z → Z → list point.

(** HSV conversion, range mask with the bound Hue 10..30, Saturation
    40..255, Value 40..255, opening (erosion then dilation), closing
    (dilation then erosion). *)
Definition exposed_soil (outside : bool) (img : ndarray) : mask :=
  let msk := rangeMask (map (map bgr2hsv) img) 10 30 40 255 40 255 in
  let opened := dilation false (erosion outside msk) in
  erosion outside (dilation false opened).

(** External regions of the cleaned mask. *)
Definition soil_contours (outside : bool) (img : ndarray) : list contour :=
  findContours (exposed_soil outside img) RETR_EXTERNAL CHAIN_APPROX_SIMPLE.

(** Rectangle of a region, from the corner (x, y) of its box to
    (x + w, y + h), and its label, ten rows above the corner. *)
Definition region_marks (label : string) (c : contour) : list point :=
  let '(x, y, w, h) := boundingBox c in
  rectangle_raster (x, y) (x + w, y + h) 2 ++
  putText_raster label (x, y - 10) FONT_HERSHEY_SIMPLEX (7, 10) 2.

(** The pipeline for a reading of the image border ([outside]) and a
    measure of area, in half pixels: keep the regions whose area exceeds
    500, paint their rectangles and labels in yellow on a copy of the
    image, sum their areas. *)
Definition soil_pipeline (outside : bool) (area : contour → half) (img : ndarray) :
    ndarray * half :=
  let kept := List.filter (λ c, half_of_int 500 <? area c) (soil_contours outside img) in
  (paint (flat_map (region_marks "Desmatamento") kept) 0 255 255 img,
   foldr Z.add 0 (map area kept)).

(** The specification: what lies outside the image is background, and
    the area of a region is the number of pixels it encloses. *)
Definition detectSoilExposure : ndarray → ndarray * half :=
  soil_pipeline false (λ c, half_of_int (enclosed_pixels c)).

(** The specification as amended: the erosions ignore what lies outside
    the image, and the area of a region is the area of the polygon
    through the vertices of its contour. *)
Definition detectSoilExposure_amended : ndarray → ndarray * half :=
  soil_pipeline true polygon_area.

(** The fire pipeline, with the same two readings: smoothing, HSV
    conversion, the mask of the pixels whose hue lies in one of the two
    red ranges and whose value is at least 215, opening, dilation,
    external regions, the regions whose area exceeds 30, their
    rectangles and labels in red on a copy of the image, their count. *)
Definition hot_spots (outside : bool) (img : ndarray) : mask :=
  let msk := fire_mask (map (map bgr2hsv) (blur_of blur_val img)) in
  dilation false (dilation false (erosion outside msk)).

Definition fire_contours (outside : bool) (img : ndarray) : list contour :=
  findContours (hot_spots outside img) RETR_EXTERNAL CHAIN_APPROX_SIMPLE.

Definition fire_pipeline (outside : bool) (area : contour → half) (img : ndarray) :
    ndarray * Z :=
  let kept := List.filter (λ c, half_of_int 30 <? area c) (fire_contours outside img) in
  (paint (flat_map (region_marks "Foco de Incendio") kept) 0 0 255 img,
   Z.of_nat (length kept)).

Definition detectFireHotspots_amended : ndarray → ndarray * Z :=
  fire_pipeline true polygon_area.

End Specification.

(** ** Inputs the specification calls invalid *)


(** ** What a caller observes of a call *)

(** The exception, or the contents of the returned image and the
    summary. *)
Definition observe {S} (out : result (PyVal * S) * heap) : result (option ndarray * S) :=
  match out with
  | (Ok (PyArr l, s), h) => Ok (h !! l, s)
  | (Ok (PyNone, s), _) => Ok (None, s)
  | (Raise e, _) => Raise e
  end.

(** ** Sample library functions

    Stand-ins for the variables above, to run the detectors on concrete
    images. *)

Definition sample_bgr2hsv (px : pixel) : hsv_pixel :=
  match px with
  | b :: g :: r :: _ =>
      let v := Z.max b (Z.max g r) in
      (if b <? r then 20 else 100, v - Z.min b (Z.min g r), v)
  | _ => (0, 0, 0)
  end.

Definition sample_blur (_ : nat * nat) (_ : Z) (a : ndarray) (y x c : nat) : Z :=
  default 0 (pixel_at a y x ≫= λ px, px !! c).

(** The frame of the mask when it has a foreground pixel. *)
Definition sample_findContours (m : mask) (_ : RetrievalModes)
    (_ : ContourApproximationModes) : list contour :=
  if existsb (existsb (λ v, negb (v =? 0))) m
  then [block_contour 0 0 (Z.of_nat (length (default [] (head m)))) (Z.of_nat (length m))]
  else [].

Definition sample_rectangle_raster (pt1 pt2 : point) (_ : Z) : list point := [pt1; pt2].

Definition sample_putText_raster (_ : string) (org : point) (_ : HersheyFonts)
    (_ : Z * Z) (_ : Z) : list point := [org].

Definition sample_desmatamento : PyVal → Py (PyVal * half) :=
  detectar_desmatamento sample_bgr2hsv sample_findContours
    sample_rectangle_raster sample_putText_raster.

Definition sample_focos_incendio : PyVal → Py (PyVal * Z) :=
  detectar_focos_incendio sample_bgr2hsv sample_blur sample_findContours
    sample_rectangle_raster sample_putText_raster.

(** Border following on a mask whose foreground is one solid upright
    block: the four corner pixels of the block. *)
Definition block_findContours (m : mask) (_ : RetrievalModes)
    (_ : ContourApproximationModes) : list contour :=
  let set := mjoin (imap (λ y row,
    mjoin (imap (λ x v, if v =? 0 then [] else [(Z.of_nat x, Z.of_nat y)]) row)) m) in
  match set with
  | [] => []
  | _ => let '(x, y, w, h) := boundingRect set in [block_contour x y w h]
  end.

(** An image of one ochre colour, a store that holds one of 30 by 30
    pixels, a store that holds an image without pixels, and a small HSV
    buffer. *)
Definition ochre : pixel := [40; 120; 200].
Definition ochre_image (n : nat) : ndarray := replicate n (replicate n ochre).
Definition sample_heap : heap := {[0%nat := ochre_image 30]}.

(** A solid ochre block of 23 by 23 pixels on a grey image of 31 by 31
    pixels, four pixels away from each side. *)
Definition grey : pixel := [128; 128; 128].
Definition block_image : ndarray :=
  replicate 4 (replicate 31 grey) ++
  replicate 23 (replicate 4 grey ++ replicate 23 ochre ++ replicate 4 grey) ++
  replicate 4 (replicate 31 grey).
Definition sample_hsv : hsv_image := [[(2, 100, 230); (178, 0, 255); (90, 200, 250)]].

(** ** The window

    The methods of [DetectorApp] read and write the widgets of the window,
    show error dialogs and call the detectors.  The state of the widgets
    they touch is a record; the file dialog, the file system and the
    scaling of a pixmap to a label are the environment. *)

Inductive QImageFormat := Format_RGB888.

Record QImage := {
  qi_data : list Z;
  qi_width : nat;
  qi_height : nat;
  qi_bytesPerLine : nat;
  qi_format : QImageFormat
}.

(** Pixel (x, y) of a [Format_RGB888] image: the three bytes at offset
    [y * bytesPerLine + 3 * x] of its data. *)
Definition QImage_pixel (q : QImage) (x y : nat) : option (Z * Z * Z) :=
  if (x <? qi_width q)%nat && (y <? qi_height q)%nat then
    let o := (y * qi_bytesPerLine q + 3 * x)%nat in
    r ← qi_data q !! o; g ← qi_data q !! (o + 1)%nat; b ← qi_data q !! (o + 2)%nat;
    Some (r, g, b)
  else None.

(** A label shows nothing, a text or a pixmap: setting one replaces the
    other. *)
Inductive QLabelContent :=
  | NoContent
  | LabelText (text : string)
  | LabelPixmap (pixmap : QImage).

Inductive ImageLabel := OfOriginal | OfDesmatamento | OfIncendio.

Record DetectorApp := {
  caminho_imagem : option string;
  btn_processar : bool;
  lbl_caminho : QLabelContent;
  lbl_img_original : QLabelContent;
  lbl_resultado_desmatamento : QLabelContent;
  lbl_img_desmatamento : QLabelContent;
  lbl_resultado_incendio : QLabelContent;
  lbl_img_incendio : QLabelContent;
  (** Title and text of the error dialogs shown so far, latest first. *)
  dialogs : list (string * string)
}.

Definition set_caminho_imagem (v : option string) (a : DetectorApp) : DetectorApp :=
  {| caminho_imagem := v; btn_processar := btn_processar a; lbl_caminho := lbl_caminho a;
     lbl_img_original := lbl_img_original a;
     lbl_resultado_desmatamento := lbl_resultado_desmatamento a;
     lbl_img_desmatamento := lbl_img_desmatamento a;
     lbl_resultado_incendio := lbl_resultado_incendio a;
     lbl_img_incendio := lbl_img_incendio a; dialogs := dialogs a |}.

Definition set_btn_processar (v : bool) (a : DetectorApp) : DetectorApp :=
  {| caminho_imagem := caminho_imagem a; btn_processar := v; lbl_caminho := lbl_caminho a;
     lbl_img_original := lbl_img_original a;
     lbl_resultado_desmatamento := lbl_resultado_desmatamento a;
     lbl_img_desmatamento := lbl_img_desmatamento a;
     lbl_resultado_incendio := lbl_resultado_incendio a;
     lbl_img_incendio := lbl_img_incendio a; dialogs := dialogs a |}.

Definition set_lbl_caminho (v : QLabelContent) (a : DetectorApp) : DetectorApp :=
  {| caminho_imagem := caminho_imagem a; btn_processar := btn_processar a; lbl_caminho := v;
     lbl_img_original := lbl_img_original a;
     lbl_resultado_desmatamento := lbl_resultado_desmatamento a;
     lbl_img_desmatamento := lbl_img_desmatamento a;
     lbl_resultado_incendio := lbl_resultado_incendio a;
     lbl_img_incendio := lbl_img_incendio a; dialogs := dialogs a |}.

Definition set_lbl_img_original (v : QLabelContent) (a : DetectorApp) : DetectorApp :=
  {| caminho_imagem := caminho_imagem a; btn_processar := btn_processar a;
     lbl_caminho := lbl_caminho a; lbl_img_original := v;
     lbl_resultado_desmatamento := lbl_resultado_desmatamento a;
     lbl_img_desmatamento := lbl_img_desmatamento a;
     lbl_resultado_incendio := lbl_resultado_incendio a;
     lbl_img_incendio := lbl_img_incendio a; dialogs := dialogs a |}.

Definition set_lbl_resultado_desmatamento (v : QLabelContent) (a : DetectorApp) : DetectorApp :=
  {| caminho_imagem := caminho_imagem a; btn_processar := btn_processar a;
     lbl_caminho := lbl_caminho a; lbl_img_original := lbl_img_original a;
     lbl_resultado_desmatamento := v;
     lbl_img_desmatamento := lbl_img_desmatamento a;
     lbl_resultado_incendio := lbl_resultado_incendio a;
     lbl_img_incendio := lbl_img_incendio a; dialogs := dialogs a |}.

Definition set_lbl_img_desmatamento (v : QLabelContent) (a : DetectorApp) : DetectorApp :=
  {| caminho_imagem := caminho_imagem a; btn_processar := btn_processar a;
     lbl_caminho := lbl_caminho a; lbl_img_original := lbl_img_original a;
     lbl_resultado_desmatamento := lbl_resultado_desmatamento a;
     lbl_img_desmatamento := v;
     lbl_resultado_incendio := lbl_resultado_incendio a;
     lbl_img_incendio := lbl_img_incendio a; dialogs := dialogs a |}.

Definition set_lbl_resultado_incendio (v : QLabelContent) (a : DetectorApp) : DetectorApp :=
  {| caminho_imagem := caminho_imagem a; btn_processar := btn_processar a;
     lbl_caminho := lbl_caminho a; lbl_img_original := lbl_img_original a;
     lbl_resultado_desmatamento := lbl_resultado_desmatamento a;
     lbl_img_desmatamento := lbl_img_desmatamento a;
     lbl_resultado_incendio := v;
     lbl_img_incendio := lbl_img_incendio a; dialogs := dialogs a |}.

Definition set_lbl_img_incendio (v : QLabelContent) (a : DetectorApp) : DetectorApp :=
  {| caminho_imagem := caminho_imagem a; btn_processar := btn_processar a;
     lbl_caminho := lbl_caminho a; lbl_img_original := lbl_img_original a;
     lbl_resultado_desmatamento := lbl_resultado_desmatamento a;
     lbl_img_desmatamento := lbl_img_desmatamento a;
     lbl_resultado_incendio := lbl_resultado_incendio a;
     lbl_img_incendio := v; dialogs := dialogs a |}.

Definition add_dialog (d : string * string) (a : DetectorApp) : DetectorApp :=
  {| caminho_imagem := caminho_imagem a; btn_processar := btn_processar a;
     lbl_caminho := lbl_caminho a; lbl_img_original := lbl_img_original a;
     lbl_resultado_desmatamento := lbl_resultado_desmatamento a;
     lbl_img_desmatamento := lbl_img_desmatamento a;
     lbl_resultado_incendio := lbl_resultado_incendio a;
     lbl_img_incendio := lbl_img_incendio a; dialogs := d :: dialogs a |}.

(** Methods read and write the window and the store and may raise; both
    survive an exception. *)
Definition Ui (A : Type) : Type := DetectorApp → heap → result A * DetectorApp * heap.

Global Instance Ui_ret : MRet Ui := λ A a self h, (Ok a, self, h).
Global Instance Ui_bind : MBind Ui := λ A B f m self h,
  match m self h with
  | (Ok a, self', h') => f a self' h'
  | (Raise e, self', h') => (Raise e, self', h')
  end.

Definition liftPy {A} (m : Py A) : Ui A := λ self h,
  let '(r, h') := m h in (r, self, h').

Definition get_self : Ui DetectorApp := λ self h, (Ok self, self, h).

Definition update (f : DetectorApp → DetectorApp) : Ui unit := λ self h, (Ok (), f self, h).

Definition QLabel_setText (set : QLabelContent → DetectorApp → DetectorApp)
    (text : string) : Ui unit := update (set (LabelText text)).
Definition QLabel_setPixmap (set : QLabelContent → DetectorApp → DetectorApp)
    (pixmap : QImage) : Ui unit := update (set (LabelPixmap pixmap)).
Definition QLabel_clear (set : QLabelContent → DetectorApp → DetectorApp) : Ui unit :=
  update (set NoContent).
Definition QMessageBox_critical (title text : string) : Ui unit :=
  update (add_dialog (title, text)).

(** Truth value of [self.caminho_imagem]: [None] and the empty string are
    false. *)
Definition truthy (s : option string) : bool :=
  match s with
  | Some s => negb (bool_decide (s = ""))
  | None => false
  end.

(** The window as [__init__] leaves it. *)
Definition DetectorApp_init : DetectorApp :=
  {| caminho_imagem := None; btn_processar := false;
     lbl_caminho := LabelText "Nenhuma imagem selecionada";
     lbl_img_original := LabelText "Imagem Original";
     lbl_resultado_desmatamento := NoContent;
     lbl_img_desmatamento := LabelText "Resultado Desmatamento";
     lbl_resultado_incendio := NoContent;
     lbl_img_incendio := LabelText "Resultado Incêndio";
     dialogs := [] |}.

Definition limpar_resultados : Ui unit :=
  QLabel_setText set_lbl_img_original "Imagem Original";;
  QLabel_setText set_lbl_img_desmatamento "Resultado Desmatamento";;
  QLabel_setText set_lbl_img_incendio "Resultado Incêndio";;
  QLabel_clear set_lbl_resultado_desmatamento;;
  QLabel_clear set_lbl_resultado_incendio.

(** [cv2.COLOR_BGR2RGB] on one pixel: the first and third channels are
    exchanged and a fourth one is dropped. *)
Definition bgr2rgb (px : pixel) : pixel :=
  match px with
  | b :: g :: r :: _ => [r; g; b]
  | _ => px
  end.

(** [cv2.cvtColor(src, cv2.COLOR_BGR2RGB)] *)
Definition cvtColor_BGR2RGB (src : ndarray) : result ndarray :=
  if Mat_empty src then Raise (cv2_error "cvtColor")
  else if bool_decide (channels src = 3%nat ∨ channels src = 4%nat)
    then Ok (map (map bgr2rgb) src)
    else Raise (cv2_error "cvtColor").

(** [a.shape] of a three-dimensional array and the bytes of [a.data]. *)
Definition ndarray_shape (a : ndarray) : nat * nat * nat :=
  (length a, length (default [] (head a)), channels a).

Definition ndarray_data (a : ndarray) : list Z := mjoin (mjoin a).

Definition converter_cv2_para_qpixmap (imagem_cv : PyVal) : Py QImage :=
  src ← to_Mat imagem_cv;
  imagem_rgb ← lift (cvtColor_BGR2RGB src);
  let '(h, w, ch) := ndarray_shape imagem_rgb in
  let bytes_por_linha := (ch * w)%nat in
  let q_img := {| qi_data := ndarray_data imagem_rgb; qi_width := w; qi_height := h;
                  qi_bytesPerLine := bytes_por_linha; qi_format := Format_RGB888 |} in
  mret q_img.

Definition mensagem_erro (caminho : string) : string :=
  "Não foi possível carregar a imagem em:" +:+ String (Ascii.ascii_of_nat 10) "" +:+ caminho.

Section Aplicacao.

Variable bgr2hsv : pixel → hsv_pixel.
Variable blur_val : nat * nat → Z → ndarray → nat → nat → nat → Z.
Variable findContours : mask → RetrievalModes → ContourApproximationModes → list contour.
Variable rectangle_raster : point → point → Z → list point.
Variable putText_raster : string → point → HersheyFonts → Z * Z → Z → list point.
(** Decoded contents of the files: nothing for a file that cannot be
    read. *)
Variable imread : string → option ndarray.
(** [pixmap.scaled(label.size(), Qt.KeepAspectRatio,
    Qt.SmoothTransformation)] for each of the three image labels. *)
Variable scaled : ImageLabel → QImage → QImage.

(** [cv2.imread(path)]: a new array, or [None]. *)
Definition cv2_imread (path : string) : Py PyVal := λ h,
  match imread path with
  | None => (Ok PyNone, h)
  | Some a => let l := fresh (dom h) in (Ok (PyArr l), <[l := a]> h)
  end.

(** [caminho] is the path the file dialog returned, empty when the dialog
    was cancelled. *)
Definition selecionar_e_exibir_imagem (caminho : string) : Ui unit :=
  if negb (bool_decide (caminho = "")) then
    update (set_caminho_imagem (Some caminho));;
    QLabel_setText set_lbl_caminho caminho;;
    update (set_btn_processar true);;
    limpar_resultados;;
    self ← get_self;
    imagem_original_cv ← liftPy (cv2_imread (default "" (caminho_imagem self)));
    match imagem_original_cv with
    | PyArr _ =>
        pixmap_original ← liftPy (converter_cv2_para_qpixmap imagem_original_cv);
        QLabel_setPixmap set_lbl_img_original (scaled OfOriginal pixmap_original)
    | PyNone =>
        QMessageBox_critical "Erro" (mensagem_erro (default "" (caminho_imagem self)))
    end
  else mret ().

Definition processar_imagem : Ui unit :=
  self ← get_self;
  if negb (truthy (caminho_imagem self)) then mret ()
  else
    imagem_original ← liftPy (cv2_imread (default "" (caminho_imagem self)));
    match imagem_original with
    | PyNone =>
        QMessageBox_critical "Erro" (mensagem_erro (default "" (caminho_imagem self)))
    | PyArr _ =>
        copia ← liftPy (ndarray_copy imagem_original);
        '(resultado_desmatamento_cv, area_pixels) ←
          liftPy (detectar_desmatamento bgr2hsv findContours rectangle_raster
                    putText_raster copia);
        QLabel_setText set_lbl_resultado_desmatamento
          ("<b>Área de Desmatamento:</b> " +:+ pretty (Z.quot area_pixels 2) +:+ " pixels");;
        pixmap_desmatamento ← liftPy (converter_cv2_para_qpixmap resultado_desmatamento_cv);
        QLabel_setPixmap set_lbl_img_desmatamento (scaled OfDesmatamento pixmap_desmatamento);;
        copia ← liftPy (ndarray_copy imagem_original);
        '(resultado_incendio_cv, num_focos) ←
          liftPy (detectar_focos_incendio bgr2hsv blur_val findContours rectangle_raster
                    putText_raster copia);
        QLabel_setText set_lbl_resultado_incendio
          ("<b>Focos de Incêndio:</b> " +:+ pretty num_focos);;
        pixmap_incendio ← liftPy (converter_cv2_para_qpixmap resultado_incendio_cv);
        QLabel_setPixmap set_lbl_img_incendio (scaled OfIncendio pixmap_incendio)
    end.

(** What the user does: answer the file dialog opened by the select
    button, or press the process button, which reacts only when it is
    enabled.  An exception raised by a handler is reported and the window
    goes on. *)
Inductive Event :=
  | Selecionar (caminho : string)
  | Processar.

Definition handle (e : Event) (self : DetectorApp) (h : heap) : DetectorApp * heap :=
  match e with
  | Selecionar caminho =>
      let '(_, self', h') := selecionar_e_exibir_imagem caminho self h in (self', h')
  | Processar =>
      if btn_processar self
      then let '(_, self', h') := processar_imagem self h in (self', h')
      else (self, h)
  end.

Definition run_events (es : list Event) (self : DetectorApp) (h : heap) : DetectorApp * heap :=
  foldl (λ st e, handle e st.1 st.2) (self, h) es.

End Aplicacao.

(** The part of the window that tells which image is selected, and what
    it holds when it is consistent: the process button is enabled exactly
    when a path is selected, the path is never the empty string, and the
    path label shows it. *)
Definition selection (a : DetectorApp) : option string * bool * QLabelContent :=
  (caminho_imagem a, btn_processar a, lbl_caminho a).

Definition selection_ok (a : DetectorApp) : Prop :=
  btn_processar a = truthy (caminho_imagem a) ∧
  caminho_imagem a ≠ Some "" ∧
  lbl_caminho a = LabelText (default "Nenhuma imagem selecionada" (caminho_imagem a)).

(** The image handed to Qt for an array in BGR order. *)
Definition QImage_of (a : ndarray) : QImage :=
  let rgb := map (map bgr2rgb) a in
  {| qi_data := ndarray_data rgb;
     qi_width := length (default [] (head rgb));
     qi_height := length rgb;
     qi_bytesPerLine := (channels rgb * length (default [] (head rgb)))%nat;
     qi_format := Format_RGB888 |}.

(** The four result labels of the window, what they show when no result
    is displayed, and what they show for the results of an image. *)
Definition resultados (a : DetectorApp) :
    QLabelContent * QLabelContent * QLabelContent * QLabelContent :=
  (lbl_resultado_desmatamento a, lbl_img_desmatamento a,
   lbl_resultado_incendio a, lbl_img_incendio a).

Definition sem_resultados :
    QLabelContent * QLabelContent * QLabelContent * QLabelContent :=
  (NoContent, LabelText "Resultado Desmatamento",
   NoContent, LabelText "Resultado Incêndio").

Section Resultados.

Variable bgr2hsv : pixel → hsv_pixel.
Variable blur_val : nat * nat → Z → ndarray → nat → nat → nat → Z.
Variable findContours : mask → RetrievalModes → ContourApproximationModes → list contour.
Variable rectangle_raster : point → point → Z → list point.
Variable putText_raster : string → point → HersheyFonts → Z * Z → Z → list point.
Variable imread : string → option ndarray.
Variable scaled : ImageLabel → QImage → QImage.

Definition resultados_de (img : ndarray) :
    QLabelContent * QLabelContent * QLabelContent * QLabelContent :=
  let solo := soil_result bgr2hsv findContours rectangle_raster putText_raster img in
  let fogo :=
    fire_result bgr2hsv blur_val findContours rectangle_raster putText_raster img in
  (LabelText ("<b>Área de Desmatamento:</b> " +:+ pretty (Z.quot solo.2 2) +:+ " pixels"),
   LabelPixmap (scaled OfDesmatamento (QImage_of solo.1)),
   LabelText ("<b>Focos de Incêndio:</b> " +:+ pretty fogo.2),
   LabelPixmap (scaled OfIncendio (QImage_of fogo.1))).

(** The result labels show nothing, or the results of the image of the
    selected file. *)
Definition resultados_ok (a : DetectorApp) : Prop :=
  resultados a = sem_resultados ∨
  ∃ p img, caminho_imagem a = Some p ∧ imread p = Some img ∧
    resultados a = resultados_de img.

End Resultados.

(** Stand-ins for the file system and the scaling: one readable file
    that holds the ochre image of 30 by 30 pixels. *)
Definition sample_imread (path : string) : option ndarray :=
  if bool_decide (path = "solo.png") then Some (ochre_image 30) else None.

Definition sample_scaled (_ : ImageLabel) (q : QImage) : QImage := q.

Definition sample_selecionar : string → Ui unit :=
  selecionar_e_exibir_imagem sample_imread sample_scaled.

Definition sample_processar : Ui unit :=
  processar_imagem sample_bgr2hsv sample_blur sample_findContours
    sample_rectangle_raster sample_putText_raster sample_imread sample_scaled.

Definition sample_run_events : list Event → DetectorApp → heap → DetectorApp * heap :=
  run_events sample_bgr2hsv sample_blur sample_findContours
    sample_rectangle_raster sample_putText_raster sample_imread sample_scaled.

(** * Properties *)

(** ** The decidable predicates *)

Local Abbreviation Binary m := (Forall (Forall (λ v : Z, v = 0 ∨ v = 255)) m).
Local Abbreviation Bytes hsv :=
  (Forall (Forall (λ p : hsv_pixel,
     let '(h, s, v) := p in 0 ≤ h ≤ 255 ∧ 0 ≤ s ≤ 255 ∧ 0 ≤ v ≤ 255)) hsv).

Lemma forallb_Forall {A} (f : A → bool) (P : A → Prop) (l : list A) :
  (∀ a, f a = true ↔ P a) → forallb f l = true ↔ Forall P l.
Proof.
  intros Hf. induction l as [|a l IH]; simpl.
  - split; [constructor|done].
  - rewrite andb_true_iff, Forall_cons, IH, Hf. done.
Qed.

Lemma binary_mask_Forall (m : mask) : binary_mask m = true ↔ Binary m.
Proof.
  unfold binary_mask. apply forallb_Forall. intros row.
  apply forallb_Forall. intros v. rewrite orb_true_iff, !Z.eqb_eq. done.
Qed.

Lemma byte_hsv_Forall (hsv : hsv_image) : byte_hsv hsv = true ↔ Bytes hsv.
Proof.
  unfold byte_hsv. apply forallb_Forall. intros row.
  apply forallb_Forall. intros [[h s] v].
  rewrite !andb_true_iff, !Z.leb_le. tauto.
Qed.

Lemma map_is_fmap {A B} (f : A → B) (l : list A) : map f l = f <$> l.
Proof. done. Qed.

Lemma valid_image_rows (img : ndarray) :
  valid_image img = true →
  Forall (λ row, length row = length (default [] (head img)) ∧
                 Forall (λ px : list Z, length px = 3%nat ∧ Forall (λ c, 0 ≤ c ≤ 255) px) row) img.
Proof.
  unfold valid_image. intros [_ Hall]%andb_true_iff. revert Hall.
  generalize (length (default [] (head img))). intros w.
  apply forallb_Forall. intros row.
  rewrite andb_true_iff, Nat.eqb_eq. apply and_iff_compat_l.
  apply forallb_Forall. intros px.
  rewrite andb_true_iff, Nat.eqb_eq. apply and_iff_compat_l.
  apply forallb_Forall. intros c. rewrite andb_true_iff, !Z.leb_le. done.
Qed.

Lemma map_length_imap2 {A B} (F : nat → nat → A → B) (m : list (list A)) :
  map length (imap (λ y row, imap (F y) row) m) = map length m.
Proof.
  apply list_eq. intros i.
  rewrite !map_is_fmap, !list_lookup_fmap, list_lookup_imap.
  destruct (m !! i) as [row|]; cbn [fmap option_fmap option_map]; [|reflexivity].
  f_equal. apply length_imap.
Qed.

(** ** Pixel writes keep the shape and touch only the listed points *)

Lemma length_write_pixel color px : length (write_pixel color px) = length px.
Proof.
  unfold write_pixel. rewrite length_app, length_take, length_drop. lia.
Qed.

Lemma map_alter_invariant {A B} (g : A → B) (f : A → A) (l : list A) (i : nat) :
  (∀ x, g (f x) = g x) → map g (alter f i l) = map g l.
Proof.
  intros Hf. revert i.
  induction l as [|x l IH]; intros [|i]; cbn; rewrite ?Hf, ?IH; done.
Qed.

Lemma shape_set_pixel color a p : shape (set_pixel color a p) = shape a.
Proof.
  destruct p as [x y]. unfold set_pixel, shape.
  destruct ((0 <=? x) && (0 <=? y)); [|done].
  apply map_alter_invariant. intros row.
  apply map_alter_invariant, length_write_pixel.
Qed.

Lemma shape_draw_points pts color a : shape (draw_points pts color a) = shape a.
Proof.
  unfold draw_points. revert a.
  induction pts as [|p pts IH]; intros a; simpl; [done|].
  rewrite IH. apply shape_set_pixel.
Qed.

Lemma pixel_at_set_pixel color a p (y x : nat) :
  p ≠ (Z.of_nat x, Z.of_nat y) →
  pixel_at (set_pixel color a p) y x = pixel_at a y x.
Proof.
  destruct p as [px py]. intros Hne. unfold set_pixel.
  destruct ((0 <=? px) && (0 <=? py)) eqn:Hin; [|done].
  apply andb_true_iff in Hin as [Hx%Z.leb_le Hy%Z.leb_le].
  unfold pixel_at.
  destruct (decide (Z.to_nat py = y)) as [<-|Hy'].
  - rewrite list_lookup_alter_eq. destruct (a !! Z.to_nat py) as [row|]; simpl; [|done].
    apply list_lookup_alter_ne. intros <-. apply Hne. f_equal; lia.
  - by rewrite list_lookup_alter_ne.
Qed.

Lemma pixel_at_draw_points pts color a (y x : nat) :
  (Z.of_nat x, Z.of_nat y) ∉ pts →
  pixel_at (draw_points pts color a) y x = pixel_at a y x.
Proof.
  unfold draw_points. revert a.
  induction pts as [|p pts IH]; intros a Hnot; simpl; [done|].
  apply not_elem_of_cons in Hnot as [Hp Hpts].
  rewrite IH by done. apply pixel_at_set_pixel. congruence.
Qed.

Lemma draw_points_app pts1 pts2 color a :
  draw_points (pts1 ++ pts2) color a = draw_points pts2 color (draw_points pts1 color a).
Proof. unfold draw_points. apply foldl_app. Qed.

(** ** The range test *)

Lemma in_bounds_spec lh uh ls us lv uv h s v :
  in_bounds (lh, ls, lv) (uh, us, uv) (h, s, v) = true ↔
  lh ≤ h ≤ uh ∧ ls ≤ s ≤ us ∧ lv ≤ v ≤ uv.
Proof.
  unfold in_bounds. rewrite !andb_true_iff, !Z.leb_le. tauto.
Qed.

Lemma inRange_rangeMask hsv lh uh ls us lv uv :
  inRange hsv (lh, ls, lv) (uh, us, uv) = rangeMask hsv lh uh ls us lv uv.
Proof.
  unfold inRange, rangeMask.
  apply map_ext; intros row. apply map_ext; intros [[h s] v].
  destruct (in_bounds _ _ _) eqn:Hb.
  - apply in_bounds_spec in Hb. by rewrite bool_decide_eq_true_2.
  - rewrite bool_decide_eq_false_2; [done|].
    intros Hc%in_bounds_spec. congruence.
Qed.

(** ** The annotation loop *)

Section Loop.
Variable rectangle_raster : point → point → Z → list point.
Variable putText_raster : string → point → HersheyFonts → Z * Z → Z → list point.

Lemma annotate_run {S} (l' : loc) (a : ndarray) (h : heap) (c : contour)
    (color : list Z) (label : string) (s : S) :
  h !! l' = Some a →
  (let '(x, y, w, h) := boundingRect c in
   rectangle rectangle_raster (PyArr l') (x, y) (x + w, y + h) color 2;;
   putText putText_raster (PyArr l') label (x, y - 10) FONT_HERSHEY_SIMPLEX
           (7, 10) color 2;;
   mret s) h =
  (Ok s, <[l' := draw_points (annotation_points rectangle_raster putText_raster label c)
                             color a]> h).
Proof.
  intros Hl. unfold annotation_points.
  destruct (boundingRect c) as [[[x y] w] hh].
  unfold rectangle, putText, modify, mbind, Py_bind, mret, Py_ret.
  rewrite Hl, lookup_insert_eq, insert_insert_eq.
  by rewrite draw_points_app.
Qed.

(** A loop that annotates the elements it keeps and updates its
    accumulator on them. *)
Lemma for_each_annotate {S} (keep : contour → Prop) `{!∀ c, Decision (keep c)}
    (upd : S → contour → S) (body : contour → S → Py S)
    (l' : loc) (color : list Z) (label : string) :
  (∀ c s a h, h !! l' = Some a →
     body c s h =
     if decide (keep c)
     then (Ok (upd s c),
           <[l' := draw_points (annotation_points rectangle_raster putText_raster label c)
                               color a]> h)
     else (Ok s, h)) →
  ∀ cs s a h, h !! l' = Some a →
    for_each cs body s h =
    (Ok (foldl upd s (filter keep cs)),
     <[l' := drawRegions rectangle_raster putText_raster a (filter keep cs) color label]> h).
Proof.
  intros Hbody cs. induction cs as [|c cs IH]; intros s a h Hl.
  - simpl. unfold mret, Py_ret. by rewrite insert_id.
  - simpl. unfold mbind, Py_bind. rewrite (Hbody c s a h Hl).
    rewrite filter_cons. destruct (decide (keep c)) as [Hk|Hk].
    + erewrite IH by apply lookup_insert_eq.
      by rewrite insert_insert_eq.
    + by apply IH.
Qed.
End Loop.

(** ** Floating-point values *)

Lemma round_to_small (prec z : Z) :
  0 < prec → Z.abs z < 2 ^ prec → round_to prec z = z.
Proof.
  intros Hprec Hz. unfold round_to.
  destruct (Z.leb_spec (Z.log2 (Z.abs z) + 1 - prec) 0) as [_|He]; [reflexivity|].
  exfalso. destruct (Z.eq_dec (Z.abs z) 0) as [H0|H0].
  - rewrite H0 in He. change (Z.log2 0) with 0 in He. lia.
  - assert (0 < Z.abs z) as Hpos by lia.
    apply Z.log2_lt_pow2 in Hz; lia.
Qed.

Lemma round_to_nonneg (prec z : Z) : 0 ≤ z → 0 ≤ round_to prec z.
Proof.
  intros Hz. unfold round_to.
  destruct (Z.leb_spec (Z.log2 (Z.abs z) + 1 - prec) 0) as [_|He]; [exact Hz|].
  set (e := Z.log2 (Z.abs z) + 1 - prec) in *.
  assert (0 < 2 ^ e) as Hpow by (apply Z.pow_pos_nonneg; lia).
  assert (0 ≤ Z.abs z / 2 ^ e) as Hq by (apply Z.div_pos; lia).
  assert (0 ≤ Z.sgn z) as Hs by (apply Z.sgn_nonneg; exact Hz).
  apply Z.mul_nonneg_nonneg; [exact Hs|].
  apply Z.mul_nonneg_nonneg; [|lia].
  repeat match goal with |- context [if ?b then _ else _] => destruct b end; lia.
Qed.

Lemma round_to_lower (prec z : Z) :
  0 < prec → 0 ≤ z → Z.min z (2 ^ prec) ≤ round_to prec z.
Proof.
  intros Hprec Hz. unfold round_to.
  destruct (Z.leb_spec (Z.log2 (Z.abs z) + 1 - prec) 0) as [_|He]; [lia|].
  rewrite (Z.abs_eq z) in * by exact Hz.
  set (e := Z.log2 z + 1 - prec) in *.
  assert (0 < z) as Hpos.
  { destruct (Z.eq_dec z 0) as [->|]; [|lia]. change (Z.log2 0) with 0 in e. lia. }
  assert (0 < 2 ^ e) as Hpow by (apply Z.pow_pos_nonneg; lia).
  assert (2 ^ Z.log2 z ≤ z) as Hlog by (apply Z.log2_spec; exact Hpos).
  assert (2 ^ Z.log2 z = 2 ^ (prec - 1) * 2 ^ e) as Hsplit.
  { rewrite <- Z.pow_add_r by lia. f_equal. lia. }
  assert (2 ^ (prec - 1) ≤ z / 2 ^ e) as Hq.
  { apply Z.div_le_lower_bound; [exact Hpow|]. lia. }
  assert (2 ^ prec = 2 * 2 ^ (prec - 1)) as Hprec2.
  { replace prec with (1 + (prec - 1)) at 1 by lia.
    rewrite Z.pow_add_r by lia. reflexivity. }
  assert (2 ≤ 2 ^ e) as He2.
  { replace e with (1 + (e - 1)) by lia. rewrite Z.pow_add_r by lia.
    assert (0 < 2 ^ (e - 1)) by (apply Z.pow_pos_nonneg; lia). lia. }
  rewrite (Z.sgn_pos z) by exact Hpos.
  assert (∀ q', z / 2 ^ e ≤ q' → Z.min z (2 ^ prec) ≤ 1 * (q' * 2 ^ e)) as Hgoal.
  { intros q' Hq'. assert (2 ^ prec ≤ q' * 2 ^ e) by nia. lia. }
  repeat match goal with |- context [if ?b then _ else _] => destruct b end;
    apply Hgoal; lia.
Qed.

Lemma float_add_nonneg (a b : half) : 0 ≤ a → 0 ≤ b → 0 ≤ float_add a b.
Proof. intros Ha Hb. apply round_to_nonneg. lia. Qed.

Lemma foldl_count {A} (cs : list A) (s : Z) :
  foldl (λ s _, s + 1) s cs = s + Z.of_nat (length cs).
Proof.
  revert s. induction cs as [|c cs IH]; intros s; simpl; [lia|]. rewrite IH. lia.
Qed.

(** ** What a call of a detector does *)

Section Correctness.

Variable bgr2hsv : pixel → hsv_pixel.
Variable blur_val : nat * nat → Z → ndarray → nat → nat → nat → Z.
Variable findContours : mask → RetrievalModes → ContourApproximationModes → list contour.
Variable rectangle_raster : point → point → Z → list point.
Variable putText_raster : string → point → HersheyFonts → Z * Z → Z → list point.

Local Abbreviation soil :=
  (detectar_desmatamento bgr2hsv findContours rectangle_raster putText_raster).
Local Abbreviation fire :=
  (detectar_focos_incendio bgr2hsv blur_val findContours rectangle_raster putText_raster).
Local Abbreviation soil_out :=
  (soil_result bgr2hsv findContours rectangle_raster putText_raster).
Local Abbreviation fire_out :=
  (fire_result bgr2hsv blur_val findContours rectangle_raster putText_raster).

Lemma cvtColor_Ok src hsv :
  cvtColor bgr2hsv src COLOR_BGR2HSV = Ok hsv → hsv = map (map bgr2hsv) src.
Proof.
  unfold cvtColor. destruct (Mat_empty src); [done|].
  case_bool_decide; congruence.
Qed.

Lemma soil_run (h : heap) (l : loc) (img : ndarray) :
  h !! l = Some img →
  soil (PyArr l) h =
  match cvtColor bgr2hsv img COLOR_BGR2HSV with
  | Raise e => (Raise e, h)
  | Ok _ => (Ok (PyArr (fresh (dom h)), snd (soil_out img)),
             <[fresh (dom h) := fst (soil_out img)]> h)
  end.
Proof.
  intros Hl. unfold detectar_desmatamento.
  unfold mbind at 1, Py_bind at 1. unfold to_Mat. rewrite Hl.
  unfold mbind at 1, Py_bind at 1. unfold lift at 1.
  destruct (cvtColor bgr2hsv img COLOR_BGR2HSV) as [hsv|e] eqn:Hcvt; [|done].
  apply cvtColor_Ok in Hcvt as ->.
  unfold mbind at 1, Py_bind at 1. unfold ndarray_copy. rewrite Hl.
  unfold mbind at 1, Py_bind at 1.
  erewrite (for_each_annotate rectangle_raster putText_raster
              (λ c, half_of_int 500 < contourArea c)
              (λ s c, float_add s (contourArea c)) _ (fresh (dom h))
              (Scalar 0 255 255) "Desmatamento");
    [| |apply lookup_insert_eq].
  - rewrite insert_insert_eq, inRange_rangeMask.
    unfold mret, Py_ret. simpl. done.
  - intros c s a h' Ha.
    destruct (Z.ltb_spec (half_of_int 500) (contourArea c)) as [Hlt|Hge].
    + rewrite decide_True by done.
      by rewrite (annotate_run rectangle_raster putText_raster _ a).
    + rewrite decide_False by lia. done.
Qed.

(** ** The masks of the fire detector *)

Lemma zip_with_map_map {A B C D} (f : B → C → D) (g : A → B) (k : A → C) (l : list A) :
  zip_with f (map g l) (map k l) = map (λ x, f (g x) (k x)) l.
Proof. induction l as [|x l IH]; simpl; [done|]. by rewrite IH. Qed.

Lemma same_size_map_map {A} (g k : A → Z) (l : list (list A)) :
  same_size (map (map g) l) (map (map k) l) = true.
Proof.
  unfold same_size. apply bool_decide_eq_true_2.
  rewrite !map_map. apply map_ext; intros row. by rewrite !length_map.
Qed.

Lemma zip_with_rows {A} (f : Z → Z → Z) (g k : A → Z) (l : list (list A)) :
  zip_with (zip_with f) (map (map g) l) (map (map k) l) =
  map (map (λ x, f (g x) (k x))) l.
Proof.
  rewrite zip_with_map_map. apply map_ext; intros row. apply zip_with_map_map.
Qed.

Lemma mask_hue_eq (hsv : hsv_image) :
  mask_hue hsv =
  Ok (map (map (λ p, Z.lor (if in_bounds (0, 0, 0) (20, 255, 255) p then 255 else 0)
                           (if in_bounds (170, 0, 0) (180, 255, 255) p then 255 else 0)))
          hsv).
Proof.
  unfold mask_hue, bitwise_or, inRange.
  by rewrite same_size_map_map, zip_with_rows.
Qed.

Lemma mascara_combinada_eq (hsv : hsv_image) :
  mascara_combinada hsv =
  Ok (map (map (λ p,
        Z.land (Z.lor (if in_bounds (0, 0, 0) (20, 255, 255) p then 255 else 0)
                      (if in_bounds (170, 0, 0) (180, 255, 255) p then 255 else 0))
               (if in_bounds (0, 0, 215) (180, 255, 255) p then 255 else 0))) hsv).
Proof.
  unfold mascara_combinada. rewrite mask_hue_eq.
  unfold bitwise_and, inRange.
  by rewrite same_size_map_map, zip_with_rows.
Qed.

Lemma GaussianBlur_Ok src b :
  GaussianBlur blur_val src (5%nat, 5%nat) 0 = Ok b → b = blur_of blur_val src.
Proof. unfold GaussianBlur, blur_of. destruct (Mat_empty src); congruence. Qed.

Lemma fire_run (h : heap) (l : loc) (img : ndarray) :
  h !! l = Some img →
  fire (PyArr l) h =
  match GaussianBlur blur_val img (5%nat, 5%nat) 0 with
  | Raise e => (Raise e, h)
  | Ok blurred =>
      match cvtColor bgr2hsv blurred COLOR_BGR2HSV with
      | Raise e => (Raise e, h)
      | Ok _ => (Ok (PyArr (fresh (dom h)), snd (fire_out img)),
                 <[fresh (dom h) := fst (fire_out img)]> h)
      end
  end.
Proof.
  intros Hl. unfold detectar_focos_incendio.
  unfold mbind at 1, Py_bind at 1. unfold to_Mat. rewrite Hl.
  unfold mbind at 1, Py_bind at 1. unfold lift at 1.
  destruct (GaussianBlur blur_val img _ _) as [blurred|e] eqn:Hblur; [|done].
  apply GaussianBlur_Ok in Hblur as ->.
  unfold mbind at 1, Py_bind at 1. unfold lift at 1.
  destruct (cvtColor bgr2hsv _ COLOR_BGR2HSV) as [hsv|e] eqn:Hcvt; [|done].
  apply cvtColor_Ok in Hcvt as ->.
  unfold mbind at 1, Py_bind at 1. unfold lift at 1.
  unfold fire_result, fire_regions.
  destruct (mascara_combinada _) as [m|e] eqn:Hm;
    [|by rewrite mascara_combinada_eq in Hm].
  unfold mbind at 1, Py_bind at 1. unfold ndarray_copy. rewrite Hl.
  unfold mbind at 1, Py_bind at 1.
  erewrite (for_each_annotate rectangle_raster putText_raster
              (λ c, half_of_int 30 < contourArea c)
              (λ s _, s + 1) _ (fresh (dom h))
              (Scalar 0 0 255) "Foco de Incendio");
    [| |apply lookup_insert_eq].
  - rewrite insert_insert_eq, foldl_count.
    unfold mret, Py_ret. simpl. done.
  - intros c s a h' Ha.
    destruct (Z.ltb_spec (half_of_int 30) (contourArea c)) as [Hlt|Hge].
    + rewrite decide_True by done.
      by rewrite (annotate_run rectangle_raster putText_raster _ a).
    + rewrite decide_False by lia. done.
Qed.


(** ** Valid and invalid inputs *)

Lemma valid_image_channels (img : ndarray) :
  valid_image img = true → Mat_empty img = false ∧ channels img = 3%nat.
Proof.
  unfold valid_image. intros [Hne Hall]%andb_true_iff.
  apply negb_true_iff in Hne. split; [done|].
  destruct img as [|[|px row] rows]; try done.
  simpl in Hall. apply andb_true_iff in Hall as [Hrow _].
  apply andb_true_iff in Hrow as [_ Hrow].
  apply andb_true_iff in Hrow as [Hpx _].
  apply andb_true_iff in Hpx as [Hpx _].
  by apply Nat.eqb_eq in Hpx.
Qed.

Lemma Mat_empty_blur_of (img : ndarray) :
  Mat_empty (blur_of blur_val img) = Mat_empty img.
Proof. by destruct img as [|[|px row] rows]. Qed.

Lemma channels_blur_of (img : ndarray) :
  channels (blur_of blur_val img) = channels img.
Proof.
  destruct img as [|[|px row] rows]; try done.
  simpl. apply length_imap.
Qed.

Lemma cvtColor_valid (img : ndarray) :
  Mat_empty img = false → channels img = 3%nat ∨ channels img = 4%nat →
  cvtColor bgr2hsv img COLOR_BGR2HSV = Ok (map (map bgr2hsv) img).
Proof.
  intros Hne Hch. unfold cvtColor. rewrite Hne. by rewrite bool_decide_eq_true_2.
Qed.


Lemma soil_run_valid (h : heap) (l : loc) (img : ndarray) :
  h !! l = Some img → valid_image img = true →
  soil (PyArr l) h =
  (Ok (PyArr (fresh (dom h)), snd (soil_out img)),
   <[fresh (dom h) := fst (soil_out img)]> h).
Proof.
  intros Hl [Hne Hch]%valid_image_channels.
  rewrite (soil_run h l img Hl), cvtColor_valid; auto.
Qed.

Lemma fire_run_valid (h : heap) (l : loc) (img : ndarray) :
  h !! l = Some img → valid_image img = true →
  fire (PyArr l) h =
  (Ok (PyArr (fresh (dom h)), snd (fire_out img)),
   <[fresh (dom h) := fst (fire_out img)]> h).
Proof.
  intros Hl [Hne Hch]%valid_image_channels.
  rewrite (fire_run h l img Hl). unfold GaussianBlur. rewrite Hne.
  fold (blur_of blur_val img).
  rewrite cvtColor_valid; [done| |].
  - by rewrite Mat_empty_blur_of.
  - rewrite channels_blur_of. auto.
Qed.

Lemma soil_run_None (h : heap) : soil PyNone h = (Raise (cv2_error "cvtColor"), h).
Proof. done. Qed.

Lemma fire_run_None (h : heap) : fire PyNone h = (Raise (cv2_error "GaussianBlur"), h).
Proof. done. Qed.

(** A call either leaves the store as it was, or adds one buffer at a
    location that was free. *)
Lemma soil_store (v : PyVal) (h : heap) :
  snd (soil v h) = h ∨
  ∃ out s, soil v h = (Ok (PyArr (fresh (dom h)), s), <[fresh (dom h) := out]> h).
Proof.
  destruct v as [|l]; [by left|].
  destruct (h !! l) as [img|] eqn:Hl.
  - rewrite (soil_run h l img Hl). destruct (cvtColor _ _ _); [right; eauto|by left].
  - left. unfold detectar_desmatamento, mbind, Py_bind, to_Mat. by rewrite Hl.
Qed.

Lemma fire_store (v : PyVal) (h : heap) :
  snd (fire v h) = h ∨
  ∃ out s, fire v h = (Ok (PyArr (fresh (dom h)), s), <[fresh (dom h) := out]> h).
Proof.
  destruct v as [|l]; [by left|].
  destruct (h !! l) as [img|] eqn:Hl.
  - rewrite (fire_run h l img Hl). destruct (GaussianBlur _ _ _ _); [|by left].
    destruct (cvtColor _ _ _); [right; eauto|by left].
  - left. unfold detectar_focos_incendio, mbind, Py_bind, to_Mat. by rewrite Hl.
Qed.

Lemma lookup_fresh_ne (h : heap) (l : loc) (a out : ndarray) :
  h !! l = Some a → <[fresh (dom h) := out]> h !! l = Some a.
Proof.
  intros Hl. rewrite lookup_insert_ne; [done|].
  intros Heq. apply (is_fresh (dom h)). rewrite Heq.
  apply elem_of_dom. eauto.
Qed.

Lemma shape_drawRegions (a : ndarray) (cs : list contour) (color : list Z) (label : string) :
  shape (drawRegions rectangle_raster putText_raster a cs color label) = shape a.
Proof.
  unfold drawRegions. revert a.
  induction cs as [|c cs IH]; intros a; simpl; [done|].
  rewrite IH. apply shape_draw_points.
Qed.

Lemma pixel_at_drawRegions (a : ndarray) (cs : list contour) (color : list Z)
    (label : string) (y x : nat) :
  (∀ c, c ∈ cs →
     (Z.of_nat x, Z.of_nat y) ∉ annotation_points rectangle_raster putText_raster label c) →
  pixel_at (drawRegions rectangle_raster putText_raster a cs color label) y x = pixel_at a y x.
Proof.
  unfold drawRegions. revert a.
  induction cs as [|c cs IH]; intros a Hout; simpl; [done|].
  rewrite IH by (intros c' Hc'; apply Hout; by right).
  apply pixel_at_draw_points, Hout. by left.
Qed.


Lemma soil_frame (v : PyVal) (h : heap) (l : loc) (a : ndarray) :
  h !! l = Some a → snd (soil v h) !! l = Some a.
Proof.
  intros Hl. destruct (soil_store v h) as [->|(out & s & ->)]; [done|].
  by apply lookup_fresh_ne.
Qed.

Lemma fire_frame (v : PyVal) (h : heap) (l : loc) (a : ndarray) :
  h !! l = Some a → snd (fire v h) !! l = Some a.
Proof.
  intros Hl. destruct (fire_store v h) as [->|(out & s & ->)]; [done|].
  by apply lookup_fresh_ne.
Qed.

(** What is observed of a call depends on the contents of the input
    only. *)
Lemma soil_observe (h : heap) (l : loc) (img : ndarray) :
  h !! l = Some img →
  observe (soil (PyArr l) h) =
  match cvtColor bgr2hsv img COLOR_BGR2HSV with
  | Raise e => Raise e
  | Ok _ => Ok (Some (fst (soil_out img)), snd (soil_out img))
  end.
Proof.
  intros Hl. rewrite (soil_run h l img Hl).
  destruct (cvtColor _ _ _); [|done]. simpl. by rewrite lookup_insert_eq.
Qed.

Lemma fire_observe (h : heap) (l : loc) (img : ndarray) :
  h !! l = Some img →
  observe (fire (PyArr l) h) =
  match GaussianBlur blur_val img (5%nat, 5%nat) 0 with
  | Raise e => Raise e
  | Ok blurred =>
      match cvtColor bgr2hsv blurred COLOR_BGR2HSV with
      | Raise e => Raise e
      | Ok _ => Ok (Some (fst (fire_out img)), snd (fire_out img))
      end
  end.
Proof.
  intros Hl. rewrite (fire_run h l img Hl).
  destruct (GaussianBlur _ _ _ _); [|done].
  destruct (cvtColor _ _ _); [|done]. simpl. by rewrite lookup_insert_eq.
Qed.

Lemma soil_run_dangling (h : heap) (l : loc) :
  h !! l = None → snd (soil (PyArr l) h) = h.
Proof.
  intros Hl. unfold detectar_desmatamento, mbind, Py_bind, to_Mat. by rewrite Hl.
Qed.

Lemma fire_run_dangling (h : heap) (l : loc) :
  h !! l = None → snd (fire (PyArr l) h) = h.
Proof.
  intros Hl. unfold detectar_focos_incendio, mbind, Py_bind, to_Mat. by rewrite Hl.
Qed.

(** ** Invalid inputs *)


(** ** Dimensions of the output *)

(** C6: on a valid image both detectors return an annotated image with
    the height, the width and the channel count of the input. *)
Theorem detectors_keep_dimensions (h : heap) (l : loc) (img : ndarray) :
  h !! l = Some img → valid_image img = true →
  (∃ l' s h' out, soil (PyArr l) h = (Ok (PyArr l', s), h') ∧
     h' !! l' = Some out ∧ shape out = shape img) ∧
  (∃ l' n h' out, fire (PyArr l) h = (Ok (PyArr l', n), h') ∧
     h' !! l' = Some out ∧ shape out = shape img).
Proof.
  intros Hl Hvalid. split.
  - rewrite (soil_run_valid h l img Hl Hvalid).
    eexists _, _, _, _. split; [done|]. split; [apply lookup_insert_eq|].
    apply shape_drawRegions.
  - rewrite (fire_run_valid h l img Hl Hvalid).
    eexists _, _, _, _. split; [done|]. split; [apply lookup_insert_eq|].
    apply shape_drawRegions.
Qed.

(** ** Effects on the store *)

(** C9: no detector changes a buffer that exists when it is called, the
    input buffer among them, and the image it returns is never one of
    those buffers: the annotation is drawn on a new copy. *)
Theorem detectors_do_not_mutate_input
    (v : PyVal) (h : heap) (l : loc) (a : ndarray) (s : half) (n : Z) :
  h !! l = Some a →
  (snd (soil v h) !! l = Some a ∧ fst (soil v h) ≠ Ok (PyArr l, s)) ∧
  (snd (fire v h) !! l = Some a ∧ fst (fire v h) ≠ Ok (PyArr l, n)).
Proof.
  intros Hl.
  assert (l ≠ fresh (dom h)) as Hfresh.
  { intros Heq. apply (is_fresh (dom h)). rewrite <- Heq. apply elem_of_dom. eauto. }
  split.
  - destruct (soil_store v h) as [Hsame|(out & s' & Hrun)].
    + split; [by rewrite Hsame|].
      intros Hok. destruct v as [|l0]; [done|].
      destruct (h !! l0) as [img|] eqn:Hl0.
      * rewrite (soil_run h l0 img Hl0) in Hok, Hsame.
        destruct (cvtColor _ _ _); [|done]. simpl in *. congruence.
      * revert Hok. unfold detectar_desmatamento, mbind, Py_bind, to_Mat.
        by rewrite Hl0.
    + rewrite Hrun. simpl. split; [by apply lookup_fresh_ne|congruence].
  - destruct (fire_store v h) as [Hsame|(out & s' & Hrun)].
    + split; [by rewrite Hsame|].
      intros Hok. destruct v as [|l0]; [done|].
      destruct (h !! l0) as [img|] eqn:Hl0.
      * rewrite (fire_run h l0 img Hl0) in Hok, Hsame.
        destruct (GaussianBlur _ _ _ _); [|done].
        destruct (cvtColor _ _ _); [|done]. simpl in *. congruence.
      * revert Hok. unfold detectar_focos_incendio, mbind, Py_bind, to_Mat.
        by rewrite Hl0.
    + rewrite Hrun. simpl. split; [by apply lookup_fresh_ne|congruence].
Qed.


(** ** Determinism *)

(** C8: a second run of a detector on the same input, in the store the
    first run left, is observed exactly as the first: the same exception,
    or an annotated image with the same contents and the same summary. *)
Theorem detectors_deterministic (v : PyVal) (h : heap) :
  observe (soil v (snd (soil v h))) = observe (soil v h) ∧
  observe (fire v (snd (fire v h))) = observe (fire v h).
Proof.
  destruct v as [|l]; [done|].
  destruct (h !! l) as [img|] eqn:Hl.
  - split.
    + rewrite (soil_observe h l img Hl).
      apply soil_observe. by apply soil_frame.
    + rewrite (fire_observe h l img Hl).
      apply fire_observe. by apply fire_frame.
  - by rewrite soil_run_dangling, fire_run_dangling.
Qed.

(** ** The output of the fire detector *)

(** C10: the image the fire detector returns is a copy of the input, not
    of the smoothed image: every pixel outside the rectangles and labels
    of the regions kept equals the pixel of the input. *)
Theorem fire_output_is_unblurred_input (h : heap) (l : loc) (img : ndarray) :
  h !! l = Some img → valid_image img = true →
  ∃ l' n h' out,
    fire (PyArr l) h = (Ok (PyArr l', n), h') ∧ h' !! l' = Some out ∧
    ∀ y x : nat,
      (∀ c, c ∈ fire_regions bgr2hsv blur_val findContours img →
         (Z.of_nat x, Z.of_nat y) ∉
           annotation_points rectangle_raster putText_raster "Foco de Incendio" c) →
      pixel_at out y x = pixel_at img y x.
Proof.
  intros Hl Hvalid. rewrite (fire_run_valid h l img Hl Hvalid).
  eexists _, _, _, _. split; [done|]. split; [apply lookup_insert_eq|].
  intros y x Hout. by apply pixel_at_drawRegions.
Qed.

End Correctness.

(** ** The mask of the fire detector *)

Lemma in_bounds_false lh uh ls us lv uv h s v :
  in_bounds (lh, ls, lv) (uh, us, uv) (h, s, v) = false ↔
  ¬ (lh ≤ h ≤ uh ∧ ls ≤ s ≤ us ∧ lv ≤ v ≤ uv).
Proof. rewrite <- in_bounds_spec. symmetry. apply not_true_iff_false. Qed.

Ltac bounds_cases :=
  repeat match goal with
  | H : in_bounds _ _ _ = true |- _ => apply in_bounds_spec in H
  | H : in_bounds _ _ _ = false |- _ => apply in_bounds_false in H
  end.

Lemma hue_pixel (h s v : Z) :
  0 ≤ h ≤ 255 → 0 ≤ s ≤ 255 → 0 ≤ v ≤ 255 →
  Z.lor (if in_bounds (0, 0, 0) (20, 255, 255) (h, s, v) then 255 else 0)
        (if in_bounds (170, 0, 0) (180, 255, 255) (h, s, v) then 255 else 0) =
  if bool_decide (0 ≤ h ≤ 20 ∨ 170 ≤ h ≤ 180) then 255 else 0.
Proof.
  intros Hh Hs Hv.
  destruct (in_bounds (0, 0, 0) _ _) eqn:H1;
    destruct (in_bounds (170, 0, 0) _ _) eqn:H2;
    bounds_cases; case_bool_decide; simpl; first [done | lia].
Qed.

Lemma fire_pixel (h s v : Z) :
  0 ≤ h ≤ 255 → 0 ≤ s ≤ 255 → 0 ≤ v ≤ 255 →
  Z.land (Z.lor (if in_bounds (0, 0, 0) (20, 255, 255) (h, s, v) then 255 else 0)
                (if in_bounds (170, 0, 0) (180, 255, 255) (h, s, v) then 255 else 0))
         (if in_bounds (0, 0, 215) (180, 255, 255) (h, s, v) then 255 else 0) =
  if bool_decide ((0 ≤ h ≤ 20 ∨ 170 ≤ h ≤ 180) ∧ 215 ≤ v) then 255 else 0.
Proof.
  intros Hh Hs Hv. rewrite hue_pixel by done.
  destruct (in_bounds (0, 0, 215) _ _) eqn:H3;
    bounds_cases; repeat case_bool_decide; simpl; first [done | lia].
Qed.

Lemma map_map_ext_Forall {A B} (P : A → Prop) (f g : A → B) (l : list (list A)) :
  (∀ x, P x → f x = g x) → Forall (Forall P) l → map (map f) l = map (map g) l.
Proof.
  intros Hfg Hl. induction Hl as [|row l Hrow _ IH]; simpl; [done|].
  f_equal; [|done]. induction Hrow as [|x row Hx _ IHrow]; simpl; [done|].
  f_equal; auto.
Qed.

Lemma mascara_combinada_spec (hsv : hsv_image) :
  Bytes hsv → mascara_combinada hsv = Ok (fire_mask hsv).
Proof.
  intros Hbytes. rewrite mascara_combinada_eq. f_equal. unfold fire_mask.
  eapply map_map_ext_Forall; [|exact Hbytes].
  intros [[h s] v] (? & ? & ?). by apply fire_pixel.
Qed.

Lemma mask_hue_spec (hsv : hsv_image) :
  Bytes hsv → mask_hue hsv = Ok (hue_mask hsv).
Proof.
  intros Hbytes. rewrite mask_hue_eq. f_equal. unfold hue_mask.
  eapply map_map_ext_Forall; [|exact Hbytes].
  intros [[h s] v] (? & ? & ?). by apply hue_pixel.
Qed.

(** C2: over an HSV buffer of bytes, the final mask of the fire detector
    is foreground exactly at the pixels whose hue lies in 0..20 or in
    170..180 and whose value is at least 215, and its hue mask exactly at
    the pixels whose hue lies in one of the two ranges, whatever the
    saturation and the value; a pixel of hue 2 and a pixel of hue 178 pass
    the hue test, a pixel of hue 90 does not. *)
Theorem fire_mask_condition (hsv : hsv_image) (s v : Z) :
  byte_hsv hsv = true → 0 ≤ s ≤ 255 → 0 ≤ v ≤ 255 →
  mascara_combinada hsv = Ok (fire_mask hsv) ∧
  mask_hue hsv = Ok (hue_mask hsv) ∧
  mask_hue [[(2, s, v)]] = Ok [[255]] ∧
  mask_hue [[(178, s, v)]] = Ok [[255]] ∧
  mask_hue [[(90, s, v)]] = Ok [[0]].
Proof.
  intros Hbytes%byte_hsv_Forall Hs Hv.
  split; [by apply mascara_combinada_spec|].
  split; [by apply mask_hue_spec|].
  rewrite !mask_hue_spec by (repeat constructor; lia).
  unfold hue_mask. simpl.
  repeat case_bool_decide; first [done | lia].
Qed.

(** ** Borders of the morphological passes *)

Lemma kernel_offsets_5x5 (dy dx : Z) :
  (dy, dx) ∈ kernel_offsets (np_ones 5 5) ↔ -2 ≤ dy ≤ 2 ∧ -2 ≤ dx ≤ 2.
Proof.
  let l := eval vm_compute in (kernel_offsets (np_ones 5 5)) in
  change (kernel_offsets (np_ones 5 5)) with l.
  split.
  - intros H. repeat (apply elem_of_cons in H as [[= -> ->]|H]; [lia|]).
    by apply elem_of_nil in H.
  - intros [Hy Hx].
    assert (dy = -2 ∨ dy = -1 ∨ dy = 0 ∨ dy = 1 ∨ dy = 2) as Hdy by lia.
    assert (dx = -2 ∨ dx = -1 ∨ dx = 0 ∨ dx = 1 ∨ dx = 2) as Hdx by lia.
    destruct Hdy as [->|[->|[->|[->| ->]]]];
      destruct Hdx as [->|[->|[->|[->| ->]]]];
      repeat first [apply list_elem_of_here | apply list_elem_of_further].
Qed.

Lemma foldr_min_binary (l : list Z) :
  Forall (λ v, v = 0 ∨ v = 255) l →
  (foldr Z.min 255 l = 0 ∨ foldr Z.min 255 l = 255) ∧
  (foldr Z.min 255 l = 255 ↔ Forall (λ v, v = 255) l).
Proof.
  induction 1 as [|v l Hv _ [IH1 IH2]]; simpl.
  - split; [by right|]. split; [constructor|done].
  - split; [lia|]. rewrite Forall_cons, <- IH2. lia.
Qed.

Lemma foldr_max_binary (l : list Z) :
  Forall (λ v, v = 0 ∨ v = 255) l →
  (foldr Z.max 0 l = 0 ∨ foldr Z.max 0 l = 255) ∧
  (foldr Z.max 0 l = 255 ↔ Exists (λ v, v = 255) l).
Proof.
  induction 1 as [|v l Hv _ [IH1 IH2]]; simpl.
  - split; [by left|]. split; [done|by intros ?%Exists_nil].
  - split; [lia|]. rewrite Exists_cons, <- IH2. lia.
Qed.

Lemma mask_px_nat (m : mask) (y x : nat) :
  mask_px m (Z.of_nat y) (Z.of_nat x) = m !! y ≫= λ row, row !! x.
Proof.
  unfold mask_px.
  replace ((0 <=? Z.of_nat y) && (0 <=? Z.of_nat x)) with true
    by (symmetry; apply andb_true_iff; split; apply Z.leb_le; lia).
  by rewrite !Nat2Z.id.
Qed.

Lemma mask_px_binary (m : mask) (y x v : Z) :
  Binary m → mask_px m y x = Some v → v = 0 ∨ v = 255.
Proof.
  intros Hm. unfold mask_px. destruct ((0 <=? y) && (0 <=? x)); [|done].
  destruct (m !! Z.to_nat y) as [row|] eqn:Hrow; simpl; [|done].
  intros Hv.
  rewrite Forall_lookup in Hm.
  specialize (Hm _ _ Hrow). rewrite Forall_lookup in Hm. exact (Hm _ _ Hv).
Qed.

Lemma window_binary (m : mask) (border : Z) (k : list (list Z)) (y x : nat) :
  Binary m → border = 0 ∨ border = 255 →
  Forall (λ v, v = 0 ∨ v = 255) (window m border k y x).
Proof.
  intros Hm Hb. unfold window. apply Forall_map, Forall_forall.
  intros [dy dx] _. unfold mask_at.
  destruct (mask_px m _ _) as [v|] eqn:Hv; simpl; [|done].
  by eapply mask_px_binary.
Qed.

Lemma mask_px_erode_border (border : Z) (m : mask) (k : list (list Z)) (y x : nat) :
  mask_px (erode_border border m k) (Z.of_nat y) (Z.of_nat x) =
  (λ _, foldr Z.min 255 (window m border k y x)) <$> mask_px m (Z.of_nat y) (Z.of_nat x).
Proof.
  rewrite !mask_px_nat. unfold erode_border. rewrite list_lookup_imap.
  destruct (m !! y) as [row|]; simpl; [|done]. by rewrite list_lookup_imap.
Qed.

Lemma mask_px_dilate_border (border : Z) (m : mask) (k : list (list Z)) (y x : nat) :
  mask_px (dilate_border border m k) (Z.of_nat y) (Z.of_nat x) =
  (λ _, foldr Z.max 0 (window m border k y x)) <$> mask_px m (Z.of_nat y) (Z.of_nat x).
Proof.
  rewrite !mask_px_nat. unfold dilate_border. rewrite list_lookup_imap.
  destruct (m !! y) as [row|]; simpl; [|done]. by rewrite list_lookup_imap.
Qed.

Lemma binary_erode_border (border : Z) (m : mask) (k : list (list Z)) :
  Binary m → border = 0 ∨ border = 255 → Binary (erode_border border m k).
Proof.
  intros Hm Hb. unfold erode_border.
  apply Forall_lookup. intros y row' [row [_ ->]]%list_lookup_imap_Some.
  apply Forall_lookup. intros x v [v0 [_ ->]]%list_lookup_imap_Some.
  by apply foldr_min_binary, window_binary.
Qed.

Lemma binary_dilate_border (border : Z) (m : mask) (k : list (list Z)) :
  Binary m → border = 0 ∨ border = 255 → Binary (dilate_border border m k).
Proof.
  intros Hm Hb. unfold dilate_border.
  apply Forall_lookup. intros y row' [row [_ ->]]%list_lookup_imap_Some.
  apply Forall_lookup. intros x v [v0 [_ ->]]%list_lookup_imap_Some.
  by apply foldr_max_binary, window_binary.
Qed.

Lemma dilate_window_255 (m : mask) (y x : nat) :
  Binary m →
  foldr Z.max 0 (window m 0 (np_ones 5 5) y x) = 255 ↔
  ∃ dy dx, -2 ≤ dy ≤ 2 ∧ -2 ≤ dx ≤ 2 ∧
    mask_px m (Z.of_nat y + dy) (Z.of_nat x + dx) = Some 255.
Proof.
  intros Hm.
  destruct (foldr_max_binary (window m 0 (np_ones 5 5) y x)) as [_ ->];
    [apply window_binary; auto|].
  unfold window. rewrite Exists_map, Exists_exists. split.
  - intros ([dy dx] & Hin%kernel_offsets_5x5 & Hv).
    exists dy, dx. split; [tauto|]. split; [tauto|].
    simpl in Hv. unfold mask_at in Hv.
    destruct (mask_px m _ _); simpl in Hv; [congruence|lia].
  - intros (dy & dx & Hy & Hx & Hv). exists (dy, dx).
    split; [by apply kernel_offsets_5x5|]. unfold mask_at. by rewrite Hv.
Qed.

Lemma erode_window_255 (m : mask) (y x : nat) :
  Binary m →
  foldr Z.min 255 (window m 255 (np_ones 5 5) y x) = 255 ↔
  ∀ dy dx, -2 ≤ dy ≤ 2 → -2 ≤ dx ≤ 2 →
    ∀ v, mask_px m (Z.of_nat y + dy) (Z.of_nat x + dx) = Some v → v = 255.
Proof.
  intros Hm.
  destruct (foldr_min_binary (window m 255 (np_ones 5 5) y x)) as [_ ->];
    [apply window_binary; auto|].
  unfold window. rewrite Forall_map, Forall_forall. split.
  - intros Hall dy dx Hy Hx v Hv.
    specialize (Hall (dy, dx)). simpl in Hall.
    unfold mask_at in Hall. rewrite Hv in Hall. apply Hall.
    by apply kernel_offsets_5x5.
  - intros Hall [dy dx] [Hy Hx]%kernel_offsets_5x5. unfold mask_at.
    destruct (mask_px m _ _) as [v|] eqn:Hv; simpl; [|done].
    exact (Hall dy dx Hy Hx v Hv).
Qed.

(** C5, as amended: with the 5x5 element on a binary mask, a dilation
    sets a pixel when some pixel of its 5x5 neighbourhood inside the image
    is set, so what lies outside the image counts as background; an
    erosion keeps a pixel when every pixel of its neighbourhood inside the
    image is set, so what lies outside the image does not count against
    it.  Opening is this erosion then this dilation, closing this dilation
    then this erosion, and each pass yields a binary mask. *)
Theorem morphology_border_handling (m : mask) (y x : nat) (v0 : Z) :
  binary_mask m = true → mask_px m (Z.of_nat y) (Z.of_nat x) = Some v0 →
  (mask_px (morphologyEx m MORPH_DILATE (np_ones 5 5)) (Z.of_nat y) (Z.of_nat x) = Some 255 ↔
     ∃ dy dx, -2 ≤ dy ≤ 2 ∧ -2 ≤ dx ≤ 2 ∧
       mask_px m (Z.of_nat y + dy) (Z.of_nat x + dx) = Some 255) ∧
  (mask_px (morphologyEx m MORPH_ERODE (np_ones 5 5)) (Z.of_nat y) (Z.of_nat x) = Some 255 ↔
     ∀ dy dx, -2 ≤ dy ≤ 2 → -2 ≤ dx ≤ 2 →
       ∀ v, mask_px m (Z.of_nat y + dy) (Z.of_nat x + dx) = Some v → v = 255) ∧
  morphologyEx m MORPH_OPEN (np_ones 5 5) =
    morphologyEx (morphologyEx m MORPH_ERODE (np_ones 5 5)) MORPH_DILATE (np_ones 5 5) ∧
  morphologyEx m MORPH_CLOSE (np_ones 5 5) =
    morphologyEx (morphologyEx m MORPH_DILATE (np_ones 5 5)) MORPH_ERODE (np_ones 5 5) ∧
  binary_mask (morphologyEx m MORPH_ERODE (np_ones 5 5)) = true ∧
  binary_mask (morphologyEx m MORPH_DILATE (np_ones 5 5)) = true.
Proof.
  intros Hm%binary_mask_Forall Hv0. unfold morphologyEx, erode, dilate.
  rewrite mask_px_dilate_border, mask_px_erode_border, Hv0.
  cbn [fmap option_fmap option_map].
  split; [|split; [|split; [done|split; [done|split]]]].
  - rewrite <- (dilate_window_255 m y x Hm). split; congruence.
  - rewrite <- (erode_window_255 m y x Hm). split; congruence.
  - apply binary_mask_Forall, binary_erode_border; auto.
  - apply binary_mask_Forall, binary_dilate_border; auto.
Qed.

(** C5 fails as stated: the opening of the program leaves a one-pixel
    mask set, and a 3x3 one; erosion with a background border clears
    them. *)
Lemma erosion_border_is_not_background :
  morphologyEx [[255]] MORPH_OPEN (np_ones 5 5) = [[255]] ∧
  dilate_border 0 (erode_border 0 [[255]] (np_ones 5 5)) (np_ones 5 5) = [[0]] ∧
  morphologyEx (replicate 3 (replicate 3 255)) MORPH_CLOSE (np_ones 5 5) =
    replicate 3 (replicate 3 255) ∧
  erode_border 0 (dilate_border 0 (replicate 3 (replicate 3 255)) (np_ones 5 5)) (np_ones 5 5) =
    replicate 3 (replicate 3 0).
Proof. vm_compute. done. Qed.

(** ** Area of a contour *)

Local Abbreviation cross :=
  (λ e : point * point, fst (fst e) * snd (snd e) - fst (snd e) * snd (fst e)).
Local Abbreviation InBox rows cols :=
  (λ p : point, 0 ≤ fst p < cols ∧ 0 ≤ snd p < rows).

Lemma boundingRect_block (x y w h : Z) :
  1 ≤ w → 1 ≤ h → boundingRect (block_contour x y w h) = (x, y, w, h).
Proof.
  intros Hw Hh. unfold boundingRect, block_contour. simpl.
  repeat f_equal; lia.
Qed.

Lemma float64_small (z : Z) : Z.abs z < 2 ^ 53 → float64 z = z.
Proof. apply round_to_small. lia. Qed.

Lemma float32_small (z : Z) : Z.abs z < 2 ^ 24 → float32 z = z.
Proof. apply round_to_small. lia. Qed.

Lemma product_in_box (rows cols a b : Z) :
  0 ≤ a < cols → 0 ≤ b < rows → 0 ≤ a * b < rows * cols.
Proof.
  intros Ha Hb.
  assert (a * b ≤ (cols - 1) * (rows - 1)) by (apply Z.mul_le_mono_nonneg; lia).
  assert (0 ≤ a * b) by (apply Z.mul_nonneg_nonneg; lia).
  nia.
Qed.

(** Inside the range, the loop of [cv2.contourArea] adds up the exact
    terms of the shoelace formula. *)
Lemma green_sum_exact (rows cols : Z) (pts : list point) :
  ∀ (prev : point) (a00 k : Z),
    InBox rows cols prev → Forall (InBox rows cols) pts →
    0 ≤ k → Z.abs a00 ≤ k * (rows * cols) →
    (k + Z.of_nat (length pts)) * (rows * cols) < 2 ^ 53 →
    green_sum prev pts a00 = a00 + foldr Z.add 0 (map cross (zip (prev :: pts) pts)) ∧
    Z.abs (a00 + foldr Z.add 0 (map cross (zip (prev :: pts) pts))) ≤
      (k + Z.of_nat (length pts)) * (rows * cols).
Proof.
  set (B := 2 ^ 53).
  induction pts as [|p rest IH]; intros prev a00 k Hprev Hpts Hk Ha Hlt.
  - cbn [green_sum zip_with map foldr length Z.of_nat].
    rewrite !Z.add_0_r. split; [reflexivity|exact Ha].
  - apply Forall_cons in Hpts as [Hp Hrest].
    pose proof (product_in_box rows cols (fst prev) (snd p) (proj1 Hprev) (proj2 Hp)) as H1.
    pose proof (product_in_box rows cols (fst p) (snd prev) (proj1 Hp) (proj2 Hprev)) as H2.
    set (M := rows * cols) in *.
    assert (0 < M) as HM by lia.
    rewrite length_cons, Nat2Z.inj_succ in Hlt |- *.
    assert (M < B) as HMB by nia.
    change (zip (prev :: p :: rest) (p :: rest)) with ((prev, p) :: zip (p :: rest) rest).
    cbn [green_sum map foldr fst snd].
    replace (snd prev * fst p) with (fst p * snd prev) by ring.
    rewrite (float64_small (fst prev * snd p)) by (fold B; lia).
    rewrite (float64_small (fst p * snd prev)) by (fold B; lia).
    rewrite (float64_small (fst prev * snd p - fst p * snd prev)) by (fold B; lia).
    assert (Z.abs (a00 + (fst prev * snd p - fst p * snd prev)) ≤ (k + 1) * M) as Hstep
      by lia.
    rewrite (float64_small (a00 + (fst prev * snd p - fst p * snd prev)))
      by (fold B; nia).
    destruct (IH p (a00 + (fst prev * snd p - fst p * snd prev)) (k + 1) Hp Hrest)
      as [IH1 IH2]; [lia|exact Hstep|lia|].
    rewrite IH1. split; [ring|].
    rewrite Z.add_assoc. lia.
Qed.

Lemma last_default {A} (a d d' : A) (l : list A) :
  List.last (a :: l) d = List.last (a :: l) d'.
Proof.
  revert a. induction l as [|b l IH]; intros a; [reflexivity|].
  change (List.last (b :: l) d = List.last (b :: l) d'). apply IH.
Qed.

Lemma Forall_last {A} (P : A → Prop) (a d : A) (l : list A) :
  Forall P (a :: l) → P (List.last (a :: l) d).
Proof.
  revert a. induction l as [|b l IH]; intros a Hall.
  - apply Forall_cons in Hall as [Ha _]. exact Ha.
  - apply Forall_cons in Hall as [_ Hall].
    change (P (List.last (b :: l) d)). apply IH, Hall.
Qed.

(** The edges from each vertex to the next one, the last to the first,
    are the edges the loop visits, starting one earlier. *)
Lemma edges_shift (q : point) (rest : list point) :
  ∀ p0 : point,
    foldr Z.add 0 (map cross (zip (p0 :: rest) (rest ++ [q]))) =
    foldr Z.add 0 (map cross (zip (p0 :: rest) rest)) +
    cross (List.last (p0 :: rest) p0, q).
Proof.
  induction rest as [|p1 rest IH]; intros p0.
  - cbn [app zip_with map foldr List.last fst snd]. ring.
  - change (zip (p0 :: p1 :: rest) ((p1 :: rest) ++ [q]))
      with ((p0, p1) :: zip (p1 :: rest) (rest ++ [q])).
    change (zip (p0 :: p1 :: rest) (p1 :: rest))
      with ((p0, p1) :: zip (p1 :: rest) rest).
    cbn [map foldr]. rewrite IH.
    change (List.last (p0 :: p1 :: rest) p0) with (List.last (p1 :: rest) p0).
    rewrite (last_default p1 p1 p0 rest). ring.
Qed.

Lemma Point2f_small (c : contour) :
  Forall (λ p, Z.abs (fst p) < 2 ^ 24 ∧ Z.abs (snd p) < 2 ^ 24) c → map Point2f c = c.
Proof.
  induction 1 as [|[x y] c [Hx Hy] _ IH]; [reflexivity|].
  cbn [map]. rewrite IH. unfold Point2f. cbn [fst snd] in *.
  by rewrite !float32_small.
Qed.

Lemma contourArea_exact (rows cols : Z) (c : contour) :
  rows ≤ 2 ^ 24 → cols ≤ 2 ^ 24 → Forall (InBox rows cols) c →
  Z.of_nat (length c) * (rows * cols) < 2 ^ 53 →
  contourArea c = polygon_area c ∧
  0 ≤ polygon_area c ≤ Z.of_nat (length c) * (rows * cols).
Proof.
  intros Hrows Hcols Hbox Hlt.
  assert (0 ≤ polygon_area c) as Hnn by apply Z.abs_nonneg.
  unfold contourArea. rewrite Point2f_small.
  2:{ eapply Forall_impl; [exact Hbox|]. intros p [Hx Hy]. cbn beta in *. lia. }
  destruct c as [|p0 rest].
  { split; [reflexivity|]. split; [exact Hnn|]. reflexivity. }
  destruct (green_sum_exact rows cols (p0 :: rest) (List.last (p0 :: rest) p0) 0 0)
    as [Hsum Hbound]; [by apply Forall_last|exact Hbox|lia|lia|lia|].
  rewrite Hsum.
  assert (0 + foldr Z.add 0 (map cross
            (zip (List.last (p0 :: rest) p0 :: p0 :: rest) (p0 :: rest))) =
          foldr Z.add 0 (map cross (edges (p0 :: rest)))) as Heq.
  { unfold edges. rewrite edges_shift.
    change (zip (List.last (p0 :: rest) p0 :: p0 :: rest) (p0 :: rest))
      with ((List.last (p0 :: rest) p0, p0) :: zip (p0 :: rest) rest).
    cbn [map foldr]. ring. }
  rewrite Heq in Hbound |- *. unfold polygon_area in *.
  split; [reflexivity|]. split; [exact Hnn|]. lia.
Qed.

Lemma exact_range_spec (rows cols : Z) (cs : list contour) :
  exact_range rows cols cs = true →
  (0 ≤ rows ≤ 2 ^ 24 ∧ 0 ≤ cols ≤ 2 ^ 24) ∧
  Forall (Forall (InBox rows cols)) cs ∧
  rows * cols * Z.of_nat (length (mjoin cs)) < 2 ^ 53.
Proof.
  unfold exact_range. rewrite !andb_true_iff, !Z.leb_le, Z.ltb_lt.
  intros [[[[[H1 H2] H3] H4] Hall] Hlt]. split; [lia|]. split; [|exact Hlt].
  revert Hall. apply forallb_Forall. intros c.
  apply forallb_Forall. intros p.
  rewrite !andb_true_iff, !Z.leb_le, !Z.ltb_lt. tauto.
Qed.

Lemma length_mjoin_elem {A} (c : list A) (cs : list (list A)) :
  c ∈ cs → (length c ≤ length (mjoin cs))%nat.
Proof.
  induction 1 as [c cs|c c' cs _ IH].
  - change (mjoin (c :: cs)) with (c ++ mjoin cs). rewrite length_app. lia.
  - change (mjoin (c' :: cs)) with (c' ++ mjoin cs). rewrite length_app. lia.
Qed.

Lemma contourArea_in_range (rows cols : Z) (cs : list contour) (c : contour) :
  exact_range rows cols cs = true → c ∈ cs →
  contourArea c = polygon_area c ∧
  0 ≤ polygon_area c ≤ Z.of_nat (length c) * (rows * cols).
Proof.
  intros ([Hrows Hcols] & Hall & Hlt)%exact_range_spec Hc.
  apply contourArea_exact; [lia|lia| |].
  - rewrite Forall_forall in Hall. by apply Hall.
  - apply length_mjoin_elem in Hc.
    assert (0 ≤ rows * cols) by (apply Z.mul_nonneg_nonneg; lia). nia.
Qed.

(** Inside the range, the additions of the loop of the soil detector are
    exact. *)
Lemma total_area_exact (rows cols : Z) (f : contour → bool) (cs : list contour) :
  0 ≤ rows * cols →
  (∀ c, c ∈ cs → contourArea c = polygon_area c ∧
                 0 ≤ polygon_area c ≤ Z.of_nat (length c) * (rows * cols)) →
  ∀ acc n : Z,
    0 ≤ acc ≤ n * (rows * cols) →
    (n + Z.of_nat (length (mjoin cs))) * (rows * cols) < 2 ^ 53 →
    foldl (λ s c, float_add s (contourArea c)) acc (List.filter f cs) =
    acc + foldr Z.add 0 (map polygon_area (List.filter f cs)).
Proof.
  intros HM. set (M := rows * cols) in *. set (B := 2 ^ 53).
  induction cs as [|c cs IH]; intros Hcs acc n Hacc Hlt.
  - cbn [List.filter foldl map foldr]. ring.
  - destruct (Hcs c) as [Harea Hpa]; [by left|].
    assert (∀ c', c' ∈ cs → contourArea c' = polygon_area c' ∧
              0 ≤ polygon_area c' ≤ Z.of_nat (length c') * M) as Hcs'
      by (intros c' Hc'; apply Hcs; by right).
    change (mjoin (c :: cs)) with (c ++ mjoin cs) in Hlt.
    rewrite length_app, Nat2Z.inj_add in Hlt.
    cbn [List.filter]. destruct (f c).
    + cbn [foldl map foldr]. rewrite Harea.
      change (float_add acc (polygon_area c)) with (float64 (acc + polygon_area c)).
      rewrite float64_small by (fold B; nia).
      rewrite (IH Hcs' (acc + polygon_area c) (n + Z.of_nat (length c))); [ring|nia|lia].
    + apply (IH Hcs' acc n Hacc). nia.
Qed.

Lemma contourArea_block_value (x y w h : Z) :
  1 ≤ w → 1 ≤ h → 0 ≤ x → 0 ≤ y → x + w ≤ 2 ^ 24 → y + h ≤ 2 ^ 24 →
  contourArea (block_contour x y w h) = half_of_int ((w - 1) * (h - 1)).
Proof.
  intros Hw Hh Hx Hy Hxw Hyh.
  destruct (contourArea_exact (y + h) (x + w) (block_contour x y w h)) as [-> _];
    [lia|lia| | |].
  - unfold block_contour. repeat constructor; cbn [fst snd]; lia.
  - unfold block_contour. cbn [length].
    assert ((y + h) * (x + w) ≤ 2 ^ 24 * 2 ^ 24)
      by (apply Z.mul_le_mono_nonneg; lia).
    change (2 ^ 24 * 2 ^ 24) with (2 ^ 48) in *.
    assert (4 * 2 ^ 48 < 2 ^ 53) by reflexivity. lia.
  - unfold polygon_area, block_contour, edges, half_of_int.
    cbn [app zip_with map foldr fst snd].
    match goal with |- Z.abs ?e = _ =>
      replace e with (- (2 * ((w - 1) * (h - 1)))) by ring end.
    rewrite Z.abs_opp. apply Z.abs_eq. nia.
Qed.

Lemma perimeter_block (x y w h : Z) :
  1 ≤ w → 1 ≤ h → perimeter (block_contour x y w h) = 2 * (w - 1) + 2 * (h - 1).
Proof.
  intros Hw Hh. unfold perimeter, block_contour, edges.
  cbn [app zip_with map foldr fst snd]. lia.
Qed.

Local Arguments crosses : simpl never.
Local Arguments on_edge : simpl never.

Lemma encloses_block (x y w h i j : Z) :
  0 ≤ i < w → 0 ≤ j < h →
  encloses (block_contour x y w h) (x + i, y + j) = true.
Proof.
  intros Hi Hj. unfold encloses. apply orb_true_iff.
  destruct (decide (i = 0 ∨ i = w - 1 ∨ j = 0 ∨ j = h - 1)) as [Hb|Hint].
  - left. apply existsb_exists.
    assert (∀ a b : point, In (a, b) (edges (block_contour x y w h)) →
            is_left a b (x + i, y + j) = 0 →
            Z.min (fst a) (fst b) ≤ x + i ≤ Z.max (fst a) (fst b) →
            Z.min (snd a) (snd b) ≤ y + j ≤ Z.max (snd a) (snd b) →
            ∃ e, In e (edges (block_contour x y w h)) ∧ on_edge (x + i, y + j) e = true)
      as Hedge.
    { intros a b Hin Hl Hx Hy. exists (a, b). split; [done|].
      unfold on_edge. rewrite Hl. simpl.
      rewrite !andb_true_iff, !Z.leb_le. lia. }
    destruct Hb as [->|[->|[->| ->]]].
    + apply (Hedge (x, y) (x, y + h - 1)); [simpl; tauto|unfold is_left; simpl; ring|simpl; lia..].
    + apply (Hedge (x + w - 1, y + h - 1) (x + w - 1, y));
        [simpl; tauto|unfold is_left; simpl; ring|simpl; lia..].
    + apply (Hedge (x + w - 1, y) (x, y)); [simpl; tauto|unfold is_left; simpl; ring|simpl; lia..].
    + apply (Hedge (x, y + h - 1) (x + w - 1, y + h - 1));
        [simpl; tauto|unfold is_left; simpl; ring|simpl; lia..].
  - right.
    assert (crosses (x + i, y + j) ((x, y), (x, y + h - 1)) = false) as C1.
    { unfold crosses, is_left. simpl.
      destruct (Z.leb_spec y (y + j)); [|lia].
      apply andb_false_iff. right. apply Z.ltb_ge. nia. }
    assert (crosses (x + i, y + j) ((x, y + h - 1), (x + w - 1, y + h - 1)) = false) as C2.
    { unfold crosses. simpl.
      destruct (Z.leb_spec (y + h - 1) (y + j)); [lia|done]. }
    assert (crosses (x + i, y + j) ((x + w - 1, y + h - 1), (x + w - 1, y)) = true) as C3.
    { unfold crosses, is_left. simpl.
      destruct (Z.leb_spec (y + h - 1) (y + j)); [lia|].
      apply andb_true_iff. split; [apply Z.leb_le; lia|apply Z.ltb_lt; nia]. }
    assert (crosses (x + i, y + j) ((x + w - 1, y), (x, y)) = false) as C4.
    { unfold crosses. simpl.
      destruct (Z.leb_spec y (y + j)); [|lia].
      apply andb_false_iff. left. apply Z.ltb_ge. lia. }
    unfold edges, block_contour. simpl. by rewrite C1, C2, C3, C4.
Qed.

Lemma length_filter_all {A} (f : A → bool) (l : list A) :
  (∀ a, In a l → f a = true) → length (List.filter f l) = length l.
Proof.
  induction l as [|a l IH]; intros Hall; simpl; [done|].
  rewrite (Hall a) by (by left). simpl. f_equal. apply IH.
  intros a' Hin. apply Hall. by right.
Qed.

Lemma length_grid {A} (g : nat → nat → A) (cols rows : list nat) :
  length (flat_map (λ j, map (λ i, g i j) cols) rows) = (length rows * length cols)%nat.
Proof.
  induction rows as [|j rows IH]; simpl; [done|].
  by rewrite length_app, length_map, IH.
Qed.

Lemma enclosed_pixels_block (x y w h : Z) :
  1 ≤ w → 1 ≤ h → enclosed_pixels (block_contour x y w h) = w * h.
Proof.
  intros Hw Hh. unfold enclosed_pixels. rewrite boundingRect_block by done.
  rewrite length_filter_all.
  - rewrite (length_grid (λ i j, (x + Z.of_nat i, y + Z.of_nat j))), !length_seq. lia.
  - intros p (j & Hj%in_seq & (i & <- & Hi%in_seq)%in_map_iff)%in_flat_map.
    apply encloses_block; lia.
Qed.

(** Beyond 2^24 the conversion to [float] rounds the vertices: the
    corner 16777217 of a block of 16777218 by 4 pixels becomes 16777216,
    and a coordinate halfway between two floats goes to the even one. *)
Lemma contourArea_rounds_vertices :
  contourArea (block_contour 0 0 16777218 4) = half_of_int 50331648 ∧
  float32 16777217 = 16777216 ∧ float32 16777219 = 16777220 ∧
  float32 33554438 = 33554440 ∧ float32 (-16777217) = -16777216.
Proof. vm_compute. repeat split; reflexivity. Qed.

Lemma contourArea_nonneg (c : contour) : 0 ≤ contourArea c.
Proof.
  unfold contourArea. destruct (map Point2f c); [reflexivity|]. apply Z.abs_nonneg.
Qed.

Lemma total_area_nonneg (cs : list contour) : 0 ≤ total_area cs.
Proof.
  unfold total_area.
  assert (∀ acc, 0 ≤ acc → 0 ≤ foldl (λ s c, float_add s (contourArea c)) acc cs) as H.
  { induction cs as [|c cs IH]; intros acc Hacc; cbn [foldl]; [exact Hacc|].
    apply IH, float_add_nonneg; [exact Hacc|apply contourArea_nonneg]. }
  apply H. reflexivity.
Qed.

(** C3, as amended: the area used by the filters and summed into the
    total is the value of [cv2.contourArea], never negative and, for a
    contour inside an image in the range in which its floating-point
    arithmetic is exact, the area of the polygon through the vertices of
    the contour by the shoelace formula, in halves of a pixel.  For the
    contour of a solid block of [w] by [h] pixels with coordinates below
    2^24 it is (w - 1) * (h - 1): less than the [w * h] pixels the
    contour encloses, not the 2 * (w - 1) + 2 * (h - 1) steps of its
    boundary, and the block passes a filter exactly when
    (w - 1) * (h - 1) exceeds the threshold. *)
Theorem contourArea_of_block (x y w h min_area rows cols : Z) (c : contour) :
  1 ≤ w → 1 ≤ h → 0 ≤ x → 0 ≤ y → x + w ≤ 2 ^ 24 → y + h ≤ 2 ^ 24 →
  exact_range rows cols [c] = true →
  (∀ c0, 0 ≤ contourArea c0) ∧
  contourArea c = polygon_area c ∧
  contourArea (block_contour x y w h) = half_of_int ((w - 1) * (h - 1)) ∧
  enclosed_pixels (block_contour x y w h) = w * h ∧
  contourArea (block_contour x y w h) <
    half_of_int (enclosed_pixels (block_contour x y w h)) ∧
  perimeter (block_contour x y w h) = 2 * (w - 1) + 2 * (h - 1) ∧
  ((w - 1) * (h - 1) ≠ 2 * (w - 1) + 2 * (h - 1) →
   contourArea (block_contour x y w h) ≠ half_of_int (perimeter (block_contour x y w h))) ∧
  (keep_regions min_area [block_contour x y w h] = [block_contour x y w h] ↔
   min_area < (w - 1) * (h - 1)).
Proof.
  intros Hw Hh Hx Hy Hxw Hyh Hc. split; [apply contourArea_nonneg|].
  split; [apply (contourArea_in_range rows cols [c] c Hc), list_elem_of_here|].
  rewrite contourArea_block_value, enclosed_pixels_block, perimeter_block by assumption.
  split; [reflexivity|]. split; [reflexivity|]. split; [unfold half_of_int; nia|].
  split; [reflexivity|]. split; [unfold half_of_int; lia|].
  unfold keep_regions. rewrite filter_cons, contourArea_block_value by assumption.
  unfold half_of_int. case_decide.
  - split; [lia|reflexivity].
  - split; [intros Heq; discriminate Heq|lia].
Qed.

(** C3 fails as stated: the contour of a solid block of 23 by 23 pixels
    encloses 529 pixels, its area is 484 and the soil filter drops it; the
    area of a triangle of three pixels is one half. *)
Lemma contourArea_is_not_pixel_count :
  enclosed_pixels (block_contour 0 0 23 23) = 529 ∧
  contourArea (block_contour 0 0 23 23) = half_of_int 484 ∧
  keep_regions 500 [block_contour 0 0 23 23] = [] ∧
  enclosed_pixels [(0, 0); (1, 0); (0, 1)] = 3 ∧
  contourArea [(0, 0); (1, 0); (0, 1)] = 1.
Proof. vm_compute. done. Qed.

(** ** The soil-exposure pipeline *)

(** *** The morphological passes *)

Lemma neighbourhood_spec (dy dx : Z) :
  In (dy, dx) neighbourhood ↔ -2 ≤ dy ≤ 2 ∧ -2 ≤ dx ≤ 2.
Proof.
  let l := eval vm_compute in neighbourhood in change neighbourhood with l.
  split.
  - intros H. cbn [In] in H.
    repeat (destruct H as [H|H]; [injection H as <- <-; lia|]). destruct H.
  - intros [Hy Hx].
    assert (dy = -2 ∨ dy = -1 ∨ dy = 0 ∨ dy = 1 ∨ dy = 2) as Hdy by lia.
    assert (dx = -2 ∨ dx = -1 ∨ dx = 0 ∨ dx = 1 ∨ dx = 2) as Hdx by lia.
    destruct Hdy as [->|[->|[->|[->| ->]]]];
      destruct Hdx as [->|[->|[->|[->| ->]]]];
      cbn [In]; repeat first [left; reflexivity | right].
Qed.

Lemma foreground_mask_px (outside : bool) (m : mask) (y x : Z) :
  foreground outside m y x =
  match mask_px m y x with
  | Some v => negb (v =? 0)
  | None => outside
  end.
Proof.
  unfold foreground, mask_px.
  destruct (Z.ltb_spec y 0), (Z.ltb_spec x 0), (Z.leb_spec 0 y), (Z.leb_spec 0 x);
    try lia; cbn [orb andb]; try reflexivity.
  destruct (m !! Z.to_nat y) as [row|]; cbn [mbind option_bind]; [|reflexivity].
  destruct (row !! Z.to_nat x); reflexivity.
Qed.

Lemma Binary_erosion (outside : bool) (m : mask) : Binary (erosion outside m).
Proof.
  unfold erosion.
  apply Forall_lookup. intros y row' [row [_ ->]]%list_lookup_imap_Some.
  apply Forall_lookup. intros x v [v0 [_ ->]]%list_lookup_imap_Some.
  destruct (forallb _ neighbourhood); auto.
Qed.

Lemma Binary_dilation (outside : bool) (m : mask) : Binary (dilation outside m).
Proof.
  unfold dilation.
  apply Forall_lookup. intros y row' [row [_ ->]]%list_lookup_imap_Some.
  apply Forall_lookup. intros x v [v0 [_ ->]]%list_lookup_imap_Some.
  destruct (existsb _ neighbourhood); auto.
Qed.

Lemma Binary_rangeMask (hsv : hsv_image) (hmin hmax smin smax vmin vmax : Z) :
  Binary (rangeMask hsv hmin hmax smin smax vmin vmax).
Proof.
  unfold rangeMask. apply Forall_map, Forall_forall. intros row _.
  apply Forall_map, Forall_forall. intros [[h s] v] _.
  case_bool_decide; auto.
Qed.

(** On a binary mask the erosion of the program keeps a pixel exactly
    when every position of its neighbourhood inside the image is
    foreground, and its dilation sets a pixel exactly when some position
    of its neighbourhood inside the image is foreground. *)
Lemma erode_erosion (m : mask) : Binary m → erode m (np_ones 5 5) = erosion true m.
Proof.
  intros Hm. unfold erode, erode_border, erosion.
  apply imap_ext. intros y row _. apply imap_ext. intros x v _. cbn beta.
  destruct (foldr_min_binary (window m 255 (np_ones 5 5) y x)) as [H01 _];
    [apply window_binary; auto|].
  destruct (erode_window_255 m y x Hm) as [Hw1 Hw2].
  destruct (forallb _ neighbourhood) eqn:Hall.
  - apply Hw2. intros dy dx Hy Hx v' Hv'.
    rewrite forallb_forall in Hall.
    specialize (Hall (dy, dx) (proj2 (neighbourhood_spec dy dx) (conj Hy Hx))).
    cbn [fst snd] in Hall. rewrite foreground_mask_px, Hv' in Hall.
    destruct (mask_px_binary m _ _ v' Hm Hv') as [->| ->];
      [discriminate Hall|reflexivity].
  - destruct H01 as [H0|H255]; [exact H0|]. exfalso.
    specialize (Hw1 H255). apply not_true_iff_false in Hall. apply Hall.
    apply forallb_forall. intros [dy dx] [Hy Hx]%neighbourhood_spec.
    cbn [fst snd]. rewrite foreground_mask_px.
    destruct (mask_px m (Z.of_nat y + dy) (Z.of_nat x + dx)) as [v'|] eqn:Hv';
      [|reflexivity].
    rewrite (Hw1 dy dx Hy Hx v' Hv'). reflexivity.
Qed.

Lemma dilate_dilation (m : mask) : Binary m → dilate m (np_ones 5 5) = dilation false m.
Proof.
  intros Hm. unfold dilate, dilate_border, dilation.
  apply imap_ext. intros y row _. apply imap_ext. intros x v _. cbn beta.
  destruct (foldr_max_binary (window m 0 (np_ones 5 5) y x)) as [H01 _];
    [apply window_binary; auto|].
  destruct (dilate_window_255 m y x Hm) as [Hw1 Hw2].
  destruct (existsb _ neighbourhood) eqn:Hex.
  - apply Hw2. apply existsb_exists in Hex as ([dy dx] & [Hy Hx]%neighbourhood_spec & Hfg).
    cbn [fst snd] in Hfg. rewrite foreground_mask_px in Hfg.
    exists dy, dx. split; [exact Hy|]. split; [exact Hx|].
    destruct (mask_px m (Z.of_nat y + dy) (Z.of_nat x + dx)) as [v'|] eqn:Hv';
      [|discriminate Hfg].
    destruct (mask_px_binary m _ _ v' Hm Hv') as [->| ->];
      [discriminate Hfg|reflexivity].
  - destruct H01 as [H0|H255]; [exact H0|]. exfalso.
    destruct (Hw1 H255) as (dy & dx & Hy & Hx & Hv').
    apply not_true_iff_false in Hex. apply Hex.
    apply existsb_exists. exists (dy, dx).
    split; [apply neighbourhood_spec; split; assumption|].
    cbn [fst snd]. rewrite foreground_mask_px, Hv'. reflexivity.
Qed.

(** *** The annotation *)

Local Abbreviation ThreeChannels a :=
  (Forall (Forall (λ px : pixel, length px = 3%nat)) a).

Lemma three_channels_shape (a b : ndarray) :
  shape a = shape b → ThreeChannels b → ThreeChannels a.
Proof.
  intros Hshape Hb.
  assert (∀ c : ndarray,
    ThreeChannels c ↔ Forall (Forall (λ n : nat, n = 3%nat)) (shape c)) as Hiff.
  { intros c. unfold shape. rewrite Forall_map. split; intros H.
    - eapply Forall_impl; [exact H|]. intros row Hrow. apply Forall_map. exact Hrow.
    - eapply Forall_impl; [exact H|]. intros row Hrow. apply Forall_map in Hrow.
      exact Hrow. }
  apply Hiff. rewrite Hshape. apply Hiff. exact Hb.
Qed.

Lemma pixel_at_three (a : ndarray) (y x : nat) (px : pixel) :
  ThreeChannels a → pixel_at a y x = Some px → length px = 3%nat.
Proof.
  intros Ha. unfold pixel_at.
  destruct (a !! y) as [row|] eqn:Hrow; cbn [mbind option_bind];
    [|intros H; discriminate H].
  intros Hpx. rewrite Forall_lookup in Ha. specialize (Ha _ _ Hrow).
  rewrite Forall_lookup in Ha. exact (Ha _ _ Hpx).
Qed.

Lemma valid_image_three (img : ndarray) : valid_image img = true → ThreeChannels img.
Proof.
  intros Hrows%valid_image_rows.
  eapply Forall_impl; [exact Hrows|]. intros row [_ Hpxs].
  eapply Forall_impl; [exact Hpxs|]. intros px [Hlen _]. exact Hlen.
Qed.

Lemma pixel_at_set_pixel_eq (color : list Z) (a : ndarray) (y x : nat) :
  pixel_at (set_pixel color a (Z.of_nat x, Z.of_nat y)) y x =
  write_pixel color <$> pixel_at a y x.
Proof.
  unfold set_pixel.
  replace ((0 <=? Z.of_nat x) && (0 <=? Z.of_nat y)) with true
    by (symmetry; apply andb_true_iff; split; apply Z.leb_le; lia).
  rewrite !Nat2Z.id. unfold pixel_at. rewrite list_lookup_alter_eq.
  destruct (a !! y) as [row|]; cbn [fmap option_fmap option_map mbind option_bind];
    [|reflexivity].
  apply list_lookup_alter_eq.
Qed.

Lemma write_pixel_Scalar (b g r : Z) (px : pixel) :
  length px = 3%nat → write_pixel (Scalar b g r) px = [b; g; r].
Proof.
  destruct px as [|c0 [|c1 [|c2 [|c3 px]]]]; intros H; try discriminate H. reflexivity.
Qed.

(** A drawing call sets the pixels it covers inside a 3-channel image to
    the three components of its colour and leaves the others. *)
Lemma pixel_at_draw_points_colour (pts : list point) (b g r : Z) (a : ndarray)
    (y x : nat) :
  ThreeChannels a →
  pixel_at (draw_points pts (Scalar b g r) a) y x =
  (λ px, if bool_decide ((Z.of_nat x, Z.of_nat y) ∈ pts) then [b; g; r] else px) <$>
    pixel_at a y x.
Proof.
  unfold draw_points. revert a. induction pts as [|p pts IH]; intros a Ha; cbn [foldl].
  - rewrite bool_decide_eq_false_2 by apply not_elem_of_nil.
    destruct (pixel_at a y x); reflexivity.
  - rewrite IH by (eapply three_channels_shape; [apply shape_set_pixel|exact Ha]).
    destruct (decide (p = (Z.of_nat x, Z.of_nat y))) as [->|Hne].
    + rewrite pixel_at_set_pixel_eq.
      rewrite (bool_decide_eq_true_2 ((Z.of_nat x, Z.of_nat y) ∈
                 (Z.of_nat x, Z.of_nat y) :: pts)) by apply list_elem_of_here.
      destruct (pixel_at a y x) as [px|] eqn:Hpx;
        cbn [fmap option_fmap option_map]; [|reflexivity].
      f_equal. case_bool_decide; [reflexivity|].
      apply write_pixel_Scalar. eapply pixel_at_three; [exact Ha|exact Hpx].
    + rewrite pixel_at_set_pixel by exact Hne.
      destruct (pixel_at a y x) as [px|]; cbn [fmap option_fmap option_map];
        [|reflexivity].
      f_equal. repeat case_bool_decide; try reflexivity; exfalso.
      * match goal with H : _ ∉ _ :: _ |- _ => apply H end.
        apply list_elem_of_further. assumption.
      * match goal with H : _ ∈ _ :: _ |- _ =>
          apply elem_of_cons in H as [Heq|Hin] end; [congruence|contradiction].
Qed.

Lemma pixel_at_paint (marks : list point) (b g r : Z) (img : ndarray) (y x : nat) :
  pixel_at (paint marks b g r img) y x =
  (λ px, if bool_decide ((Z.of_nat x, Z.of_nat y) ∈ marks) then [b; g; r] else px) <$>
    pixel_at img y x.
Proof.
  unfold paint, pixel_at. rewrite list_lookup_imap.
  destruct (img !! y) as [row|]; cbn [fmap option_fmap option_map mbind option_bind];
    [|reflexivity].
  apply list_lookup_imap.
Qed.

Lemma ndarray_ext (a b : ndarray) :
  map length a = map length b → (∀ y x, pixel_at a y x = pixel_at b y x) → a = b.
Proof.
  intros Hlen Hpx. apply list_eq. intros y.
  assert (length <$> a !! y = length <$> b !! y) as Hy.
  { rewrite <- !list_lookup_fmap, <- !map_is_fmap. rewrite Hlen. reflexivity. }
  specialize (Hpx y). unfold pixel_at in Hpx.
  destruct (a !! y) as [ra|], (b !! y) as [rb|];
    cbn [fmap option_fmap option_map mbind option_bind] in Hy, Hpx;
    try discriminate Hy; [|reflexivity].
  f_equal. apply list_eq. exact Hpx.
Qed.

Lemma shape_map_length (a b : ndarray) : shape a = shape b → map length a = map length b.
Proof.
  intros H. apply (f_equal (map length)) in H. unfold shape in H.
  rewrite !map_map in H.
  rewrite (map_ext (λ row : list pixel, length (map length row)) length) in H
    by (intros row; apply length_map).
  rewrite (map_ext (λ row : list pixel, length (map length row)) length) in H
    by (intros row; apply length_map).
  exact H.
Qed.

Lemma foldr_min_init (l : list Z) (a v : Z) :
  foldr Z.min (Z.min a v) l = Z.min v (foldr Z.min a l).
Proof. induction l as [|w l IH]; cbn [foldr]; [lia|]. rewrite IH. lia. Qed.

Lemma foldr_max_init (l : list Z) (a v : Z) :
  foldr Z.max (Z.max a v) l = Z.max v (foldr Z.max a l).
Proof. induction l as [|w l IH]; cbn [foldr]; [lia|]. rewrite IH. lia. Qed.

Lemma foldl_min_foldr (l : list Z) : ∀ a, foldl Z.min a l = foldr Z.min a l.
Proof.
  induction l as [|v l IH]; intros a; cbn [foldl foldr]; [reflexivity|].
  rewrite IH. apply foldr_min_init.
Qed.

Lemma foldl_max_foldr (l : list Z) : ∀ a, foldl Z.max a l = foldr Z.max a l.
Proof.
  induction l as [|v l IH]; intros a; cbn [foldl foldr]; [reflexivity|].
  rewrite IH. apply foldr_max_init.
Qed.

Lemma boundingBox_boundingRect (c : contour) : boundingBox c = boundingRect c.
Proof.
  destruct c as [|[x0 y0] rest]; [reflexivity|].
  unfold boundingBox, boundingRect, least, greatest. cbn [map fst snd].
  by rewrite !foldl_min_foldr, !foldl_max_foldr.
Qed.

Lemma drawRegions_flat (rr : point → point → Z → list point)
    (pr : string → point → HersheyFonts → Z * Z → Z → list point)
    (cs : list contour) (color : list Z) (label : string) :
  ∀ a, drawRegions rr pr a cs color label =
       draw_points (flat_map (annotation_points rr pr label) cs) color a.
Proof.
  unfold drawRegions. induction cs as [|c cs IH]; intros a; cbn [foldl flat_map].
  - reflexivity.
  - rewrite draw_points_app. apply IH.
Qed.

(** The loop of a detector paints the rectangles and the labels of the
    regions it keeps on the copy of a 3-channel image. *)
Lemma drawRegions_paint (rr : point → point → Z → list point)
    (pr : string → point → HersheyFonts → Z * Z → Z → list point)
    (img : ndarray) (cs : list contour) (b g r : Z) (label : string) :
  ThreeChannels img →
  drawRegions rr pr img cs (Scalar b g r) label =
  paint (flat_map (region_marks rr pr label) cs) b g r img.
Proof.
  intros Himg. rewrite drawRegions_flat.
  replace (flat_map (annotation_points rr pr label) cs)
    with (flat_map (region_marks rr pr label) cs).
  2:{ apply flat_map_ext. intros c. unfold annotation_points, region_marks.
      by rewrite boundingBox_boundingRect. }
  apply ndarray_ext.
  - rewrite (shape_map_length _ img) by apply shape_draw_points.
    symmetry. unfold paint.
    apply (map_length_imap2 (λ y x px,
      if bool_decide ((Z.of_nat x, Z.of_nat y) ∈
                        flat_map (region_marks rr pr label) cs)
      then [b; g; r] else px)).
  - intros y x. rewrite pixel_at_draw_points_colour by exact Himg.
    symmetry. apply pixel_at_paint.
Qed.

(** *** The regions kept and their total *)

Lemma filter_List_filter {A} (P : A → Prop) `{!∀ x, Decision (P x)} (f : A → bool)
    (l : list A) :
  (∀ x, x ∈ l → (P x ↔ f x = true)) → filter P l = List.filter f l.
Proof.
  induction l as [|a l IH]; intros Hl; [reflexivity|].
  rewrite filter_cons. cbn [List.filter].
  rewrite IH by (intros x Hx; apply Hl; by right).
  destruct (Hl a (list_elem_of_here a l)) as [H1 H2].
  destruct (decide (P a)) as [Hp|Hp], (f a) eqn:Hf; try reflexivity.
  - specialize (H1 Hp). discriminate H1.
  - exfalso. apply Hp, H2. reflexivity.
Qed.

Section SoilPipeline.

Variable bgr2hsv : pixel → hsv_pixel.
Variable findContours : mask → RetrievalModes → ContourApproximationModes → list contour.
Variable rectangle_raster : point → point → Z → list point.
Variable putText_raster : string → point → HersheyFonts → Z * Z → Z → list point.

Lemma soil_mask_amended (img : ndarray) :
  close5 (open5 (rangeMask (map (map bgr2hsv) img) 10 30 40 255 40 255)) =
  exposed_soil bgr2hsv true img.
Proof.
  unfold close5, open5, exposed_soil.
  rewrite (erode_erosion (rangeMask _ _ _ _ _ _ _)) by apply Binary_rangeMask.
  rewrite (dilate_dilation (erosion true _)) by apply Binary_erosion.
  rewrite (dilate_dilation (dilation false _)) by apply Binary_dilation.
  rewrite (erode_erosion (dilation false _)) by apply Binary_dilation.
  reflexivity.
Qed.

Lemma soil_result_amended (img : ndarray) :
  valid_image img = true →
  exact_range (Z.of_nat (length img)) (Z.of_nat (length (default [] (head img))))
    (soil_contours bgr2hsv findContours true img) = true →
  soil_result bgr2hsv findContours rectangle_raster putText_raster img =
  detectSoilExposure_amended bgr2hsv findContours rectangle_raster putText_raster img.
Proof.
  intros Hvalid Hrange.
  set (rows := Z.of_nat (length img)) in *.
  set (cols := Z.of_nat (length (default [] (head img)))) in *.
  set (cs := soil_contours bgr2hsv findContours true img) in *.
  pose proof (λ c, contourArea_in_range rows cols cs c Hrange) as Hcs.
  assert (soil_regions bgr2hsv findContours img =
          List.filter (λ c, half_of_int 500 <? polygon_area c) cs) as Hkept.
  { unfold soil_regions, keep_regions, findRegions. rewrite soil_mask_amended.
    fold (soil_contours bgr2hsv findContours true img). fold cs.
    apply filter_List_filter. intros c Hc.
    destruct (Hcs c Hc) as [-> _]. symmetry. apply Z.ltb_lt. }
  unfold soil_result, detectSoilExposure_amended, soil_pipeline.
  fold cs. rewrite Hkept. f_equal.
  - apply drawRegions_paint, valid_image_three, Hvalid.
  - unfold total_area.
    rewrite (total_area_exact rows cols _ cs) with (n := 0); [reflexivity| |exact Hcs|lia|].
    + apply Z.mul_nonneg_nonneg; unfold rows, cols; lia.
    + apply exact_range_spec in Hrange as (_ & _ & Hlt). lia.
Qed.

(** C1, as amended: on a valid 3-channel image whose contours are in the
    range in which the floating-point arithmetic of the areas is exact, the
    soil detector converts to HSV, builds the range mask with the
    inclusive bound Hue 10..30, Saturation 40..255, Value 40..255, opens
    then closes it with the 5x5 all-foreground element, the erosions
    ignoring what lies outside the image, extracts the external regions,
    keeps those whose polygon area through the vertices of the contour is
    strictly greater than 500, sets on a copy of the input the pixels of
    the rectangle from the corner (x, y) of the box of each of them to
    (x + w, y + h) and of the label Desmatamento ten rows above that
    corner to yellow (0, 255, 255), and returns the copy together with
    the sum of the polygon areas of the regions kept. *)
Theorem detectar_desmatamento_pipeline (h : heap) (l : loc) (img : ndarray) :
  h !! l = Some img → valid_image img = true →
  exact_range (Z.of_nat (length img)) (Z.of_nat (length (default [] (head img))))
    (soil_contours bgr2hsv findContours true img) = true →
  ∃ l' : loc, (l' ∉ dom h) ∧
    detectar_desmatamento bgr2hsv findContours rectangle_raster putText_raster
      (PyArr l) h =
    (Ok (PyArr l',
         snd (detectSoilExposure_amended bgr2hsv findContours rectangle_raster
                putText_raster img)),
     <[l' := fst (detectSoilExposure_amended bgr2hsv findContours rectangle_raster
                    putText_raster img)]> h).
Proof.
  intros Hl Hvalid Hrange. exists (fresh (dom h)). split; [apply is_fresh|].
  rewrite (soil_run_valid bgr2hsv findContours rectangle_raster putText_raster
             h l img Hl Hvalid).
  rewrite (soil_result_amended img Hvalid Hrange). reflexivity.
Qed.

End SoilPipeline.

(** C1 fails as stated.  A solid ochre block of 23 by 23 pixels on a grey
    image has one region of 529 pixels, which the pipeline of the
    specification keeps, marks and reports; the area the program uses is
    484, and it returns the copy unmarked with the total 0.  On an image
    of 30 by 30 ochre pixels the erosions of the specification, with a
    background border, leave a block of 26 by 26 pixels and the total
    676; the program keeps the whole image and returns 841. *)
Lemma detectar_desmatamento_differs_from_specification :
  valid_image block_image = true ∧
  observe (detectar_desmatamento sample_bgr2hsv block_findContours
             sample_rectangle_raster sample_putText_raster (PyArr 0)
             {[0%nat := block_image]}) =
    Ok (Some block_image, 0) ∧
  detectSoilExposure sample_bgr2hsv block_findContours sample_rectangle_raster
    sample_putText_raster block_image =
    (paint [(4, 4); (27, 27); (4, -6)] 0 255 255 block_image, half_of_int 529) ∧
  paint [(4, 4); (27, 27); (4, -6)] 0 255 255 block_image ≠ block_image ∧
  valid_image (ochre_image 30) = true ∧
  (∃ out, observe (detectar_desmatamento sample_bgr2hsv block_findContours
                     sample_rectangle_raster sample_putText_raster (PyArr 0)
                     {[0%nat := ochre_image 30]}) =
          Ok (Some out, half_of_int 841)) ∧
  snd (detectSoilExposure sample_bgr2hsv block_findContours sample_rectangle_raster
         sample_putText_raster (ochre_image 30)) = half_of_int 676.
Proof.
  split; [vm_compute; reflexivity|]. split; [vm_compute; reflexivity|].
  split; [vm_compute; reflexivity|]. split; [vm_compute; intros H; discriminate H|].
  split; [vm_compute; reflexivity|]. split; [|vm_compute; reflexivity].
  eexists. vm_compute. reflexivity.
Qed.


(** ** The theorems at concrete inputs *)

Lemma detectar_desmatamento_pipeline_witness :
  sample_heap !! 0%nat = Some (ochre_image 30) ∧
  valid_image (ochre_image 30) = true ∧
  exact_range (Z.of_nat (length (ochre_image 30)))
    (Z.of_nat (length (default [] (head (ochre_image 30)))))
    (soil_contours sample_bgr2hsv sample_findContours true (ochre_image 30)) = true ∧
  ∃ l' : loc, (l' ∉ dom sample_heap) ∧
    sample_desmatamento (PyArr 0) sample_heap =
    (Ok (PyArr l',
         snd (detectSoilExposure_amended sample_bgr2hsv sample_findContours
                sample_rectangle_raster sample_putText_raster (ochre_image 30))),
     <[l' := fst (detectSoilExposure_amended sample_bgr2hsv sample_findContours
                    sample_rectangle_raster sample_putText_raster (ochre_image 30))]>
       sample_heap).
Proof.
  split; [vm_compute; reflexivity|]. split; [vm_compute; reflexivity|].
  split; [vm_compute; reflexivity|].
  apply (detectar_desmatamento_pipeline sample_bgr2hsv sample_findContours
           sample_rectangle_raster sample_putText_raster sample_heap 0%nat
           (ochre_image 30)); vm_compute; reflexivity.
Defined.

Lemma fire_mask_condition_witness :
  byte_hsv sample_hsv = true ∧ 0 ≤ 0 ≤ 255 ∧ 0 ≤ 255 ≤ 255 ∧
  mascara_combinada sample_hsv = Ok (fire_mask sample_hsv) ∧
  mask_hue sample_hsv = Ok (hue_mask sample_hsv) ∧
  mask_hue [[(2, 0, 255)]] = Ok [[255]] ∧
  mask_hue [[(178, 0, 255)]] = Ok [[255]] ∧
  mask_hue [[(90, 0, 255)]] = Ok [[0]].
Proof.
  split; [reflexivity|]. split; [lia|]. split; [lia|].
  apply (fire_mask_condition sample_hsv 0 255); [reflexivity|lia|lia].
Defined.

Lemma contourArea_of_block_witness :
  1 ≤ 30 ∧ 1 ≤ 30 ∧ 0 ≤ 5 ∧ 0 ≤ 7 ∧ 5 + 30 ≤ 2 ^ 24 ∧ 7 + 30 ≤ 2 ^ 24 ∧
  exact_range 40 40 [[(3, 3); (3, 20); (30, 9)]] = true ∧
  (∀ c0, 0 ≤ contourArea c0) ∧
  contourArea [(3, 3); (3, 20); (30, 9)] = polygon_area [(3, 3); (3, 20); (30, 9)] ∧
  contourArea (block_contour 5 7 30 30) = half_of_int ((30 - 1) * (30 - 1)) ∧
  enclosed_pixels (block_contour 5 7 30 30) = 30 * 30 ∧
  contourArea (block_contour 5 7 30 30) <
    half_of_int (enclosed_pixels (block_contour 5 7 30 30)) ∧
  perimeter (block_contour 5 7 30 30) = 2 * (30 - 1) + 2 * (30 - 1) ∧
  ((30 - 1) * (30 - 1) ≠ 2 * (30 - 1) + 2 * (30 - 1) →
   contourArea (block_contour 5 7 30 30) ≠
     half_of_int (perimeter (block_contour 5 7 30 30))) ∧
  (keep_regions 500 [block_contour 5 7 30 30] = [block_contour 5 7 30 30] ↔
   500 < (30 - 1) * (30 - 1)).
Proof.
  split; [lia|]. split; [lia|]. split; [lia|]. split; [lia|].
  split; [vm_compute; discriminate|]. split; [vm_compute; discriminate|].
  split; [vm_compute; reflexivity|].
  apply (contourArea_of_block 5 7 30 30 500 40 40 [(3, 3); (3, 20); (30, 9)]);
    first [lia | vm_compute; discriminate | vm_compute; reflexivity].
Defined.


Lemma morphology_border_handling_witness :
  let m := replicate 3 (replicate 3 255) in
  binary_mask m = true ∧ mask_px m (Z.of_nat 0) (Z.of_nat 0) = Some 255 ∧
  (mask_px (morphologyEx m MORPH_DILATE (np_ones 5 5)) (Z.of_nat 0) (Z.of_nat 0) = Some 255 ↔
     ∃ dy dx, -2 ≤ dy ≤ 2 ∧ -2 ≤ dx ≤ 2 ∧
       mask_px m (Z.of_nat 0 + dy) (Z.of_nat 0 + dx) = Some 255) ∧
  (mask_px (morphologyEx m MORPH_ERODE (np_ones 5 5)) (Z.of_nat 0) (Z.of_nat 0) = Some 255 ↔
     ∀ dy dx, -2 ≤ dy ≤ 2 → -2 ≤ dx ≤ 2 →
       ∀ v, mask_px m (Z.of_nat 0 + dy) (Z.of_nat 0 + dx) = Some v → v = 255) ∧
  morphologyEx m MORPH_OPEN (np_ones 5 5) =
    morphologyEx (morphologyEx m MORPH_ERODE (np_ones 5 5)) MORPH_DILATE (np_ones 5 5) ∧
  morphologyEx m MORPH_CLOSE (np_ones 5 5) =
    morphologyEx (morphologyEx m MORPH_DILATE (np_ones 5 5)) MORPH_ERODE (np_ones 5 5) ∧
  binary_mask (morphologyEx m MORPH_ERODE (np_ones 5 5)) = true ∧
  binary_mask (morphologyEx m MORPH_DILATE (np_ones 5 5)) = true.
Proof.
  intros m. split; [reflexivity|]. split; [reflexivity|].
  apply (morphology_border_handling m 0 0 255); reflexivity.
Defined.

Lemma detectors_keep_dimensions_witness :
  sample_heap !! 0%nat = Some (ochre_image 30) ∧
  valid_image (ochre_image 30) = true ∧
  (∃ l' s h' out, sample_desmatamento (PyArr 0) sample_heap = (Ok (PyArr l', s), h') ∧
     h' !! l' = Some out ∧ shape out = shape (ochre_image 30)) ∧
  (∃ l' n h' out, sample_focos_incendio (PyArr 0) sample_heap = (Ok (PyArr l', n), h') ∧
     h' !! l' = Some out ∧ shape out = shape (ochre_image 30)).
Proof.
  split; [vm_compute; reflexivity|]. split; [vm_compute; reflexivity|].
  apply (detectors_keep_dimensions sample_bgr2hsv sample_blur sample_findContours
           sample_rectangle_raster sample_putText_raster sample_heap 0%nat
           (ochre_image 30)); vm_compute; reflexivity.
Defined.

Lemma detectors_do_not_mutate_input_witness :
  sample_heap !! 0%nat = Some (ochre_image 30) ∧
  (snd (sample_desmatamento (PyArr 0) sample_heap) !! 0%nat = Some (ochre_image 30) ∧
   fst (sample_desmatamento (PyArr 0) sample_heap) ≠ Ok (PyArr 0, 0)) ∧
  (snd (sample_focos_incendio (PyArr 0) sample_heap) !! 0%nat = Some (ochre_image 30) ∧
   fst (sample_focos_incendio (PyArr 0) sample_heap) ≠ Ok (PyArr 0, 0)).
Proof.
  split; [vm_compute; reflexivity|].
  apply (detectors_do_not_mutate_input sample_bgr2hsv sample_blur sample_findContours
           sample_rectangle_raster sample_putText_raster (PyArr 0) sample_heap 0%nat
           (ochre_image 30) 0 0).
  vm_compute; reflexivity.
Defined.

Lemma fire_output_is_unblurred_input_witness :
  sample_heap !! 0%nat = Some (ochre_image 30) ∧
  valid_image (ochre_image 30) = true ∧
  ∃ l' n h' out,
    sample_focos_incendio (PyArr 0) sample_heap = (Ok (PyArr l', n), h') ∧
    h' !! l' = Some out ∧
    ∀ y x : nat,
      (∀ c, c ∈ fire_regions sample_bgr2hsv sample_blur sample_findContours (ochre_image 30) →
         (Z.of_nat x, Z.of_nat y) ∉
           annotation_points sample_rectangle_raster sample_putText_raster
             "Foco de Incendio" c) →
      pixel_at out y x = pixel_at (ochre_image 30) y x.
Proof.
  split; [vm_compute; reflexivity|]. split; [vm_compute; reflexivity|].
  apply (fire_output_is_unblurred_input sample_bgr2hsv sample_blur sample_findContours
           sample_rectangle_raster sample_putText_raster sample_heap 0%nat
           (ochre_image 30)); vm_compute; reflexivity.
Defined.

(** * Further properties *)

(** ** The image handed to Qt *)

Lemma converter_run (h : heap) (l : loc) (a : ndarray) :
  h !! l = Some a → Mat_empty a = false → channels a = 3%nat ∨ channels a = 4%nat →
  converter_cv2_para_qpixmap (PyArr l) h = (Ok (QImage_of a), h).
Proof.
  intros Hl Hne Hch. unfold converter_cv2_para_qpixmap, mbind, Py_bind, to_Mat.
  rewrite Hl. unfold lift, cvtColor_BGR2RGB. rewrite Hne.
  rewrite bool_decide_eq_true_2 by done. done.
Qed.

Lemma QImage_of_geometry (img : ndarray) :
  valid_image img = true →
  qi_height (QImage_of img) = length img ∧
  qi_width (QImage_of img) = length (default [] (head img)) ∧
  qi_bytesPerLine (QImage_of img) = (3 * qi_width (QImage_of img))%nat ∧
  Forall (λ row : list (list Z), length row = length (default [] (head img)))
         (map (map bgr2rgb) img) ∧
  Forall (Forall (λ px : list Z, length px = 3%nat)) (map (map bgr2rgb) img).
Proof.
  intros Hvalid. pose proof (valid_image_rows img Hvalid) as Hrows.
  assert (default [] (head (map (map bgr2rgb) img)) =
          map bgr2rgb (default [] (head img))) as Hhd by (by destruct img).
  assert (channels (map (map bgr2rgb) img) = 3%nat) as Hc.
  { destruct (valid_image_channels img Hvalid) as [Hne Hch].
    destruct img as [|[|px row] img]; try done.
    cbn in *. destruct px as [|b [|g [|r [|]]]]; done. }
  unfold QImage_of. cbn [qi_height qi_width qi_bytesPerLine].
  rewrite Hhd, Hc, !length_map.
  split; [done|]. split; [done|]. split; [lia|]. split.
  - apply Forall_map. eapply Forall_impl; [exact Hrows|].
    intros row' [Hlen _]. by rewrite length_map.
  - apply Forall_map. eapply Forall_impl; [exact Hrows|].
    intros row' [_ Hpxs]. apply Forall_map. eapply Forall_impl; [exact Hpxs|].
    intros px' [Hlen _]. cbn.
    destruct px' as [|b [|g [|r [|]]]]; done.
Qed.

Lemma QImage_of_pixel (img : ndarray) (y x : nat) (b g r : Z) :
  valid_image img = true → pixel_at img y x = Some [b; g; r] →
  QImage_pixel (QImage_of img) x y = Some (r, g, b).
Proof.
  intros Hvalid Hpx.
  destruct (QImage_of_geometry img Hvalid) as (Hh & Hw & Hbpl & Hrows & Hpxs).
  unfold QImage_pixel. rewrite Hbpl, Hh, Hw.
  unfold pixel_at in Hpx.
  destruct (img !! y) as [row|] eqn:Hrow; simpl in Hpx; [|done].
  pose proof (valid_image_rows img Hvalid) as Hvrows.
  rewrite Forall_lookup in Hvrows. destruct (Hvrows _ _ Hrow) as [Hlen _].
  apply lookup_lt_Some in Hrow as Hy. apply lookup_lt_Some in Hpx as Hx.
  rewrite Hlen in Hx.
  replace (x <? _)%nat with true by (symmetry; apply Nat.ltb_lt; lia).
  replace (y <? _)%nat with true by (symmetry; apply Nat.ltb_lt; lia).
  simpl andb. cbv iota.
  set (w := length (default [] (head img))) in *.
  assert (mjoin (map (map bgr2rgb) img) !! (y * w + x)%nat = Some [r; g; b]) as Hflat.
  { apply (join_lookup_Some_same_length' w); [done|done|].
    exists (map bgr2rgb row). split.
    - rewrite map_is_fmap, list_lookup_fmap, Hrow. done.
    - rewrite map_is_fmap, list_lookup_fmap, Hpx. done. }
  assert (Forall (λ px : list Z, length px = 3%nat) (mjoin (map (map bgr2rgb) img))) as H3.
  { by apply Forall_join. }
  assert (∀ k v, (k < 3)%nat → [r; g; b] !! k = Some v →
            qi_data (QImage_of img) !! ((y * (3 * w) + 3 * x) + k)%nat = Some v) as Hdata.
  { intros k v Hk Hv. unfold QImage_of, ndarray_data. cbn [qi_data].
    replace (y * (3 * w) + 3 * x + k)%nat with ((y * w + x) * 3 + k)%nat by lia.
    apply (join_lookup_Some_same_length' 3); [done|done|]. eauto. }
  rewrite <- (Nat.add_0_r (y * (3 * w) + 3 * x)) at 1.
  rewrite (Hdata 0%nat r), (Hdata 1%nat g), (Hdata 2%nat b) by (done || lia).
  done.
Qed.

Lemma length_ndarray_data (rows : list (list (list Z))) (w c : nat) :
  Forall (λ row : list (list Z), length row = w) rows →
  Forall (Forall (λ px : list Z, length px = c)) rows →
  length (ndarray_data rows) = (length rows * (c * w))%nat.
Proof.
  intros Hrows Hpxs. unfold ndarray_data.
  rewrite length_join, (sum_list_fmap_same c) by (by apply Forall_join).
  rewrite length_join, (sum_list_fmap_same w) by done. lia.
Qed.

(** X1: for a valid image the converter hands Qt an image of the same
    height and width, with three bytes per pixel and no padding, whose
    data has exactly height times bytes-per-line bytes, and whose pixel
    (x, y) holds the red, green and blue values of pixel (x, y) of the
    array, which stores them as blue, green, red. *)
Theorem converter_cv2_para_qpixmap_layout (h : heap) (l : loc) (img : ndarray) :
  h !! l = Some img → valid_image img = true →
  ∃ q, converter_cv2_para_qpixmap (PyArr l) h = (Ok q, h) ∧
    qi_height q = length img ∧
    qi_width q = length (default [] (head img)) ∧
    qi_bytesPerLine q = (3 * qi_width q)%nat ∧
    length (qi_data q) = (qi_height q * qi_bytesPerLine q)%nat ∧
    ∀ y x b g r, pixel_at img y x = Some [b; g; r] →
      QImage_pixel q x y = Some (r, g, b).
Proof.
  intros Hl Hvalid. exists (QImage_of img).
  destruct (valid_image_channels img Hvalid) as [Hne Hch].
  destruct (QImage_of_geometry img Hvalid) as (Hh & Hw & Hbpl & Hrows & Hpxs).
  split; [apply converter_run; auto|].
  split; [done|]. split; [done|]. split; [done|]. split.
  - rewrite Hbpl, Hh, Hw. unfold QImage_of. cbn [qi_data].
    rewrite (length_ndarray_data _ (length (default [] (head img))) 3) by done.
    by rewrite length_map.
  - intros y x b g r. by apply QImage_of_pixel.
Qed.

(** ** Handlers of the window *)

Lemma ret_keeps {A X} (f : DetectorApp → X) (a : A) (self : DetectorApp) (h : heap) :
  f ((mret a : Ui A) self h).1.2 = f self.
Proof. done. Qed.

Lemma liftPy_keeps {A X} (f : DetectorApp → X) (m : Py A) (self : DetectorApp) (h : heap) :
  f (liftPy m self h).1.2 = f self.
Proof. unfold liftPy. by destruct (m h). Qed.

Lemma update_keeps {X} (f : DetectorApp → X) (g : DetectorApp → DetectorApp)
    (self : DetectorApp) (h : heap) :
  (∀ a, f (g a) = f a) → f (update g self h).1.2 = f self.
Proof. intros Hg. apply Hg. Qed.

Lemma bind_keeps {A B X} (f : DetectorApp → X) (m : Ui A) (k : A → Ui B) :
  (∀ self h, f (m self h).1.2 = f self) →
  (∀ a self h, f (k a self h).1.2 = f self) →
  ∀ self h, f ((m ≫= k) self h).1.2 = f self.
Proof.
  intros Hm Hk self h. unfold mbind, Ui_bind.
  specialize (Hm self h). destruct (m self h) as [[[a|e] self'] h']; simpl in *.
  - by rewrite Hk.
  - done.
Qed.

Ltac keeps :=
  repeat first
    [ apply ret_keeps
    | apply liftPy_keeps
    | apply update_keeps; intros []; reflexivity
    | apply bind_keeps; [intros ? ?|intros ? ? ?]
    | progress unfold QLabel_setText, QLabel_setPixmap, QLabel_clear, QMessageBox_critical
    | match goal with
      | |- context [match ?x with PyNone => _ | PyArr _ => _ end] => destruct x
      | |- context [let '(_, _) := ?x in _] => destruct x
      | |- context [if ?b then _ else _] => destruct b
      end ].

Lemma limpar_resultados_keeps_selection (self : DetectorApp) (h : heap) :
  selection (limpar_resultados self h).1.2 = selection self.
Proof. revert self h. unfold limpar_resultados. keeps. Qed.

Section Janela.

Variable bgr2hsv : pixel → hsv_pixel.
Variable blur_val : nat * nat → Z → ndarray → nat → nat → nat → Z.
Variable findContours : mask → RetrievalModes → ContourApproximationModes → list contour.
Variable rectangle_raster : point → point → Z → list point.
Variable putText_raster : string → point → HersheyFonts → Z * Z → Z → list point.
Variable imread : string → option ndarray.
Variable scaled : ImageLabel → QImage → QImage.

Local Abbreviation processar :=
  (processar_imagem bgr2hsv blur_val findContours rectangle_raster putText_raster
     imread scaled).
Local Abbreviation selecionar := (selecionar_e_exibir_imagem imread scaled).
Local Abbreviation eventos :=
  (run_events bgr2hsv blur_val findContours rectangle_raster putText_raster imread scaled).
Local Abbreviation trata :=
  (handle bgr2hsv blur_val findContours rectangle_raster putText_raster imread scaled).

Lemma processar_keeps_selection (self : DetectorApp) (h : heap) :
  selection (processar self h).1.2 = selection self.
Proof. revert self h. unfold processar_imagem. keeps. Qed.


Lemma cv2_imread_Some (p : string) (img : ndarray) (h : heap) :
  imread p = Some img →
  cv2_imread imread p h = (Ok (PyArr (fresh (dom h))), <[fresh (dom h) := img]> h).
Proof. intros Him. unfold cv2_imread. by rewrite Him. Qed.

Lemma cv2_imread_None (p : string) (h : heap) :
  imread p = None → cv2_imread imread p h = (Ok PyNone, h).
Proof. intros Him. unfold cv2_imread. by rewrite Him. Qed.

(** What follows the three assignments of the select handler. *)
Lemma selecionar_unfold (p : string) (self : DetectorApp) (h : heap) :
  p ≠ "" →
  selecionar p self h =
  (limpar_resultados;;
   self ← get_self;
   imagem_original_cv ← liftPy (cv2_imread imread (default "" (caminho_imagem self)));
   match imagem_original_cv with
   | PyArr _ =>
       pixmap_original ← liftPy (converter_cv2_para_qpixmap imagem_original_cv);
       QLabel_setPixmap set_lbl_img_original (scaled OfOriginal pixmap_original)
   | PyNone =>
       QMessageBox_critical "Erro" (mensagem_erro (default "" (caminho_imagem self)))
   end)
    (set_btn_processar true
       (set_lbl_caminho (LabelText p) (set_caminho_imagem (Some p) self))) h.
Proof.
  intros Hne. unfold selecionar_e_exibir_imagem.
  rewrite bool_decide_eq_false_2 by done. done.
Qed.

Lemma selecionar_selection (p : string) (self : DetectorApp) (h : heap) :
  p ≠ "" → selection (selecionar p self h).1.2 = (Some p, true, LabelText p).
Proof.
  intros Hne. rewrite selecionar_unfold by done.
  match goal with |- selection (?m ?s h).1.2 = _ =>
    transitivity (selection s); [|done]; generalize s end.
  intros s. revert s h. keeps.
Qed.

Lemma trata_selection_ok (e : Event) (self : DetectorApp) (h : heap) :
  selection_ok self → selection_ok (trata e self h).1.
Proof.
  intros Hok. destruct e as [p|]; unfold handle.
  - destruct (decide (p = "")) as [->|Hne].
    + done.
    + pose proof (selecionar_selection p self h Hne) as Hsel.
      destruct (selecionar p self h) as [[r self'] h']. simpl in *.
      unfold selection in Hsel. injection Hsel as Hc Hb Hl.
      unfold selection_ok. rewrite Hc, Hb, Hl. simpl.
      rewrite bool_decide_eq_false_2 by done. split; [done|]. split; [congruence|done].
  - destruct (btn_processar self) eqn:Hbtn; [|done].
    pose proof (processar_keeps_selection self h) as Hsel.
    destruct (processar self h) as [[r self'] h']. simpl in *.
    unfold selection in Hsel. injection Hsel as Hc Hb Hl.
    unfold selection_ok in *. by rewrite Hc, Hb, Hl.
Qed.

(** X2: whatever the user does from the start of the program, the process
    button is enabled exactly when an image path is selected, the selected
    path is never empty and the path label shows it; so a press of the
    process button always finds a path. *)
Theorem selection_invariant (es : list Event) (h : heap) :
  selection_ok (eventos es DetectorApp_init h).1 ∧
  (btn_processar (eventos es DetectorApp_init h).1 = true →
   ∃ p, caminho_imagem (eventos es DetectorApp_init h).1 = Some p ∧ p ≠ "").
Proof.
  assert (∀ self h, selection_ok self → selection_ok (eventos es self h).1) as Hinv.
  { unfold run_events. induction es as [|e es IH]; intros self h0 Hok; simpl; [done|].
    pose proof (trata_selection_ok e self h0 Hok) as Hstep.
    destruct (trata e self h0) as [self' h']. by apply IH. }
  assert (selection_ok (eventos es DetectorApp_init h).1) as Hok.
  { apply Hinv. unfold selection_ok. done. }
  split; [done|]. intros Hbtn.
  destruct Hok as (Hb & Hne & _). rewrite Hb in Hbtn.
  destruct (caminho_imagem _) as [p|]; [|done].
  exists p. split; [done|congruence].
Qed.


Lemma selecionar_run (p : string) (self : DetectorApp) (h : heap) :
  p ≠ "" →
  selection (selecionar p self h).1.2 = (Some p, true, LabelText p) ∧
  (lbl_resultado_desmatamento (selecionar p self h).1.2,
   lbl_img_desmatamento (selecionar p self h).1.2,
   lbl_resultado_incendio (selecionar p self h).1.2,
   lbl_img_incendio (selecionar p self h).1.2) =
  (NoContent, LabelText "Resultado Desmatamento",
   NoContent, LabelText "Resultado Incêndio") ∧
  match imread p with
  | None =>
      lbl_img_original (selecionar p self h).1.2 = LabelText "Imagem Original" ∧
      dialogs (selecionar p self h).1.2 = ("Erro", mensagem_erro p) :: dialogs self
  | Some img =>
      valid_image img = true →
      lbl_img_original (selecionar p self h).1.2 =
        LabelPixmap (scaled OfOriginal (QImage_of img)) ∧
      dialogs (selecionar p self h).1.2 = dialogs self
  end.
Proof.
  intros Hne. split; [by apply selecionar_selection|].
  rewrite selecionar_unfold by done.
  unfold limpar_resultados, QLabel_setText, QLabel_clear, QLabel_setPixmap,
    QMessageBox_critical, update, get_self, mbind, Ui_bind, liftPy.
  cbn [caminho_imagem set_btn_processar set_lbl_caminho set_caminho_imagem
       set_lbl_img_original set_lbl_img_desmatamento set_lbl_img_incendio
       set_lbl_resultado_desmatamento set_lbl_resultado_incendio default].
  change (id p) with p.
  destruct (imread p) as [img|] eqn:Him.
  - rewrite (cv2_imread_Some p img h Him). split.
    + by destruct (converter_cv2_para_qpixmap _ _) as [[q|e] h'].
    + intros Hvalid. destruct (valid_image_channels img Hvalid) as [Hempty Hch].
      rewrite (converter_run _ _ img); [done|apply lookup_insert_eq|done|auto].
  - rewrite (cv2_imread_None p h Him). done.
Qed.

(** X3: choosing a file stores its path, shows it and enables the process
    button; whether or not the file can be read, nothing of the results
    of an earlier image stays on screen: both result texts are empty and
    both result images are back to their placeholder texts.  A file that
    cannot be read adds one error dialog that names it and leaves the
    placeholder in the original-image label; a valid image is shown
    there. *)
Theorem selecionar_limpa_resultados (p : string) (self : DetectorApp) (h : heap) :
  p ≠ "" →
  selection (selecionar p self h).1.2 = (Some p, true, LabelText p) ∧
  (lbl_resultado_desmatamento (selecionar p self h).1.2,
   lbl_img_desmatamento (selecionar p self h).1.2,
   lbl_resultado_incendio (selecionar p self h).1.2,
   lbl_img_incendio (selecionar p self h).1.2) =
  (NoContent, LabelText "Resultado Desmatamento",
   NoContent, LabelText "Resultado Incêndio") ∧
  match imread p with
  | None =>
      lbl_img_original (selecionar p self h).1.2 = LabelText "Imagem Original" ∧
      dialogs (selecionar p self h).1.2 = ("Erro", mensagem_erro p) :: dialogs self
  | Some img =>
      valid_image img = true →
      lbl_img_original (selecionar p self h).1.2 =
        LabelPixmap (scaled OfOriginal (QImage_of img)) ∧
      dialogs (selecionar p self h).1.2 = dialogs self
  end.
Proof. exact (selecionar_run p self h). Qed.

Lemma processar_run_sem_arquivo (self : DetectorApp) (h : heap) :
  truthy (caminho_imagem self) = false ∨
  imread (default "" (caminho_imagem self)) = None →
  processar self h =
  (Ok (),
   if truthy (caminho_imagem self)
   then add_dialog ("Erro", mensagem_erro (default "" (caminho_imagem self))) self
   else self,
   h).
Proof.
  intros Hcase. unfold processar_imagem, mbind, Ui_bind, get_self.
  destruct (truthy (caminho_imagem self)) eqn:Htruthy; [|done].
  destruct Hcase as [|Him]; [done|].
  cbn [negb]. unfold liftPy. by rewrite (cv2_imread_None _ h Him).
Qed.

(** X4: pressing the process button shows no result unless the selected
    file can be read: without a path nothing changes at all, and with a
    file that cannot be read the only change is one error dialog that
    names the file.  The store is left as it was. *)
Theorem processar_imagem_sem_resultado (self : DetectorApp) (h : heap) :
  truthy (caminho_imagem self) = false ∨
  imread (default "" (caminho_imagem self)) = None →
  processar self h =
  (Ok (),
   if truthy (caminho_imagem self)
   then add_dialog ("Erro", mensagem_erro (default "" (caminho_imagem self))) self
   else self,
   h).
Proof. exact (processar_run_sem_arquivo self h). Qed.


Lemma ndarray_copy_run (h : heap) (l : loc) (a : ndarray) :
  h !! l = Some a →
  ndarray_copy (PyArr l) h = (Ok (PyArr (fresh (dom h))), <[fresh (dom h) := a]> h).
Proof. intros Hl. unfold ndarray_copy. by rewrite Hl. Qed.

Lemma shape_Mat_empty (a b : ndarray) : shape a = shape b → Mat_empty a = Mat_empty b.
Proof.
  unfold shape. destruct a as [|[|pa ra] a], b as [|[|pb rb] b]; simpl; congruence.
Qed.

Lemma shape_channels (a b : ndarray) : shape a = shape b → channels a = channels b.
Proof.
  unfold shape. destruct a as [|[|pa ra] a], b as [|[|pb rb] b]; simpl; congruence.
Qed.

Lemma converter_run_annotated (h : heap) (l : loc) (img : ndarray) (cs : list contour)
    (color : list Z) (label : string) :
  valid_image img = true →
  h !! l = Some (drawRegions rectangle_raster putText_raster img cs color label) →
  converter_cv2_para_qpixmap (PyArr l) h =
  (Ok (QImage_of (drawRegions rectangle_raster putText_raster img cs color label)), h).
Proof.
  intros [Hne Hch]%valid_image_channels Hl.
  pose proof (shape_drawRegions rectangle_raster putText_raster img cs color label) as Hshape.
  apply converter_run; [done| |].
  - by rewrite (shape_Mat_empty _ _ Hshape).
  - rewrite (shape_channels _ _ Hshape). auto.
Qed.

Lemma processar_run_valid (self : DetectorApp) (h : heap) (p : string)
    (img : ndarray) :
  caminho_imagem self = Some p → p ≠ "" → imread p = Some img →
  valid_image img = true →
  let solo := soil_result bgr2hsv findContours rectangle_raster putText_raster img in
  let fogo :=
    fire_result bgr2hsv blur_val findContours rectangle_raster putText_raster img in
  ∃ self' h',
    processar self h = (Ok (), self', h') ∧
    lbl_resultado_desmatamento self' =
      LabelText ("<b>Área de Desmatamento:</b> " +:+ pretty (Z.quot solo.2 2) +:+ " pixels") ∧
    lbl_img_desmatamento self' = LabelPixmap (scaled OfDesmatamento (QImage_of solo.1)) ∧
    lbl_resultado_incendio self' =
      LabelText ("<b>Focos de Incêndio:</b> " +:+ pretty fogo.2) ∧
    lbl_img_incendio self' = LabelPixmap (scaled OfIncendio (QImage_of fogo.1)) ∧
    selection self' = selection self ∧
    lbl_img_original self' = lbl_img_original self ∧
    dialogs self' = dialogs self ∧
    ∀ l a, h !! l = Some a → h' !! l = Some a.
Proof.
  intros Hp Hne Him Hvalid solo fogo.
  unfold processar_imagem, mbind, Ui_bind, get_self, liftPy, QLabel_setText,
    QLabel_setPixmap, update.
  rewrite Hp. cbn [truthy default from_option]. change (id p) with p.
  rewrite bool_decide_eq_false_2 by done. cbn [negb].
  rewrite (cv2_imread_Some p img h Him).
  set (l0 := fresh (dom h)). set (h1 := <[l0 := img]> h).
  assert (h1 !! l0 = Some img) as H10 by apply lookup_insert_eq.
  rewrite (ndarray_copy_run h1 l0 img H10).
  set (l1 := fresh (dom h1)). set (h2 := <[l1 := img]> h1).
  assert (h2 !! l1 = Some img) as H21 by apply lookup_insert_eq.
  rewrite (soil_run_valid bgr2hsv findContours rectangle_raster putText_raster
             h2 l1 img H21 Hvalid).
  fold solo. set (l2 := fresh (dom h2)). set (h3 := <[l2 := solo.1]> h2).
  assert (h3 !! l2 = Some solo.1) as H32 by apply lookup_insert_eq.
  rewrite (converter_run_annotated h3 l2 img _ _ _ Hvalid H32).
  assert (h3 !! l0 = Some img) as H30.
  { apply lookup_fresh_ne, lookup_fresh_ne, H10. }
  rewrite (ndarray_copy_run h3 l0 img H30).
  set (l3 := fresh (dom h3)). set (h4 := <[l3 := img]> h3).
  assert (h4 !! l3 = Some img) as H43 by apply lookup_insert_eq.
  rewrite (fire_run_valid bgr2hsv blur_val findContours rectangle_raster putText_raster
             h4 l3 img H43 Hvalid).
  fold fogo. set (l4 := fresh (dom h4)). set (h5 := <[l4 := fogo.1]> h4).
  assert (h5 !! l4 = Some fogo.1) as H54 by apply lookup_insert_eq.
  rewrite (converter_run_annotated h5 l4 img _ _ _ Hvalid H54).
  eexists _, _. split; [reflexivity|].
  destruct self. repeat split.
  intros l a Hl. do 5 apply lookup_fresh_ne. done.
Qed.

(** X5: when the selected file holds a valid image, pressing the process
    button runs both detectors on the image as it was read: the fire
    detector does not see the rectangles and labels the soil detector
    drew.  The soil text shows the whole part of the total area, the fire
    text the number of hotspots, and the two result labels show the two
    annotated images.  The selection, the original-image label and the
    dialogs are unchanged, no exception is raised, and every buffer of the
    store is left as it was. *)
Theorem processar_imagem_resultados (self : DetectorApp) (h : heap) (p : string)
    (img : ndarray) :
  caminho_imagem self = Some p → p ≠ "" → imread p = Some img →
  valid_image img = true →
  let solo := soil_result bgr2hsv findContours rectangle_raster putText_raster img in
  let fogo :=
    fire_result bgr2hsv blur_val findContours rectangle_raster putText_raster img in
  ∃ self' h',
    processar self h = (Ok (), self', h') ∧
    lbl_resultado_desmatamento self' =
      LabelText ("<b>Área de Desmatamento:</b> " +:+ pretty (Z.quot solo.2 2) +:+ " pixels") ∧
    lbl_img_desmatamento self' = LabelPixmap (scaled OfDesmatamento (QImage_of solo.1)) ∧
    lbl_resultado_incendio self' =
      LabelText ("<b>Focos de Incêndio:</b> " +:+ pretty fogo.2) ∧
    lbl_img_incendio self' = LabelPixmap (scaled OfIncendio (QImage_of fogo.1)) ∧
    selection self' = selection self ∧
    lbl_img_original self' = lbl_img_original self ∧
    dialogs self' = dialogs self ∧
    ∀ l a, h !! l = Some a → h' !! l = Some a.
Proof. exact (processar_run_valid self h p img). Qed.


Lemma trata_resultados_ok (e : Event) (self : DetectorApp) (h : heap) :
  (∀ p img, imread p = Some img → valid_image img = true) →
  selection_ok self →
  resultados_ok bgr2hsv blur_val findContours rectangle_raster putText_raster
    imread scaled self →
  resultados_ok bgr2hsv blur_val findContours rectangle_raster putText_raster
    imread scaled (trata e self h).1.
Proof.
  intros Hread (Hbtn & Hnempty & _) Hres. destruct e as [p|]; unfold handle.
  - destruct (decide (p = "")) as [->|Hne]; [done|].
    destruct (selecionar_run p self h Hne) as (_ & Hclear & _).
    destruct (selecionar p self h) as [[r self'] h']. by left.
  - destruct (btn_processar self) eqn:Hon; [|done].
    rewrite Hbtn in Hon.
    destruct (caminho_imagem self) as [p|] eqn:Hp; [|done].
    assert (p ≠ "") as Hne by congruence.
    destruct (imread p) as [img|] eqn:Him.
    + destruct (processar_run_valid self h p img Hp Hne Him (Hread _ _ Him))
        as (self' & h' & -> & H1 & H2 & H3 & H4 & Hsel & _).
      right. exists p, img. split; [|split; [done|]].
      * unfold selection in Hsel. simpl in *. congruence.
      * unfold resultados, resultados_de. simpl. by rewrite H1, H2, H3, H4.
    + rewrite processar_run_sem_arquivo by (right; by rewrite Hp).
      rewrite Hp. simpl. rewrite bool_decide_eq_false_2 by done. simpl.
      destruct Hres as [Hres|(p' & img' & Hp' & Him' & Hres)].
      * left. by destruct self.
      * right. exists p', img'. by destruct self.
Qed.

(** X6: if every file that can be read holds a valid image, then
    whatever the user does from the start of the program, the four result
    labels either show no result or show the results of the image of the
    currently selected file: results of another image are never left on
    screen. *)
Theorem resultados_da_imagem_selecionada (es : list Event) (h : heap) :
  (∀ p img, imread p = Some img → valid_image img = true) →
  resultados_ok bgr2hsv blur_val findContours rectangle_raster putText_raster
    imread scaled (eventos es DetectorApp_init h).1.
Proof.
  intros Hread.
  assert (∀ self h,
    selection_ok self →
    resultados_ok bgr2hsv blur_val findContours rectangle_raster putText_raster
      imread scaled self →
    resultados_ok bgr2hsv blur_val findContours rectangle_raster putText_raster
      imread scaled (eventos es self h).1) as Hinv.
  { unfold run_events. induction es as [|e es IH]; intros self h0 Hsel Hres; simpl; [done|].
    pose proof (trata_selection_ok e self h0 Hsel) as Hsel'.
    pose proof (trata_resultados_ok e self h0 Hread Hsel Hres) as Hres'.
    destruct (trata e self h0) as [self' h']. by apply IH. }
  apply Hinv; [by unfold selection_ok|by left].
Qed.

End Janela.

(** ** The cleaned masks *)

Lemma mask_px_Some_nonneg (m : list (list Z)) (y x v : Z) :
  mask_px m y x = Some v → 0 ≤ y ∧ 0 ≤ x.
Proof.
  unfold mask_px. destruct ((0 <=? y) && (0 <=? x)) eqn:Hin.
  - apply andb_true_iff in Hin as [Hy%Z.leb_le Hx%Z.leb_le]. intros _. split; assumption.
  - intros H. discriminate H.
Qed.

Lemma mask_px_erode_nat (m : list (list Z)) (y x : nat) :
  Forall (Forall (λ v : Z, v = 0 ∨ v = 255)) m →
  mask_px (erode m (np_ones 5 5)) (Z.of_nat y) (Z.of_nat x) = Some 255 ↔
  is_Some (mask_px m (Z.of_nat y) (Z.of_nat x)) ∧
  ∀ dy dx, -2 ≤ dy ≤ 2 → -2 ≤ dx ≤ 2 →
    ∀ v, mask_px m (Z.of_nat y + dy) (Z.of_nat x + dx) = Some v → v = 255.
Proof.
  intros Hm. unfold erode. rewrite mask_px_erode_border.
  pose proof (erode_window_255 m y x Hm) as [Hw1 Hw2].
  destruct (mask_px m (Z.of_nat y) (Z.of_nat x)) as [v0|].
  - cbn [fmap option_fmap option_map]. split.
    + intros Hmin. split; [by eexists|]. apply Hw1. congruence.
    + intros [_ Hall]. f_equal. exact (Hw2 Hall).
  - cbn [fmap option_fmap option_map]. split; [intros [=]|]. by intros [[? [=]] _].
Qed.

Lemma mask_px_dilate_nat (m : list (list Z)) (y x : nat) :
  Forall (Forall (λ v : Z, v = 0 ∨ v = 255)) m →
  mask_px (dilate m (np_ones 5 5)) (Z.of_nat y) (Z.of_nat x) = Some 255 ↔
  is_Some (mask_px m (Z.of_nat y) (Z.of_nat x)) ∧
  ∃ dy dx, -2 ≤ dy ≤ 2 ∧ -2 ≤ dx ≤ 2 ∧
    mask_px m (Z.of_nat y + dy) (Z.of_nat x + dx) = Some 255.
Proof.
  intros Hm. unfold dilate. rewrite mask_px_dilate_border.
  pose proof (dilate_window_255 m y x Hm) as [Hw1 Hw2].
  destruct (mask_px m (Z.of_nat y) (Z.of_nat x)) as [v0|].
  - cbn [fmap option_fmap option_map]. split.
    + intros Hmax. split; [by eexists|]. apply Hw1. congruence.
    + intros [_ Hex]. f_equal. exact (Hw2 Hex).
  - cbn [fmap option_fmap option_map]. split; [intros [=]|]. by intros [[? [=]] _].
Qed.

Lemma mask_px_erode_Z (m : list (list Z)) (y x : Z) :
  Forall (Forall (λ v : Z, v = 0 ∨ v = 255)) m →
  mask_px (erode m (np_ones 5 5)) y x = Some 255 ↔
  is_Some (mask_px m y x) ∧
  ∀ dy dx, -2 ≤ dy ≤ 2 → -2 ≤ dx ≤ 2 →
    ∀ v, mask_px m (y + dy) (x + dx) = Some v → v = 255.
Proof.
  intros Hm. destruct (decide (0 ≤ y ∧ 0 ≤ x)) as [[Hy Hx]|Hneg].
  - pose proof (mask_px_erode_nat m (Z.to_nat y) (Z.to_nat x) Hm) as Hnat.
    rewrite !Z2Nat.id in Hnat by assumption. exact Hnat.
  - split.
    + intros Hpx. apply mask_px_Some_nonneg in Hpx. tauto.
    + intros [[v Hv] _]. apply mask_px_Some_nonneg in Hv. tauto.
Qed.

Lemma mask_px_dilate_Z (m : list (list Z)) (y x : Z) :
  Forall (Forall (λ v : Z, v = 0 ∨ v = 255)) m →
  mask_px (dilate m (np_ones 5 5)) y x = Some 255 ↔
  is_Some (mask_px m y x) ∧
  ∃ dy dx, -2 ≤ dy ≤ 2 ∧ -2 ≤ dx ≤ 2 ∧ mask_px m (y + dy) (x + dx) = Some 255.
Proof.
  intros Hm. destruct (decide (0 ≤ y ∧ 0 ≤ x)) as [[Hy Hx]|Hneg].
  - pose proof (mask_px_dilate_nat m (Z.to_nat y) (Z.to_nat x) Hm) as Hnat.
    rewrite !Z2Nat.id in Hnat by assumption. exact Hnat.
  - split.
    + intros Hpx. apply mask_px_Some_nonneg in Hpx. tauto.
    + intros [[v Hv] _]. apply mask_px_Some_nonneg in Hv. tauto.
Qed.

Lemma Binary_erode (m : list (list Z)) :
  Forall (Forall (λ v : Z, v = 0 ∨ v = 255)) m →
  Forall (Forall (λ v : Z, v = 0 ∨ v = 255)) (erode m (np_ones 5 5)).
Proof. intros Hm. apply binary_erode_border; auto. Qed.


Lemma mask_px_erode_is_Some (m : list (list Z)) (k : list (list Z)) (y x : Z) :
  is_Some (mask_px (erode m k) y x) ↔ is_Some (mask_px m y x).
Proof.
  unfold mask_px. destruct ((0 <=? y) && (0 <=? x)); [|tauto].
  unfold erode, erode_border. rewrite list_lookup_imap.
  destruct (m !! Z.to_nat y) as [row|]; cbn [fmap option_fmap option_map mbind option_bind].
  - rewrite list_lookup_imap. apply fmap_is_Some.
  - tauto.
Qed.

Lemma open_pixel (m : list (list Z)) (y x : Z) :
  Forall (Forall (λ v : Z, v = 0 ∨ v = 255)) m →
  mask_px (morphologyEx m MORPH_OPEN (np_ones 5 5)) y x = Some 255 ↔
  is_Some (mask_px m y x) ∧
  ∃ dy dx, -2 ≤ dy ≤ 2 ∧ -2 ≤ dx ≤ 2 ∧
    is_Some (mask_px m (y + dy) (x + dx)) ∧
    ∀ ey ex, -2 ≤ ey ≤ 2 → -2 ≤ ex ≤ 2 →
      ∀ v, mask_px m (y + dy + ey) (x + dx + ex) = Some v → v = 255.
Proof.
  intros Hm. unfold morphologyEx.
  pose proof (mask_px_dilate_Z (erode m (np_ones 5 5)) y x (Binary_erode m Hm)) as [Hd1 Hd2].
  split.
  - intros Hpx. destruct (Hd1 Hpx) as (Hsome & dy & dx & Hdy & Hdx & He).
    split; [by apply mask_px_erode_is_Some in Hsome|].
    exists dy, dx. split; [assumption|]. split; [assumption|].
    apply (mask_px_erode_Z m _ _ Hm) in He as [Hc Hall]. split; assumption.
  - intros (Hsome & dy & dx & Hdy & Hdx & Hc & Hall). apply Hd2.
    split; [by apply mask_px_erode_is_Some|].
    exists dy, dx. split; [assumption|]. split; [assumption|].
    apply (mask_px_erode_Z m _ _ Hm). split; assumption.
Qed.

Lemma open_anti_extensive (m : list (list Z)) (y x : Z) :
  Forall (Forall (λ v : Z, v = 0 ∨ v = 255)) m →
  mask_px (morphologyEx m MORPH_OPEN (np_ones 5 5)) y x = Some 255 →
  mask_px m y x = Some 255.
Proof.
  intros Hm Hpx.
  apply (open_pixel m y x Hm) in Hpx as ([v Hv] & dy & dx & Hdy & Hdx & _ & Hall).
  assert (v = 255) as ->; [|assumption].
  apply (Hall (- dy) (- dx)); [lia|lia|].
  replace (y + dy + - dy) with y by lia. replace (x + dx + - dx) with x by lia.
  assumption.
Qed.






(** X7: opening a binary mask with the 5x5 element keeps a pixel exactly
    when the pixel belongs to some 5x5 window, centred inside the image and
    clipped to it, whose pixels are all foreground; so the opening removes
    every foreground pixel that lies in no such window and never adds
    one. *)
Theorem abertura_pixel (m : list (list Z)) (y x : Z) :
  binary_mask m = true →
  (mask_px (morphologyEx m MORPH_OPEN (np_ones 5 5)) y x = Some 255 ↔
   is_Some (mask_px m y x) ∧
   ∃ dy dx, -2 ≤ dy ≤ 2 ∧ -2 ≤ dx ≤ 2 ∧
     is_Some (mask_px m (y + dy) (x + dx)) ∧
     ∀ ey ex, -2 ≤ ey ≤ 2 → -2 ≤ ex ≤ 2 →
       ∀ v, mask_px m (y + dy + ey) (x + dx + ex) = Some v → v = 255) ∧
  (mask_px (morphologyEx m MORPH_OPEN (np_ones 5 5)) y x = Some 255 →
   mask_px m y x = Some 255).
Proof.
  intros Hm%binary_mask_Forall. split.
  - by apply open_pixel.
  - by apply open_anti_extensive.
Qed.


(** ** Dimensions of the masks *)

Lemma map_length_morphologyEx (m : list (list Z)) (op : MorphTypes) (k : list (list Z)) :
  map length (morphologyEx m op k) = map length m.
Proof.
  assert (∀ b m', map length (erode_border b m' k) = map length m') as He.
  { intros b m'. unfold erode_border.
    apply (map_length_imap2 (λ y x _, foldr Z.min 255 (window m' b k y x))). }
  assert (∀ b m', map length (dilate_border b m' k) = map length m') as Hd.
  { intros b m'. unfold dilate_border.
    apply (map_length_imap2 (λ y x _, foldr Z.max 0 (window m' b k y x))). }
  destruct op; unfold morphologyEx, erode, dilate; by rewrite ?He, ?Hd, ?He.
Qed.

Lemma map_length_map_map {A B} (f : A → B) (l : list (list A)) :
  map length (map (map f) l) = map length l.
Proof. rewrite map_map. apply map_ext. intros row. apply length_map. Qed.

(** ** Masks without foreground *)

Lemma imap2_id {A} (F : nat → nat → A → A) (m : list (list A)) :
  (∀ y x row v, m !! y = Some row → row !! x = Some v → F y x v = v) →
  imap (λ y row, imap (F y) row) m = m.
Proof.
  intros HF. apply list_eq. intros y. rewrite list_lookup_imap.
  destruct (m !! y) as [row|] eqn:Hrow; cbn [fmap option_fmap option_map]; [|reflexivity].
  f_equal. apply list_eq. intros x. rewrite list_lookup_imap.
  destruct (row !! x) as [v|] eqn:Hv; cbn [fmap option_fmap option_map]; [|reflexivity].
  f_equal. by eapply HF.
Qed.

Lemma blank_is_binary (m : list (list Z)) :
  Forall (Forall (λ v : Z, v = 0)) m → Forall (Forall (λ v : Z, v = 0 ∨ v = 255)) m.
Proof.
  intros Hm. eapply Forall_impl; [exact Hm|]. intros row Hrow.
  eapply Forall_impl; [exact Hrow|]. auto.
Qed.

Lemma mask_px_blank (m : list (list Z)) (y x v : Z) :
  Forall (Forall (λ v : Z, v = 0)) m → mask_px m y x = Some v → v = 0.
Proof.
  intros Hm. unfold mask_px. destruct ((0 <=? y) && (0 <=? x)); [|intros [=]].
  destruct (m !! Z.to_nat y) as [row|] eqn:Hrow; cbn [mbind option_bind]; [|intros [=]].
  intros Hv. rewrite Forall_lookup in Hm. specialize (Hm _ _ Hrow).
  rewrite Forall_lookup in Hm. exact (Hm _ _ Hv).
Qed.

Lemma erode_blank (m : list (list Z)) :
  Forall (Forall (λ v : Z, v = 0)) m → erode m (np_ones 5 5) = m.
Proof.
  intros Hm. pose proof (blank_is_binary m Hm) as Hbin.
  unfold erode, erode_border.
  apply (imap2_id (λ y x _, foldr Z.min 255 (window m 255 (np_ones 5 5) y x))).
  intros y x row v Hrow Hv.
  assert (mask_px m (Z.of_nat y) (Z.of_nat x) = Some v) as Hpx.
  { rewrite mask_px_nat, Hrow. exact Hv. }
  assert (v = 0) as -> by (by eapply mask_px_blank).
  destruct (foldr_min_binary (window m 255 (np_ones 5 5) y x)) as [[H0|H255] _];
    [apply window_binary; auto|assumption|].
  exfalso. destruct (erode_window_255 m y x Hbin) as [Hw _].
  pose proof (Hw H255 0 0 ltac:(lia) ltac:(lia) 0) as Hc.
  rewrite !Z.add_0_r in Hc. specialize (Hc Hpx). lia.
Qed.

Lemma dilate_blank (m : list (list Z)) :
  Forall (Forall (λ v : Z, v = 0)) m → dilate m (np_ones 5 5) = m.
Proof.
  intros Hm. pose proof (blank_is_binary m Hm) as Hbin.
  unfold dilate, dilate_border.
  apply (imap2_id (λ y x _, foldr Z.max 0 (window m 0 (np_ones 5 5) y x))).
  intros y x row v Hrow Hv.
  assert (mask_px m (Z.of_nat y) (Z.of_nat x) = Some v) as Hpx.
  { rewrite mask_px_nat, Hrow. exact Hv. }
  assert (v = 0) as -> by (by eapply mask_px_blank).
  destruct (foldr_max_binary (window m 0 (np_ones 5 5) y x)) as [[H0|H255] _];
    [apply window_binary; auto|assumption|].
  exfalso. destruct (dilate_window_255 m y x Hbin) as [Hw _].
  destruct (Hw H255) as (dy & dx & _ & _ & Hn).
  apply (mask_px_blank m _ _ _ Hm) in Hn. lia.
Qed.

Lemma morphologyEx_blank (m : list (list Z)) (op : MorphTypes) :
  Forall (Forall (λ v : Z, v = 0)) m → morphologyEx m op (np_ones 5 5) = m.
Proof.
  intros Hm. destruct op; unfold morphologyEx;
    rewrite ?(erode_blank m Hm), ?(dilate_blank m Hm), ?(erode_blank m Hm); reflexivity.
Qed.

Lemma blank_map (A : Type) (l : list (list A)) :
  Forall (Forall (λ v : Z, v = 0)) (map (map (λ _, 0)) l).
Proof.
  apply Forall_map, Forall_forall. intros row _.
  apply Forall_map, Forall_forall. intros p _. reflexivity.
Qed.

Lemma map_map_blank {A} (f : A → bool) (l : list (list A)) :
  forallb (forallb (λ a, negb (f a))) l = true →
  map (map (λ a, if f a then 255 else 0)) l = map (map (λ _, 0)) l.
Proof.
  intros Hall. apply (map_map_ext_Forall (λ a, f a = false)).
  - intros a Ha. by rewrite Ha.
  - revert Hall. apply forallb_Forall. intros row. apply forallb_Forall.
    intros a. apply negb_true_iff.
Qed.

Lemma land_lor_tests (a b c : bool) :
  Z.land (Z.lor (if a then 255 else 0) (if b then 255 else 0)) (if c then 255 else 0) =
  if (a || b) && c then 255 else 0.
Proof. by destruct a, b, c. Qed.

Lemma map_map_const_blur (blur_val : nat * nat → Z → list (list (list Z)) → nat → nat → nat → Z)
    (img : list (list (list Z))) :
  map (map (λ _ : list Z, 0)) (blur_of blur_val img) = map (map (λ _ : list Z, 0)) img.
Proof.
  unfold blur_of. apply list_eq. intros y.
  rewrite !map_is_fmap, !list_lookup_fmap, list_lookup_imap.
  destruct (img !! y) as [row|]; cbn [fmap option_fmap option_map]; [|reflexivity].
  f_equal. apply list_eq. intros x.
  rewrite !list_lookup_fmap, list_lookup_imap.
  by destruct (row !! x).
Qed.

Lemma map_length_blur_of (blur_val : nat * nat → Z → list (list (list Z)) → nat → nat → nat → Z)
    (img : list (list (list Z))) :
  map length (blur_of blur_val img) = map length img.
Proof.
  unfold blur_of.
  apply (map_length_imap2
           (λ y x px, imap (λ c _, blur_val (5%nat, 5%nat) 0 img y x c) px)).
Qed.

(** ** Regions kept and the summary *)

Lemma keep_regions_Forall (t : Z) (cs : list (list (Z * Z))) :
  Forall (λ c, half_of_int t < contourArea c) (keep_regions t cs).
Proof.
  unfold keep_regions. apply Forall_forall. intros c Hc.
  apply list_elem_of_filter in Hc. tauto.
Qed.

Lemma total_area_above (T : Z) (cs : list (list (Z * Z))) :
  T < 2 ^ 53 → Forall (λ c, T < contourArea c) cs →
  ∀ acc, 0 ≤ acc → T < acc →
    T < foldl (λ s c, float_add s (contourArea c)) acc cs.
Proof.
  intros HT Hall. induction Hall as [|c cs Hc _ IH]; intros acc Hacc Habove;
    cbn [foldl]; [exact Habove|].
  pose proof (contourArea_nonneg c) as Hnn.
  pose proof (round_to_lower 53 (acc + contourArea c) ltac:(lia) ltac:(lia)) as Hlow.
  apply IH; [apply float_add_nonneg; assumption|].
  unfold float_add, float64. lia.
Qed.

Lemma total_area_kept (t : Z) (cs : list (list (Z * Z))) :
  0 ≤ t → half_of_int t < 2 ^ 53 →
  Forall (λ c, half_of_int t < contourArea c) cs →
  (cs = [] ∧ total_area cs = 0) ∨ (cs ≠ [] ∧ half_of_int t < total_area cs).
Proof.
  intros Ht HT Hall. destruct Hall as [|c cs Hc Hcs]; [left; split; reflexivity|right].
  split; [discriminate|]. unfold total_area. cbn [foldl].
  pose proof (contourArea_nonneg c) as Hnn.
  pose proof (round_to_lower 53 (0 + contourArea c) ltac:(lia) ltac:(lia)) as Hlow.
  apply total_area_above; [exact HT|exact Hcs|apply float_add_nonneg; lia|].
  unfold float_add, float64. unfold half_of_int in *. lia.
Qed.

Section Mascaras.

Variable bgr2hsv : list Z → Z * Z * Z.
Variable blur_val : nat * nat → Z → list (list (list Z)) → nat → nat → nat → Z.
Variable findContours : list (list Z) → RetrievalModes → ContourApproximationModes →
  list (list (Z * Z)).
Variable rectangle_raster : Z * Z → Z * Z → Z → list (Z * Z).
Variable putText_raster : string → Z * Z → HersheyFonts → Z * Z → Z → list (Z * Z).

Local Abbreviation soil :=
  (detectar_desmatamento bgr2hsv findContours rectangle_raster putText_raster).
Local Abbreviation fire :=
  (detectar_focos_incendio bgr2hsv blur_val findContours rectangle_raster putText_raster).

(** X9: the mask each detector hands to [cv2.findContours] has the
    number of rows and the row widths of the input image. *)
Theorem mascaras_com_dimensoes_da_imagem (img : list (list (list Z))) (m : list (list Z)) :
  mascara_combinada (map (map bgr2hsv) (blur_of blur_val img)) = Ok m →
  map length (morphologyEx
                (morphologyEx (inRange (map (map bgr2hsv) img) (10, 40, 40) (30, 255, 255))
                   MORPH_OPEN (np_ones 5 5))
                MORPH_CLOSE (np_ones 5 5)) = map length img ∧
  map length (morphologyEx (morphologyEx m MORPH_OPEN (np_ones 5 5))
                MORPH_DILATE (np_ones 5 5)) = map length img.
Proof.
  intros Hm. rewrite !map_length_morphologyEx. split.
  - unfold inRange. by rewrite !map_length_map_map.
  - rewrite mascara_combinada_eq in Hm.
    assert (map length m = map length (map (map bgr2hsv) (blur_of blur_val img))) as ->.
    { injection Hm as <-. apply map_length_map_map. }
    by rewrite map_length_map_map, map_length_blur_of.
Qed.

Lemma soil_regions_blank (img : list (list (list Z))) :
  findContours (map (map (λ _, 0)) img) RETR_EXTERNAL CHAIN_APPROX_SIMPLE = [] →
  forallb (forallb (λ px, negb (in_bounds (10, 40, 40) (30, 255, 255) (bgr2hsv px)))) img
    = true →
  soil_regions bgr2hsv findContours img = [].
Proof.
  intros Hfc Hnone. unfold soil_regions, findRegions, close5, open5.
  rewrite <- inRange_rangeMask. unfold inRange. rewrite map_map.
  assert (map (λ row, map (λ p, if in_bounds (10, 40, 40) (30, 255, 255) p then 255 else 0)
                        (map bgr2hsv row)) img = map (map (λ _, 0)) img) as ->.
  { rewrite <- (map_map_blank (λ px, in_bounds (10, 40, 40) (30, 255, 255) (bgr2hsv px))
                  img Hnone).
    apply map_ext. intros row. apply map_map. }
  rewrite (erode_blank _ (blank_map _ img)), (dilate_blank _ (blank_map _ img)).
  rewrite (dilate_blank _ (blank_map _ img)), (erode_blank _ (blank_map _ img)).
  by rewrite Hfc.
Qed.

Lemma fire_regions_blank (img : list (list (list Z))) :
  findContours (map (map (λ _, 0)) img) RETR_EXTERNAL CHAIN_APPROX_SIMPLE = [] →
  forallb (forallb (λ px,
    negb ((in_bounds (0, 0, 0) (20, 255, 255) (bgr2hsv px) ||
           in_bounds (170, 0, 0) (180, 255, 255) (bgr2hsv px)) &&
          in_bounds (0, 0, 215) (180, 255, 255) (bgr2hsv px)))) (blur_of blur_val img) = true →
  fire_regions bgr2hsv blur_val findContours img = [].
Proof.
  intros Hfc Hnone. unfold fire_regions. rewrite mascara_combinada_eq.
  unfold findRegions, open5. rewrite map_map.
  assert (map (λ row, map (λ p,
            Z.land (Z.lor (if in_bounds (0, 0, 0) (20, 255, 255) p then 255 else 0)
                          (if in_bounds (170, 0, 0) (180, 255, 255) p then 255 else 0))
                   (if in_bounds (0, 0, 215) (180, 255, 255) p then 255 else 0))
            (map bgr2hsv row)) (blur_of blur_val img) = map (map (λ _, 0)) img) as ->.
  { rewrite <- (map_map_const_blur blur_val img).
    rewrite <- (map_map_blank _ (blur_of blur_val img) Hnone).
    apply map_ext. intros row. rewrite map_map. apply map_ext. intros px.
    apply land_lor_tests. }
  rewrite (erode_blank _ (blank_map _ img)), !(dilate_blank _ (blank_map _ img)).
  by rewrite Hfc.
Qed.

(** X10: if [cv2.findContours] finds nothing in a mask without foreground,
    then an image none of whose pixels passes the soil test is returned
    unannotated with a total area of 0, and an image none of whose smoothed
    pixels passes the fire test is returned unannotated with 0 hotspots. *)
Theorem imagem_sem_deteccao (h : gmap nat (list (list (list Z)))) (l : nat)
    (img : list (list (list Z))) :
  h !! l = Some img → valid_image img = true →
  findContours (map (map (λ _, 0)) img) RETR_EXTERNAL CHAIN_APPROX_SIMPLE = [] →
  (forallb (forallb (λ px, negb (in_bounds (10, 40, 40) (30, 255, 255) (bgr2hsv px)))) img
     = true →
   soil (PyArr l) h = (Ok (PyArr (fresh (dom h)), 0), <[fresh (dom h) := img]> h)) ∧
  (forallb (forallb (λ px,
     negb ((in_bounds (0, 0, 0) (20, 255, 255) (bgr2hsv px) ||
            in_bounds (170, 0, 0) (180, 255, 255) (bgr2hsv px)) &&
           in_bounds (0, 0, 215) (180, 255, 255) (bgr2hsv px)))) (blur_of blur_val img)
     = true →
   fire (PyArr l) h = (Ok (PyArr (fresh (dom h)), 0), <[fresh (dom h) := img]> h)).
Proof.
  intros Hl Hvalid Hfc. split; intros Hnone.
  - rewrite (soil_run_valid _ _ _ _ h l img Hl Hvalid).
    unfold soil_result. by rewrite (soil_regions_blank img Hfc Hnone).
  - rewrite (fire_run_valid _ _ _ _ _ h l img Hl Hvalid).
    unfold fire_result. by rewrite (fire_regions_blank img Hfc Hnone).
Qed.

(** X11: the total area the soil detector returns is 0 or greater than
    500, never in between, and the hotspot count is never negative; when
    the summary of a detector is 0, the image it returns equals the
    input. *)
Theorem resumo_zero_sem_anotacao (h : gmap nat (list (list (list Z)))) (l : nat)
    (img : list (list (list Z))) :
  h !! l = Some img → valid_image img = true →
  ∃ (s n : Z) (out_s out_f : list (list (list Z))),
    soil (PyArr l) h = (Ok (PyArr (fresh (dom h)), s), <[fresh (dom h) := out_s]> h) ∧
    fire (PyArr l) h = (Ok (PyArr (fresh (dom h)), n), <[fresh (dom h) := out_f]> h) ∧
    (s = 0 ∨ half_of_int 500 < s) ∧ (s = 0 → out_s = img) ∧
    0 ≤ n ∧ (n = 0 → out_f = img).
Proof.
  intros Hl Hvalid.
  rewrite (soil_run_valid _ _ _ _ h l img Hl Hvalid).
  rewrite (fire_run_valid _ _ _ _ _ h l img Hl Hvalid).
  eexists _, _, _, _. split; [reflexivity|]. split; [reflexivity|].
  unfold soil_result, fire_result. cbn [fst snd].
  unfold soil_regions.
  match goal with |- context [keep_regions 500 ?cs] =>
    destruct (total_area_kept 500 (keep_regions 500 cs) ltac:(lia) ltac:(reflexivity)
                (keep_regions_Forall 500 cs)) as [[Hk Ht]|[Hk Ht]] end.
  - rewrite Hk in *. split; [by left|]. split; [done|]. split; [lia|].
    intros Hn. destruct (fire_regions _ _ _ _) as [|c cs']; [done|].
    cbn [length] in Hn. lia.
  - split; [by right|]. split; [unfold half_of_int in Ht; lia|]. split; [lia|].
    intros Hn. destruct (fire_regions _ _ _ _) as [|c cs']; [done|].
    cbn [length] in Hn. lia.
Qed.

End Mascaras.

(** ** The rectangle of a region *)

Lemma foldr_min_le (a : Z) (l : list Z) :
  foldr Z.min a l ≤ a ∧ Forall (λ v, foldr Z.min a l ≤ v) l.
Proof.
  induction l as [|v l [IH1 IH2]]; cbn [foldr]; [by split; [lia|constructor]|].
  split; [lia|]. constructor; [lia|].
  eapply Forall_impl; [exact IH2|]. intros w Hw. cbn beta in Hw. lia.
Qed.

Lemma foldr_max_ge (a : Z) (l : list Z) :
  a ≤ foldr Z.max a l ∧ Forall (λ v, v ≤ foldr Z.max a l) l.
Proof.
  induction l as [|v l [IH1 IH2]]; cbn [foldr]; [by split; [lia|constructor]|].
  split; [lia|]. constructor; [lia|].
  eapply Forall_impl; [exact IH2|]. intros w Hw. cbn beta in Hw. lia.
Qed.

(** X13: the box of a region contains every point of its contour, so the
    rectangle a detector draws from the corner (x, y) of the box to
    (x + w, y + h) has every contour point on or inside of it, and no
    contour point on its right or bottom side. *)
Theorem boundingRect_contem_contorno (c : list (Z * Z)) (px py : Z) :
  (px, py) ∈ c →
  ∃ x y w h, boundingRect c = (x, y, w, h) ∧
    x ≤ px < x + w ∧ y ≤ py < y + h.
Proof.
  intros Hin. destruct c as [|[x0 y0] rest]; [by apply elem_of_nil in Hin|].
  unfold boundingRect. eexists _, _, _, _. split; [reflexivity|].
  destruct (foldr_min_le x0 (map fst rest)) as [Hx1 Hx2].
  destruct (foldr_max_ge x0 (map fst rest)) as [Hx3 Hx4].
  destruct (foldr_min_le y0 (map snd rest)) as [Hy1 Hy2].
  destruct (foldr_max_ge y0 (map snd rest)) as [Hy3 Hy4].
  apply elem_of_cons in Hin as [Heq|Hin].
  - injection Heq as -> ->. lia.
  - rewrite Forall_map, Forall_forall in Hx2, Hx4, Hy2, Hy4.
    specialize (Hx2 _ Hin). specialize (Hx4 _ Hin).
    specialize (Hy2 _ Hin). specialize (Hy4 _ Hin). cbn [fst snd] in *. lia.
Qed.

(** ** The fire pipeline *)

Lemma Binary_fire_mask (hsv : list (list (Z * Z * Z))) :
  Forall (Forall (λ v : Z, v = 0 ∨ v = 255)) (fire_mask hsv).
Proof.
  unfold fire_mask. apply Forall_map, Forall_forall. intros row _.
  apply Forall_map, Forall_forall. intros [[h s] v] _.
  case_bool_decide; auto.
Qed.

Section FirePipeline.

Variable bgr2hsv : list Z → Z * Z * Z.
Variable blur_val : nat * nat → Z → list (list (list Z)) → nat → nat → nat → Z.
Variable findContours : list (list Z) → RetrievalModes → ContourApproximationModes →
  list (list (Z * Z)).
Variable rectangle_raster : Z * Z → Z * Z → Z → list (Z * Z).
Variable putText_raster : string → Z * Z → HersheyFonts → Z * Z → Z → list (Z * Z).

Lemma fire_result_amended (img : list (list (list Z))) :
  valid_image img = true →
  byte_hsv (map (map bgr2hsv) (blur_of blur_val img)) = true →
  exact_range (Z.of_nat (length img)) (Z.of_nat (length (default [] (head img))))
    (fire_contours bgr2hsv blur_val findContours true img) = true →
  fire_result bgr2hsv blur_val findContours rectangle_raster putText_raster img =
  detectFireHotspots_amended bgr2hsv blur_val findContours rectangle_raster
    putText_raster img.
Proof.
  intros Hvalid Hbytes%byte_hsv_Forall Hrange.
  set (cs := fire_contours bgr2hsv blur_val findContours true img) in *.
  assert (fire_regions bgr2hsv blur_val findContours img =
          List.filter (λ c, half_of_int 30 <? polygon_area c) cs) as Hkept.
  { unfold fire_regions. rewrite (mascara_combinada_spec _ Hbytes).
    unfold keep_regions, findRegions, open5.
    rewrite (erode_erosion (fire_mask _)) by apply Binary_fire_mask.
    rewrite (dilate_dilation (erosion true _)) by apply Binary_erosion.
    rewrite (dilate_dilation (dilation false _)) by apply Binary_dilation.
    fold (hot_spots bgr2hsv blur_val true img).
    fold (fire_contours bgr2hsv blur_val findContours true img). fold cs.
    apply filter_List_filter. intros c Hc.
    destruct (contourArea_in_range _ _ cs c Hrange Hc) as [-> _].
    symmetry. apply Z.ltb_lt. }
  unfold fire_result, detectFireHotspots_amended, fire_pipeline.
  fold cs. rewrite Hkept. f_equal.
  apply drawRegions_paint, valid_image_three, Hvalid.
Qed.

(** X12: on a valid 3-channel image whose smoothed pixels convert to
    bytes and whose contours are in the range in which the arithmetic of
    the areas is exact, the fire detector smooths the image, converts it
    to HSV, sets the mask where the hue lies in 0..20 or 170..180 and the
    value is at least 215, opens the mask and dilates it with the 5x5
    element, extracts the external regions, keeps those whose polygon
    area is strictly greater than 30, sets on a copy of the input, not of
    the smoothed image, the pixels of their rectangles and of their labels
    Foco de Incendio to red (0, 0, 255), and returns the copy with the
    number of regions kept. *)
Theorem detectar_focos_incendio_pipeline (h : gmap nat (list (list (list Z)))) (l : nat)
    (img : list (list (list Z))) :
  h !! l = Some img → valid_image img = true →
  byte_hsv (map (map bgr2hsv) (blur_of blur_val img)) = true →
  exact_range (Z.of_nat (length img)) (Z.of_nat (length (default [] (head img))))
    (fire_contours bgr2hsv blur_val findContours true img) = true →
  ∃ l' : nat, (l' ∉ dom h) ∧
    detectar_focos_incendio bgr2hsv blur_val findContours rectangle_raster
      putText_raster (PyArr l) h =
    (Ok (PyArr l',
         snd (detectFireHotspots_amended bgr2hsv blur_val findContours
                rectangle_raster putText_raster img)),
     <[l' := fst (detectFireHotspots_amended bgr2hsv blur_val findContours
                    rectangle_raster putText_raster img)]> h).
Proof.
  intros Hl Hvalid Hbytes Hrange. exists (fresh (dom h)). split; [apply is_fresh|].
  rewrite (fire_run_valid bgr2hsv blur_val findContours rectangle_raster putText_raster
             h l img Hl Hvalid).
  rewrite (fire_result_amended img Hvalid Hbytes Hrange). reflexivity.
Qed.

End FirePipeline.

(** ** The further properties at concrete inputs *)

Lemma converter_cv2_para_qpixmap_layout_witness :
  sample_heap !! 0%nat = Some (ochre_image 30) ∧
  valid_image (ochre_image 30) = true ∧
  ∃ q, converter_cv2_para_qpixmap (PyArr 0) sample_heap = (Ok q, sample_heap) ∧
    qi_height q = length (ochre_image 30) ∧
    qi_width q = length (default [] (head (ochre_image 30))) ∧
    qi_bytesPerLine q = (3 * qi_width q)%nat ∧
    length (qi_data q) = (qi_height q * qi_bytesPerLine q)%nat ∧
    ∀ y x b g r, pixel_at (ochre_image 30) y x = Some [b; g; r] →
      QImage_pixel q x y = Some (r, g, b).
Proof.
  split; [vm_compute; reflexivity|]. split; [vm_compute; reflexivity|].
  apply (converter_cv2_para_qpixmap_layout sample_heap 0%nat (ochre_image 30));
    vm_compute; reflexivity.
Defined.

Lemma selecionar_limpa_resultados_witness :
  "solo.png" ≠ "" ∧
  selection (sample_selecionar "solo.png" DetectorApp_init ∅).1.2 =
    (Some "solo.png", true, LabelText "solo.png") ∧
  (lbl_resultado_desmatamento (sample_selecionar "solo.png" DetectorApp_init ∅).1.2,
   lbl_img_desmatamento (sample_selecionar "solo.png" DetectorApp_init ∅).1.2,
   lbl_resultado_incendio (sample_selecionar "solo.png" DetectorApp_init ∅).1.2,
   lbl_img_incendio (sample_selecionar "solo.png" DetectorApp_init ∅).1.2) =
  (NoContent, LabelText "Resultado Desmatamento",
   NoContent, LabelText "Resultado Incêndio") ∧
  match sample_imread "solo.png" with
  | None =>
      lbl_img_original (sample_selecionar "solo.png" DetectorApp_init ∅).1.2 =
        LabelText "Imagem Original" ∧
      dialogs (sample_selecionar "solo.png" DetectorApp_init ∅).1.2 =
        ("Erro", mensagem_erro "solo.png") :: dialogs DetectorApp_init
  | Some img =>
      valid_image img = true →
      lbl_img_original (sample_selecionar "solo.png" DetectorApp_init ∅).1.2 =
        LabelPixmap (sample_scaled OfOriginal (QImage_of img)) ∧
      dialogs (sample_selecionar "solo.png" DetectorApp_init ∅).1.2 =
        dialogs DetectorApp_init
  end.
Proof.
  split; [intros H; discriminate H|].
  apply (selecionar_limpa_resultados sample_imread sample_scaled "solo.png"
           DetectorApp_init ∅).
  intros H; discriminate H.
Defined.

Lemma processar_imagem_sem_resultado_witness :
  (truthy (caminho_imagem (set_caminho_imagem (Some "nada.png") DetectorApp_init)) = false ∨
   sample_imread
     (default "" (caminho_imagem (set_caminho_imagem (Some "nada.png") DetectorApp_init))) =
   None) ∧
  sample_processar (set_caminho_imagem (Some "nada.png") DetectorApp_init) ∅ =
  (Ok (),
   if truthy (caminho_imagem (set_caminho_imagem (Some "nada.png") DetectorApp_init))
   then add_dialog
          ("Erro",
           mensagem_erro
             (default ""
                (caminho_imagem (set_caminho_imagem (Some "nada.png") DetectorApp_init))))
          (set_caminho_imagem (Some "nada.png") DetectorApp_init)
   else set_caminho_imagem (Some "nada.png") DetectorApp_init,
   ∅).
Proof.
  split; [right; vm_compute; reflexivity|].
  apply (processar_imagem_sem_resultado sample_bgr2hsv sample_blur sample_findContours
           sample_rectangle_raster sample_putText_raster sample_imread sample_scaled
           (set_caminho_imagem (Some "nada.png") DetectorApp_init) ∅).
  right. vm_compute. reflexivity.
Defined.

Lemma processar_imagem_resultados_witness :
  caminho_imagem (set_caminho_imagem (Some "solo.png") DetectorApp_init) =
    Some "solo.png" ∧
  "solo.png" ≠ "" ∧
  sample_imread "solo.png" = Some (ochre_image 30) ∧
  valid_image (ochre_image 30) = true ∧
  let solo := soil_result sample_bgr2hsv sample_findContours sample_rectangle_raster
                sample_putText_raster (ochre_image 30) in
  let fogo := fire_result sample_bgr2hsv sample_blur sample_findContours
                sample_rectangle_raster sample_putText_raster (ochre_image 30) in
  ∃ self' h',
    sample_processar (set_caminho_imagem (Some "solo.png") DetectorApp_init) ∅ =
      (Ok (), self', h') ∧
    lbl_resultado_desmatamento self' =
      LabelText ("<b>Área de Desmatamento:</b> " +:+ pretty (Z.quot solo.2 2) +:+ " pixels") ∧
    lbl_img_desmatamento self' =
      LabelPixmap (sample_scaled OfDesmatamento (QImage_of solo.1)) ∧
    lbl_resultado_incendio self' =
      LabelText ("<b>Focos de Incêndio:</b> " +:+ pretty fogo.2) ∧
    lbl_img_incendio self' = LabelPixmap (sample_scaled OfIncendio (QImage_of fogo.1)) ∧
    selection self' = selection (set_caminho_imagem (Some "solo.png") DetectorApp_init) ∧
    lbl_img_original self' =
      lbl_img_original (set_caminho_imagem (Some "solo.png") DetectorApp_init) ∧
    dialogs self' = dialogs (set_caminho_imagem (Some "solo.png") DetectorApp_init) ∧
    ∀ l a, (∅ : gmap nat (list (list (list Z)))) !! l = Some a → h' !! l = Some a.
Proof.
  split; [reflexivity|]. split; [intros H; discriminate H|].
  split; [reflexivity|]. split; [vm_compute; reflexivity|].
  apply (processar_imagem_resultados sample_bgr2hsv sample_blur sample_findContours
           sample_rectangle_raster sample_putText_raster sample_imread sample_scaled
           (set_caminho_imagem (Some "solo.png") DetectorApp_init) ∅ "solo.png"
           (ochre_image 30));
    [reflexivity|intros H; discriminate H|reflexivity|vm_compute; reflexivity].
Defined.

Lemma resultados_da_imagem_selecionada_witness :
  (∀ p img, sample_imread p = Some img → valid_image img = true) ∧
  resultados_ok sample_bgr2hsv sample_blur sample_findContours sample_rectangle_raster
    sample_putText_raster sample_imread sample_scaled
    (sample_run_events [Selecionar "solo.png"; Processar; Selecionar "nada.png"]
       DetectorApp_init ∅).1.
Proof.
  assert (∀ p img, sample_imread p = Some img → valid_image img = true) as Hread.
  { intros p img. unfold sample_imread. destruct (bool_decide (p = "solo.png")).
    - intros H. injection H as <-. vm_compute. reflexivity.
    - intros H. discriminate H. }
  split; [exact Hread|].
  apply (resultados_da_imagem_selecionada sample_bgr2hsv sample_blur sample_findContours
           sample_rectangle_raster sample_putText_raster sample_imread sample_scaled
           [Selecionar "solo.png"; Processar; Selecionar "nada.png"] ∅ Hread).
Defined.

Lemma abertura_pixel_witness :
  binary_mask (replicate 3 (replicate 3 255)) = true ∧
  (mask_px (morphologyEx (replicate 3 (replicate 3 255)) MORPH_OPEN (np_ones 5 5)) 0 0 =
     Some 255 ↔
   is_Some (mask_px (replicate 3 (replicate 3 255)) 0 0) ∧
   ∃ dy dx, -2 ≤ dy ≤ 2 ∧ -2 ≤ dx ≤ 2 ∧
     is_Some (mask_px (replicate 3 (replicate 3 255)) (0 + dy) (0 + dx)) ∧
     ∀ ey ex, -2 ≤ ey ≤ 2 → -2 ≤ ex ≤ 2 →
       ∀ v, mask_px (replicate 3 (replicate 3 255)) (0 + dy + ey) (0 + dx + ex) = Some v →
            v = 255) ∧
  (mask_px (morphologyEx (replicate 3 (replicate 3 255)) MORPH_OPEN (np_ones 5 5)) 0 0 =
     Some 255 →
   mask_px (replicate 3 (replicate 3 255)) 0 0 = Some 255).
Proof.
  split; [reflexivity|].
  apply (abertura_pixel (replicate 3 (replicate 3 255)) 0 0). reflexivity.
Defined.


Lemma mascaras_com_dimensoes_da_imagem_witness :
  mascara_combinada (map (map sample_bgr2hsv) (blur_of sample_blur (ochre_image 3))) =
    Ok (replicate 3 (replicate 3 0)) ∧
  map length (morphologyEx
                (morphologyEx
                   (inRange (map (map sample_bgr2hsv) (ochre_image 3))
                      (10, 40, 40) (30, 255, 255))
                   MORPH_OPEN (np_ones 5 5))
                MORPH_CLOSE (np_ones 5 5)) = map length (ochre_image 3) ∧
  map length (morphologyEx
                (morphologyEx (replicate 3 (replicate 3 0)) MORPH_OPEN (np_ones 5 5))
                MORPH_DILATE (np_ones 5 5)) = map length (ochre_image 3).
Proof.
  split; [vm_compute; reflexivity|].
  apply (mascaras_com_dimensoes_da_imagem sample_bgr2hsv sample_blur (ochre_image 3)
           (replicate 3 (replicate 3 0))).
  vm_compute. reflexivity.
Defined.

Lemma imagem_sem_deteccao_witness :
  ({[0%nat := replicate 2 (replicate 2 grey)]} : gmap nat (list (list (list Z)))) !! 0%nat =
    Some (replicate 2 (replicate 2 grey)) ∧
  valid_image (replicate 2 (replicate 2 grey)) = true ∧
  sample_findContours (map (map (λ _, 0)) (replicate 2 (replicate 2 grey)))
    RETR_EXTERNAL CHAIN_APPROX_SIMPLE = [] ∧
  (forallb (forallb (λ px,
     negb (in_bounds (10, 40, 40) (30, 255, 255) (sample_bgr2hsv px))))
     (replicate 2 (replicate 2 grey)) = true →
   sample_desmatamento (PyArr 0) {[0%nat := replicate 2 (replicate 2 grey)]} =
   (Ok (PyArr (fresh (dom ({[0%nat := replicate 2 (replicate 2 grey)]}
                             : gmap nat (list (list (list Z)))))), 0),
    <[fresh (dom ({[0%nat := replicate 2 (replicate 2 grey)]}
                    : gmap nat (list (list (list Z))))) := replicate 2 (replicate 2 grey)]>
      {[0%nat := replicate 2 (replicate 2 grey)]})) ∧
  (forallb (forallb (λ px,
     negb ((in_bounds (0, 0, 0) (20, 255, 255) (sample_bgr2hsv px) ||
            in_bounds (170, 0, 0) (180, 255, 255) (sample_bgr2hsv px)) &&
           in_bounds (0, 0, 215) (180, 255, 255) (sample_bgr2hsv px))))
     (blur_of sample_blur (replicate 2 (replicate 2 grey))) = true →
   sample_focos_incendio (PyArr 0) {[0%nat := replicate 2 (replicate 2 grey)]} =
   (Ok (PyArr (fresh (dom ({[0%nat := replicate 2 (replicate 2 grey)]}
                             : gmap nat (list (list (list Z)))))), 0),
    <[fresh (dom ({[0%nat := replicate 2 (replicate 2 grey)]}
                    : gmap nat (list (list (list Z))))) := replicate 2 (replicate 2 grey)]>
      {[0%nat := replicate 2 (replicate 2 grey)]})).
Proof.
  split; [vm_compute; reflexivity|]. split; [vm_compute; reflexivity|].
  split; [vm_compute; reflexivity|].
  apply (imagem_sem_deteccao sample_bgr2hsv sample_blur sample_findContours
           sample_rectangle_raster sample_putText_raster
           {[0%nat := replicate 2 (replicate 2 grey)]} 0%nat
           (replicate 2 (replicate 2 grey))); vm_compute; reflexivity.
Defined.

Lemma resumo_zero_sem_anotacao_witness :
  sample_heap !! 0%nat = Some (ochre_image 30) ∧
  valid_image (ochre_image 30) = true ∧
  ∃ (s n : Z) (out_s out_f : list (list (list Z))),
    sample_desmatamento (PyArr 0) sample_heap =
      (Ok (PyArr (fresh (dom sample_heap)), s), <[fresh (dom sample_heap) := out_s]> sample_heap) ∧
    sample_focos_incendio (PyArr 0) sample_heap =
      (Ok (PyArr (fresh (dom sample_heap)), n), <[fresh (dom sample_heap) := out_f]> sample_heap) ∧
    (s = 0 ∨ half_of_int 500 < s) ∧ (s = 0 → out_s = ochre_image 30) ∧
    0 ≤ n ∧ (n = 0 → out_f = ochre_image 30).
Proof.
  split; [vm_compute; reflexivity|]. split; [vm_compute; reflexivity|].
  apply (resumo_zero_sem_anotacao sample_bgr2hsv sample_blur sample_findContours
           sample_rectangle_raster sample_putText_raster sample_heap 0%nat
           (ochre_image 30)); vm_compute; reflexivity.
Defined.

Lemma detectar_focos_incendio_pipeline_witness :
  ({[0%nat := replicate 8 (replicate 8 [0; 0; 255])]}
     : gmap nat (list (list (list Z)))) !! 0%nat =
    Some (replicate 8 (replicate 8 [0; 0; 255])) ∧
  valid_image (replicate 8 (replicate 8 [0; 0; 255])) = true ∧
  byte_hsv (map (map sample_bgr2hsv)
              (blur_of sample_blur (replicate 8 (replicate 8 [0; 0; 255])))) = true ∧
  exact_range (Z.of_nat (length (replicate 8 (replicate 8 [0; 0; 255]))))
    (Z.of_nat (length (default [] (head (replicate 8 (replicate 8 [0; 0; 255]))))))
    (fire_contours sample_bgr2hsv sample_blur sample_findContours true
       (replicate 8 (replicate 8 [0; 0; 255]))) = true ∧
  ∃ l' : nat,
    (l' ∉ dom ({[0%nat := replicate 8 (replicate 8 [0; 0; 255])]}
                 : gmap nat (list (list (list Z))))) ∧
    sample_focos_incendio (PyArr 0) {[0%nat := replicate 8 (replicate 8 [0; 0; 255])]} =
    (Ok (PyArr l',
         snd (detectFireHotspots_amended sample_bgr2hsv sample_blur sample_findContours
                sample_rectangle_raster sample_putText_raster
                (replicate 8 (replicate 8 [0; 0; 255])))),
     <[l' := fst (detectFireHotspots_amended sample_bgr2hsv sample_blur
                    sample_findContours sample_rectangle_raster sample_putText_raster
                    (replicate 8 (replicate 8 [0; 0; 255])))]>
       {[0%nat := replicate 8 (replicate 8 [0; 0; 255])]}).
Proof.
  split; [vm_compute; reflexivity|]. split; [vm_compute; reflexivity|].
  split; [vm_compute; reflexivity|]. split; [vm_compute; reflexivity|].
  apply (detectar_focos_incendio_pipeline sample_bgr2hsv sample_blur sample_findContours
           sample_rectangle_raster sample_putText_raster
           {[0%nat := replicate 8 (replicate 8 [0; 0; 255])]} 0%nat
           (replicate 8 (replicate 8 [0; 0; 255]))); vm_compute; reflexivity.
Defined.

Lemma boundingRect_contem_contorno_witness :
  (30, 9) ∈ [(3, 3); (3, 20); (30, 9)] ∧
  ∃ x y w h, boundingRect [(3, 3); (3, 20); (30, 9)] = (x, y, w, h) ∧
    x ≤ 30 < x + w ∧ y ≤ 9 < y + h.
Proof.
  assert ((30, 9) ∈ [(3, 3); (3, 20); (30, 9)]) as Hin
    by (do 2 apply list_elem_of_further; apply list_elem_of_here).
  split; [exact Hin|].
  apply (boundingRect_contem_contorno [(3, 3); (3, 20); (30, 9)] 30 9 Hin).
Defined.
